(** * Disentanglement metrics of [disvae/evaluate.py]

    A shallow embedding of the [Evaluator] class: the mixed-radix index
    of the paired-sample builder, the entropy estimators, the MIG and AAM
    aggregators, the baseline trainers and the evaluation entry point.

    Conventions.  Integer arrays of numpy are lists of [Z]; [int64]
    arithmetic has its wrap-around written out.  A tensor that is reshaped
    or sliced is a shape with its elements in row-major order; vectors and
    tables of entropies are lists and lists of rows.  Numbers are reals
    and the arithmetic is exact; where a division can give an infinity or
    not-a-number, the result is an [fvalue].  Python exceptions are values
    of [exn]; a function that can raise returns [result], one that also
    reads or writes a state is in [M].  Random draws are read from an
    explicit generator state.  Calls to the logger and to the tracking
    service are left out. *)

From Stdlib Require Import ZArith List Lia Bool Arith.
From Stdlib Require String.
Import String.StringSyntax.
Delimit Scope string_scope with string.
From Stdlib Require Import Reals Lra Permutation.
From Stdlib Require DecimalString.
Import ListNotations.

(** ** Exceptions and the error monad *)

Inductive exn : Type :=
| NameError        (* covers UnboundLocalError, its subclass *)
| ValueError
| IndexError
| TypeError
| RuntimeError
| AttributeError.

Inductive result (A : Type) : Type :=
| Ok (a : A)
| Raise (e : exn).
Arguments Ok {A} a.
Arguments Raise {A} e.

Definition bind {A B : Type} (m : result A) (f : A -> result B) : result B :=
  match m with
  | Ok a => f a
  | Raise e => Raise e
  end.

Notation "x <~ m ;; k" := (bind m (fun x => k))
  (at level 61, m at next level, right associativity).

(** Code that also reads or writes a state (the random generators, the
    model and the files): an exception leaves the state as it was when it
    was raised. *)
Definition M (St A : Type) : Type := St -> result A * St.

Definition ret {St A : Type} (a : A) : M St A := fun s => (Ok a, s).

Definition raise {St A : Type} (e : exn) : M St A := fun s => (Raise e, s).

Definition lift {St A : Type} (r : result A) : M St A := fun s => (r, s).

Definition mbind {St A B : Type} (m : M St A) (f : A -> M St B) : M St B :=
  fun s =>
    match m s with
    | (Ok a, s') => f a s'
    | (Raise e, s') => (Raise e, s')
    end.

Notation "x <- m ;; k" := (mbind m (fun x => k))
  (at level 61, m at next level, right associativity).

(** [for x in xs: acc = body(acc, x)] *)
Fixpoint for_each {St A X : Type} (xs : list X) (body : A -> X -> M St A)
    (acc : A) : M St A :=
  match xs with
  | [] => ret acc
  | x :: t => acc' <- body acc x ;; for_each t body acc'
  end.

(** [[f(x) for x in xs]], the calls made from left to right. *)
Fixpoint map_m {St A X : Type} (f : X -> M St A) (xs : list X)
  : M St (list A) :=
  match xs with
  | [] => ret []
  | x :: t => a <- f x ;; r <- map_m f t ;; ret (a :: r)
  end.

(** [range(0, stop, step)]; a zero step raises. *)
Fixpoint range_from (fuel start stop step : nat) : list nat :=
  match fuel with
  | O => []
  | S fuel' =>
      if start <? stop then start :: range_from fuel' (start + step) stop step
      else []
  end.

Definition py_range (stop step : nat) : result (list nat) :=
  if step =? 0 then Raise ValueError else Ok (range_from stop 0 stop step).

(** ** numpy on integer arrays *)

Module Numpy.
Open Scope Z_scope.

(** Two's complement reduction of an [int64] result. *)
Definition int64_wrap (x : Z) : Z := (x + 2 ^ 63) mod 2 ^ 64 - 2 ^ 63.

(** [a.cumprod()]: running products, each stored as [int64]. *)
Fixpoint cumprod_from (acc : Z) (a : list Z) : list Z :=
  match a with
  | [] => []
  | x :: t => let p := int64_wrap (acc * x) in p :: cumprod_from p t
  end.

Definition cumprod (a : list Z) : list Z := cumprod_from 1 a.

(** [np.dot(v, b)] of two vectors; shapes that do not agree raise
    [ValueError].  The products and the sum are carried out in float64,
    which is exact on integers of magnitude at most [2 ^ 53]; the model is
    the exact sum, and the theorems about it bound the operands. *)
Fixpoint dot_aux (v b : list Z) : Z :=
  match v, b with
  | x :: v', y :: b' => x * y + dot_aux v' b'
  | _, _ => 0
  end.

Definition dot (v b : list Z) : result Z :=
  if Nat.eqb (length v) (length b) then Ok (dot_aux v b) else Raise ValueError.

End Numpy.

(** ** Mixed-radix index of the paired-sample builder
    ([Evaluator._images_from_data_gen], lines 352-356) *)

Section MixedRadix.
Open Scope Z_scope.

(** [np.concatenate((lat_sizes[::-1].cumprod()[::-1][1:], np.array([1,])))] *)
Definition latents_bases (lat_sizes : list Z) : list Z :=
  tl (rev (Numpy.cumprod (rev lat_sizes))) ++ [1].

(** [np.dot(samples[s, :], latents_bases).astype(int)] for one row. *)
Definition latent_index (lat_sizes : list Z) (sample : list Z) : result Z :=
  Numpy.dot sample (latents_bases lat_sizes).

(** The tuples of factor values: one value below each cardinality. *)
Definition valid_factors (lat_sizes sample : list Z) : Prop :=
  Forall2 (fun v s => 0 <= v < s) sample lat_sizes.

(** The number of images of the dense dataset. *)
Definition dataset_len (lat_sizes : list Z) : Z := fold_right Z.mul 1 lat_sizes.

(** The running products of the sizes from each position to the end, in
    unbounded arithmetic. *)
Fixpoint suffix_products (l : list Z) : list Z :=
  match l with
  | [] => []
  | x :: t => dataset_len (x :: t) :: suffix_products t
  end.

(** The products of the sizes strictly after each position. *)
Fixpoint tail_products (l : list Z) : list Z :=
  match l with
  | [] => []
  | _ :: t => dataset_len t :: tail_products t
  end.

(** Decoding as the specification words it: per factor, divide the index
    by that factor's basis and reduce modulo its cardinality. *)
Fixpoint decode_with (bases lat_sizes : list Z) (idx : Z) : list Z :=
  match bases, lat_sizes with
  | b :: bases', s :: sizes' => (idx / b) mod s :: decode_with bases' sizes' idx
  | _, _ => []
  end.

Definition decode_index (lat_sizes : list Z) (idx : Z) : list Z :=
  decode_with (latents_bases lat_sizes) lat_sizes idx.

End MixedRadix.

(** ** Tensors of reals *)

(** A contiguous tensor: its shape and its elements in row-major order. *)
Record tensor : Type := { shape : list nat; data : list R }.

Definition numel (sh : list nat) : nat := fold_right Nat.mul 1 sh.

Definition rsum (l : list R) : R := fold_right Rplus 0%R l.

(** [torch.logsumexp] along one axis, in exact arithmetic. *)
Definition logsumexp (l : list R) : R := ln (rsum (map exp l)).

(** [math.log(n)] of a length. *)
Definition math_log (n : nat) : result R :=
  if n =? 0 then Raise ValueError else Ok (ln (INR n)).

(** [n, d = t.shape] *)
Definition shape2 (t : tensor) : result (nat * nat) :=
  match shape t with
  | [n; d] => Ok (n, d)
  | _ => Raise ValueError
  end.

(** Row [n] of a table with [d] columns. *)
Definition row (d : nat) (xs : list R) (n : nat) : list R :=
  firstn d (skipn (n * d) xs).

(** Element [[i, j]] of a table with [d] columns. *)
Definition at2 (d : nat) (xs : list R) (i j : nat) : R := nth (i * d + j) xs 0%R.

(** [t.index_select(0, idx)] on an [n] by [d] table. *)
Definition index_select0 (n d : nat) (t : tensor) (idx : list nat)
  : result tensor :=
  if forallb (fun i => i <? n) idx
  then Ok {| shape := [length idx; d]; data := concat (map (row d (data t)) idx) |}
  else Raise IndexError.

(** [t.view(sh)] of a contiguous tensor: same elements, new shape, as long
    as the numbers of elements agree. *)
Definition view (t : tensor) (sh : list nat) : result tensor :=
  if numel (shape t) =? numel sh
  then Ok {| shape := sh; data := data t |}
  else Raise RuntimeError.

(** [t[idcs].contiguous()] for [idcs] a list of full slices with the
    integer [i] at axis [dim], which torch reads as a tuple: the axis is
    dropped and the elements that have [i] there are kept in order. *)
Definition select (t : tensor) (dim i : nat) : result tensor :=
  let pre := firstn dim (shape t) in
  match skipn dim (shape t) with
  | [] => Raise IndexError
  | s :: post =>
      if i <? s
      then Ok {| shape := pre ++ post;
                 data := concat (map (fun o =>
                           firstn (numel post)
                             (skipn ((o * s + i) * numel post) (data t)))
                           (seq 0 (numel pre))) |}
      else Raise IndexError
  end.

(** [t.unsqueeze(-1).expand(n, d, s)], lines 477-478.  [unsqueeze] adds a
    last axis of size 1; [expand] lines the sizes up from the right, reads 1
    for an axis that is missing, and wants each size to be the one asked
    for or 1, an axis of size 1 being repeated.  The result is the same at
    every position of its last axis: it is kept as the [n] by [d] table of
    its entries. *)
Definition unsqueeze_expand (t : tensor) (n d : nat) : result tensor :=
  let expanded (a b : nat) : result tensor :=
    if ((a =? n) || (a =? 1)) && ((b =? d) || (b =? 1))
    then Ok {| shape := [n; d];
               data := concat (map (fun i =>
                         map (fun j =>
                                nth ((if a =? 1 then 0 else i) * b
                                     + (if b =? 1 then 0 else j)) (data t) 0%R)
                             (seq 0 d))
                         (seq 0 n)) |}
    else Raise RuntimeError in
  match shape t with
  | [] => expanded 1 1
  | [b] => expanded 1 b
  | [a; b] => expanded a b
  | _ => Raise RuntimeError
  end.

(** [a += b] on vectors of one length. *)
Fixpoint vadd (a b : list R) : list R :=
  match a, b with
  | x :: a', y :: b' => (x + y)%R :: vadd a' b'
  | _, _ => []
  end.

(** [a / c] on a vector. *)
Definition vdiv (a : list R) (c : R) : list R := map (fun x => (x / c)%R) a.

(** [rows[k] = r] *)
Fixpoint set_row (rows : list (list R)) (k : nat) (r : list R)
  : list (list R) :=
  match rows, k with
  | [], _ => []
  | _ :: t, O => r :: t
  | x :: t, S k' => x :: set_row t k' r
  end.

(** ** The entropy estimators
    ([Evaluator._estimate_latent_entropies], [Evaluator._estimate_H_zCv]) *)

Section Estimators.

(** The state of the random generators, and [torch.randperm]. *)
Variable rng : Type.
Variable randperm : nat -> rng -> list nat * rng.

(** [disvae.utils.math.log_density_gaussian x mu logvar], on scalars. *)
Variable log_density_gaussian : R -> R -> R -> R.

Definition torch_randperm (n : nat) : M rng (list nat) :=
  fun g => let (p, g') := randperm n g in (Ok p, g').

(** [-log_q_z[j, s]] of lines 484-492 for dimension [j] and pivot [s]:
    [log N] minus the logsumexp over the [N] posteriors. *)
Definition neg_log_q_z (N D Sn : nat) (z mean log_var : list R) (log_N : R)
    (j s : nat) : R :=
  (- (- log_N +
      logsumexp (map (fun n => log_density_gaussian
                                 (at2 Sn z j s) (at2 D mean n j) (at2 D log_var n j))
                     (seq 0 N))))%R.

(** One turn of the loop of lines 481-497: the pivots [k .. k + mb - 1]
    that exist are added to [H_z]. *)
Definition entropies_block (N D Sn : nat) (z mean log_var : list R) (log_N : R)
    (mini_batch_size : nat) (H_z : list R) (k : nat) : list R :=
  let idcs := seq k (Nat.min mini_batch_size (Sn - k)) in
  vadd H_z
       (map (fun j => rsum (map (neg_log_q_z N D Sn z mean log_var log_N j) idcs))
            (seq 0 D)).

(** [_estimate_latent_entropies] with the size of the minibatch, a local
    constant of the source, as a parameter.  The pivots are the rows of
    the samples at the first [n_samples] entries of a random permutation,
    reshaped (not transposed) to [latent_dim] by [n_samples] on line 473:
    entry [[j, s]] of the pivots is entry [j * n_samples + s] of the
    selected rows laid end to end.  [expand] on line 476 only adds a first
    axis to them; on lines 477-478 it broadcasts the statistics.  The last
    division is the exact one, by [n_samples > 0]; with [n_samples = 0] the
    source divides zeros by zero and its entries are not numbers. *)
Definition estimate_latent_entropies_with (mini_batch_size : nat)
    (samples_zCx : tensor) (params_zCX : tensor * tensor) (n_samples : nat)
  : M rng (list R) :=
  shp <- lift (shape2 samples_zCx) ;;
  let (len_dataset, latent_dim) := (shp : nat * nat) in
  perm <- torch_randperm len_dataset ;;
  let samples_x := firstn n_samples perm in
  sel <- lift (index_select0 len_dataset latent_dim samples_zCx samples_x) ;;
  z <- lift (view sel [latent_dim; n_samples]) ;;
  mean <- lift (unsqueeze_expand (fst params_zCX) len_dataset latent_dim) ;;
  log_var <- lift (unsqueeze_expand (snd params_zCX) len_dataset latent_dim) ;;
  log_N <- lift (math_log len_dataset) ;;
  ks <- lift (py_range n_samples mini_batch_size) ;;
  let H_z :=
    fold_left (entropies_block len_dataset latent_dim n_samples
                 (data z) (data mean) (data log_var) log_N mini_batch_size)
              ks (repeat 0%R latent_dim) in
  ret (vdiv H_z (INR n_samples)).

Definition _estimate_latent_entropies := estimate_latent_entropies_with 10.

(** What the loop of lines 481-499 adds up to, all the pivots taken at
    once and in the layout of the source: entry [[j, s]] of the reshaped
    pivots stands for coordinate [j] of pivot [s]. *)
Definition entropies_average (N D Sn : nat) (z mean log_var : list R)
    (log_N : R) : list R :=
  map (fun j =>
         (rsum (map (fun s =>
                  log_N - logsumexp (map (fun n => log_density_gaussian
                              (at2 Sn z j s) (at2 D mean n j) (at2 D log_var n j))
                            (seq 0 N)))
                (seq 0 Sn)) / INR Sn)%R)
      (seq 0 D).

(** The estimator with the loop of lines 481-499 replaced by its total: the
    steps before the loop are those of the source. *)
Definition estimate_latent_entropies_whole
    (samples_zCx : tensor) (params_zCX : tensor * tensor) (n_samples : nat)
  : M rng (list R) :=
  shp <- lift (shape2 samples_zCx) ;;
  let (len_dataset, latent_dim) := (shp : nat * nat) in
  perm <- torch_randperm len_dataset ;;
  sel <- lift (index_select0 len_dataset latent_dim samples_zCx
                 (firstn n_samples perm)) ;;
  z <- lift (view sel [latent_dim; n_samples]) ;;
  mean <- lift (unsqueeze_expand (fst params_zCX) len_dataset latent_dim) ;;
  log_var <- lift (unsqueeze_expand (snd params_zCX) len_dataset latent_dim) ;;
  log_N <- lift (math_log len_dataset) ;;
  ret (entropies_average len_dataset latent_dim n_samples
         (data z) (data mean) (data log_var) log_N).

(** The estimate as the specification words it (section 4.2), for latent
    dimension [j]: the average over the pivots of [log N] minus the
    logarithm of the sum, over the [N] examples [n], of the exponentials of
    the log-density of coordinate [j] of the pivot under the posterior of
    example [n].  [samples], [mean] and [log_var] are [N] by [D] tables in
    row-major order and [pivots] the rows of [samples] taken as pivots. *)
Definition marginal_entropy (N D : nat) (samples mean log_var : list R)
    (pivots : list nat) (j : nat) : R :=
  (rsum (map (fun x =>
                ln (INR N) -
                ln (rsum (map (fun n =>
                                 exp (log_density_gaussian
                                        (nth (x * D + j) samples 0)
                                        (nth (n * D + j) mean 0)
                                        (nth (n * D + j) log_var 0)))
                              (seq 0 N))))
             pivots)
   / INR (length pivots))%R.

(** What the source computes for latent dimension [j], in closed form: the
    same average, with entry [j * n_samples + s] of the rows of the pivots
    laid end to end in the place of coordinate [j] of pivot [s]. *)
Definition reshaped_entropy (N D : nat) (samples mean log_var : list R)
    (pivots : list nat) (j : nat) : R :=
  let flat := concat (map (fun x => map (fun i => nth (x * D + i) samples 0%R)
                                        (seq 0 D))
                          pivots) in
  (rsum (map (fun s =>
                ln (INR N) -
                ln (rsum (map (fun n =>
                                 exp (log_density_gaussian
                                        (nth (j * length pivots + s) flat 0)
                                        (nth (n * D + j) mean 0)
                                        (nth (n * D + j) log_var 0)))
                              (seq 0 N))))
             (seq 0 (length pivots)))
   / INR (length pivots))%R.

(** The default of [n_samples]. *)
Definition n_samples_default : nat := 10000.

(** [reduce((lambda x, y: x * y), lat_sizes)] *)
Definition reduce_mul (l : list nat) : result nat :=
  match l with
  | [] => Raise TypeError
  | x :: t => Ok (fold_left Nat.mul t x)
  end.

(** The loop over the values of one factor, lines 510-520. *)
Definition H_zCv_value (n_samples : nat) (samples_zCx : tensor)
    (params_zCx : tensor * tensor) (len_dataset latent_dim : nat)
    (i_fac_var lat_size : nat) (H_zCv : list (list R)) (i : nat)
  : M rng (list (list R)) :=
  s <- lift (select samples_zCx i_fac_var i) ;;
  samples_zxCv <- lift (view s [len_dataset / lat_size; latent_dim]) ;;
  p0 <- lift (select (fst params_zCx) i_fac_var i) ;;
  mean_zxCv <- lift (view p0 [len_dataset / lat_size; latent_dim]) ;;
  p1 <- lift (select (snd params_zCx) i_fac_var i) ;;
  log_var_zxCv <- lift (view p1 [len_dataset / lat_size; latent_dim]) ;;
  H <- _estimate_latent_entropies samples_zxCv (mean_zxCv, log_var_zxCv)
         n_samples ;;
  ret (set_row H_zCv i_fac_var
         (vadd (nth i_fac_var H_zCv []) (vdiv H (INR lat_size)))).

(** [_estimate_H_zCv], the estimator being called with [n_samples]. *)
Definition estimate_H_zCv_with (n_samples : nat) (samples_zCx : tensor)
    (params_zCx : tensor * tensor) (lat_sizes : list nat)
    (lat_names : list String.string) : M rng (list (list R)) :=
  let latent_dim := last (shape samples_zCx) 0 in
  len_dataset <- lift (reduce_mul lat_sizes) ;;
  let H_zCv := repeat (repeat 0%R latent_dim) (length lat_sizes) in
  for_each (combine (seq 0 (length lat_sizes)) (combine lat_sizes lat_names))
    (fun H_zCv fac =>
       let '(i_fac_var, (lat_size, _)) := fac in
       for_each (seq 0 lat_size)
         (H_zCv_value n_samples samples_zCx params_zCx len_dataset latent_dim
            i_fac_var lat_size)
         H_zCv)
    H_zCv.

(** The source calls the estimator with its default. *)
Definition _estimate_H_zCv := estimate_H_zCv_with n_samples_default.

(** The conditional entropy as the specification words it.  In the dense
    factorial indexing example [n] has, for factor [k], the value
    [(n / basis_k) mod size_k]. *)
Definition factor_value (lat_sizes : list nat) (k n : nat) : nat :=
  (n / numel (skipn (S k) lat_sizes)) mod nth k lat_sizes 1.

(** The examples whose factor [k] equals [v], in dataset order. *)
Definition examples_with (lat_sizes : list nat) (k v : nat) : list nat :=
  filter (fun n => factor_value lat_sizes k n =? v)
         (seq 0 (numel lat_sizes)).

(** The table restricted to the examples [idx]. *)
Definition gather (d : nat) (t : tensor) (idx : list nat) : tensor :=
  {| shape := [length idx; d]; data := concat (map (row d (data t)) idx) |}.

(** For factor [k] of cardinality [lat_size]: the estimator on each slice,
    then the average with weight [1 / lat_size] each. *)
Definition H_zCv_factor_average (n_samples : nat) (samples_zCx : tensor)
    (params_zCx : tensor * tensor) (lat_sizes : list nat) (latent_dim : nat)
    (fac : nat * nat) : M rng (list R) :=
  let (k, lat_size) := fac in
  es <- map_m (fun v =>
                 let idx := examples_with lat_sizes k v in
                 _estimate_latent_entropies
                   (gather latent_dim samples_zCx idx)
                   (gather latent_dim (fst params_zCx) idx,
                    gather latent_dim (snd params_zCx) idx)
                   n_samples)
              (seq 0 lat_size) ;;
  ret (map (fun j => rsum (map (fun e => (1 / INR lat_size * nth j e 0)%R) es))
           (seq 0 latent_dim)).

Definition H_zCv_average (n_samples : nat) (samples_zCx : tensor)
    (params_zCx : tensor * tensor) (lat_sizes : list nat) (latent_dim : nat)
  : M rng (list (list R)) :=
  map_m (H_zCv_factor_average n_samples samples_zCx params_zCx lat_sizes
           latent_dim)
        (combine (seq 0 (length lat_sizes)) lat_sizes).

End Estimators.

(** ** The mutual-information scores
    ([Evaluator.compute_metrics] lines 172-177,
     [Evaluator._mutual_information_gap], [Evaluator._axis_aligned_metric]) *)

(** What a division of floats can give: a number, an infinity or
    not-a-number.  Sums, differences and products of numbers stay numbers
    (exact arithmetic, no overflow). *)
Inductive fvalue : Type :=
| Fin (x : R)
| PInf
| NInf
| NaN.

Definition fadd (a b : fvalue) : fvalue :=
  match a, b with
  | NaN, _ | _, NaN => NaN
  | PInf, NInf | NInf, PInf => NaN
  | PInf, _ | _, PInf => PInf
  | NInf, _ | _, NInf => NInf
  | Fin x, Fin y => Fin (x + y)
  end.

Definition fdiv (a b : fvalue) : fvalue :=
  match a, b with
  | NaN, _ | _, NaN => NaN
  | Fin x, Fin y =>
      if Req_dec_T y 0 then
        if Req_dec_T x 0 then NaN
        else if Rlt_dec 0 x then PInf else NInf
      else Fin (x / y)
  | Fin _, PInf | Fin _, NInf => Fin 0
  | PInf, Fin y => if Rlt_dec y 0 then NInf else PInf
  | NInf, Fin y => if Rlt_dec y 0 then PInf else NInf
  | PInf, PInf | PInf, NInf | NInf, PInf | NInf, NInf => NaN
  end.

(** [torch.log] of a cardinality. *)
Definition flog (n : nat) : fvalue :=
  if n =? 0 then NInf else Fin (ln (INR n)).

Definition fsum (l : list fvalue) : fvalue := fold_right fadd (Fin 0) l.

(** [v.mean()]: the mean of no value is not-a-number. *)
Definition fmean (l : list fvalue) : fvalue :=
  fdiv (fsum l) (Fin (INR (length l))).

Definition is_nan (a : fvalue) : bool :=
  match a with NaN => true | _ => false end.

(** [v[torch.isnan(v)] = 0] on one element. *)
Definition nan_to_zero (a : fvalue) : fvalue :=
  if is_nan a then Fin 0 else a.

(** [x.clamp(min=0)] on one element. *)
Definition clamp0 (x : R) : R := Rmax x 0.

Fixpoint map2 {A B C : Type} (f : A -> B -> C) (a : list A) (b : list B)
  : list C :=
  match a, b with
  | x :: a', y :: b' => f x y :: map2 f a' b'
  | _, _ => []
  end.

(** An elementwise operation on two vectors, with the broadcasting of a
    vector of one element. *)
Definition broadcast2 {A B C : Type} (f : A -> B -> C) (a : list A)
    (b : list B) : result (list C) :=
  if length a =? length b then Ok (map2 f a b)
  else match a, b with
       | [x], _ => Ok (map (f x) b)
       | _, [y] => Ok (map (fun x => f x y) a)
       | _, _ => Raise RuntimeError
       end.

Fixpoint map_r {A B : Type} (f : A -> result B) (l : list A)
  : result (list B) :=
  match l with
  | [] => Ok []
  | x :: t => y <~ f x ;; r <~ map_r f t ;; Ok (y :: r)
  end.

(** [torch.sort(row, descending=True)[0]] *)
Fixpoint insert_desc (x : R) (l : list R) : list R :=
  match l with
  | [] => [x]
  | y :: t => if Rle_dec y x then x :: y :: t else y :: insert_desc x t
  end.

Fixpoint sort_desc (l : list R) : list R :=
  match l with
  | [] => []
  | x :: t => insert_desc x (sort_desc t)
  end.

(** Lines 172-173: [mut_info = - H_zCv + H_z], then each row sorted
    downwards and clamped at zero. *)
Definition sorted_mut_info (H_z : list R) (H_zCv : list (list R))
  : result (list (list R)) :=
  mut_info <~ map_r (fun row => broadcast2 (fun c m => (- c + m)%R) row H_z)
                    H_zCv ;;
  Ok (map (fun row => map clamp0 (sort_desc row)) mut_info).

(** [t[:, j]] *)
Definition column (j : nat) (t : list (list R)) : result (list R) :=
  map_r (fun row => match nth_error row j with
                    | Some x => Ok x
                    | None => Raise IndexError
                    end) t.

(** The values kept in [metric_helpers]. *)
Inductive helper : Type :=
| Entropies (H_z : list R)
| CondEntropies (H_zCv : list (list R))
| PerFactor (v : list fvalue)
| Scalar (x : fvalue).

(** A Python dict with string keys, in insertion order. *)
Definition pydict (V : Type) : Type := list (String.string * V).

(** [d[key] = value] *)
Fixpoint dict_set {V : Type} (d : pydict V) (key : String.string) (value : V)
  : pydict V :=
  match d with
  | [] => [(key, value)]
  | (k, v) :: t =>
      if String.eqb k key then (k, value) :: t
      else (k, v) :: dict_set t key value
  end.

Definition dict : Type := pydict helper.

Definition store (storer : option dict) (key : String.string)
    (value : helper) : option dict :=
  option_map (fun d => dict_set d key value) storer.

Definition _mutual_information_gap (sorted_mut_info : list (list R))
    (lat_sizes : list nat) (storer : option dict)
  : result (fvalue * option dict) :=
  top1 <~ column 0 sorted_mut_info ;;
  top2 <~ column 1 sorted_mut_info ;;
  let delta_mut_info := map2 Rminus top1 top2 in
  let H_v := map flog lat_sizes in
  mig_k <~ broadcast2 (fun d h => fdiv (Fin d) h) delta_mut_info H_v ;;
  let mig := fmean mig_k in
  let storer := store storer "mig_k"%string (PerFactor mig_k) in
  let storer := store storer "mig"%string (Scalar mig) in
  Ok (mig, storer).

Definition _axis_aligned_metric (sorted_mut_info : list (list R))
    (storer : option dict) : result (fvalue * option dict) :=
  top1 <~ column 0 sorted_mut_info ;;
  let others := map (fun row => rsum (tl row)) sorted_mut_info in
  let numerator := map clamp0 (map2 Rminus top1 others) in
  let aam_k := map2 (fun n d => fdiv (Fin n) (Fin d)) numerator top1 in
  let aam_k := map nan_to_zero aam_k in
  let aam := fmean aam_k in
  let storer := store storer "aam_k"%string (PerFactor aam_k) in
  let storer := store storer "aam"%string (Scalar aam) in
  Ok (aam, storer).

(** The scores as the specification words them.  [top_two row a b]: [a]
    is the largest and [b] the second-largest entry of [row]. *)
Definition top_two (row : list R) (a b : R) : Prop :=
  exists rest,
    Permutation row (a :: b :: rest) /\ (b <= a)%R /\
    Forall (fun x => (x <= b)%R) rest.

(** The mutual information of one factor with every latent dimension,
    clamped at zero. *)
Definition mut_info_row (H_z H_zCv_k : list R) : list R :=
  map2 (fun m c => clamp0 (m - c)) H_z H_zCv_k.

(** For one factor: the largest entry minus all the others, clamped at
    zero, over the largest entry; zero when the largest entry is zero. *)
Definition aam_of_factor (row : list R) : R :=
  match row with
  | [] => 0
  | top1 :: others =>
      if Req_dec_T top1 0 then 0
      else (Rmax (top1 - rsum others) 0 / top1)
  end%R.

(** ** The paired-sample builder
    ([Evaluator._images_from_data_gen], [Evaluator._compute_z_b_diff_y]) *)

(** [a[i]] on a numpy array, a negative index counting from the end. *)
Definition np_getitem {A : Type} (a : list A) (i : Z) : result A :=
  let n := Z.of_nat (length a) in
  let j := if (i <? 0)%Z then (i + n)%Z else i in
  if ((0 <=? j) && (j <? n))%Z
  then match nth_error a (Z.to_nat j) with
       | Some x => Ok x
       | None => Raise IndexError
       end
  else Raise IndexError.

(** [torch.abs(torch.sub(mu1, mu2))] on two tables. *)
Definition abs_sub (mu1 mu2 : list (list R)) : list (list R) :=
  map2 (map2 (fun a b => Rabs (a - b))) mu1 mu2.

(** [torch.mean(z, 0)]: the mean of each column of a table. *)
Definition mean_dim0 (z : list (list R)) : list R :=
  match z with
  | [] => []
  | r :: _ =>
      map (fun d => (rsum (map (fun row => nth d row 0%R) z)
                     / INR (length z))%R)
          (seq 0 (length r))
  end.

Section PairedSamples.

(** The state of the random generators, and [np.random.randint high size]. *)
Variable rng : Type.
Variable randint : Z -> nat -> rng -> list Z * rng.

(** The images of the dataset. *)
Variable image : Type.

Definition np_randint (high : Z) (size : nat) : M rng (list Z) :=
  fun g =>
    if (high <=? 0)%Z then (Raise ValueError, g)
    else let (draws, g') := randint high size g in (Ok draws, g').

(** [samples[:, i] = col]: the column must have the height of the table. *)
Definition set_column (sample_size : nat) (cols : list (list Z))
    (col : list Z) : result (list (list Z)) :=
  if length col =? sample_size then Ok (cols ++ [col]) else Raise ValueError.

(** Lines 341-350: the factor held fixed and the two tables of factor
    values, kept here by columns. *)
Definition sample_factors (sample_size : nat) (lat_sizes : list Z)
  : M rng (Z * list (list Z) * list (list Z)) :=
  ys <- np_randint (Z.of_nat (length lat_sizes)) 1 ;;
  let y := hd 0%Z ys in
  size_y <- lift (np_getitem lat_sizes y) ;;
  y_lat <- np_randint size_y sample_size ;;
  cols <- for_each (combine (seq 0 (length lat_sizes)) lat_sizes)
            (fun acc fac =>
               let '(samples1, samples2) := acc in
               let '(i, lat_size) := fac in
               c1 <- (if (Z.of_nat i =? y)%Z then ret y_lat
                      else np_randint lat_size sample_size) ;;
               samples1 <- lift (set_column sample_size samples1 c1) ;;
               c2 <- (if (Z.of_nat i =? y)%Z then ret y_lat
                      else np_randint lat_size sample_size) ;;
               samples2 <- lift (set_column sample_size samples2 c2) ;;
               ret (samples1, samples2))
            ([], []) ;;
  ret (y, fst cols, snd cols).

(** Row [s] of a table kept by columns. *)
Definition row_of (cols : list (list Z)) (s : nat) : list Z :=
  map (fun col => nth s col 0%Z) cols.

(** Lines 352-360: the dense index of each row and the image there. *)
Definition images_at (sample_size : nat) (lat_sizes : list Z)
    (imgs : list image) (cols : list (list Z)) : result (list image) :=
  latent_indices <~ map_r (fun s => latent_index lat_sizes (row_of cols s))
                          (seq 0 sample_size) ;;
  map_r (np_getitem imgs) latent_indices.

Definition _images_from_data_gen (sample_size : nat) (lat_sizes : list Z)
    (imgs : list image) : M rng (list image * list image * Z) :=
  drawn <- sample_factors sample_size lat_sizes ;;
  let '(y, samples1, samples2) := drawn in
  imgs_sampled1 <- lift (images_at sample_size lat_sizes imgs samples1) ;;
  imgs_sampled2 <- lift (images_at sample_size lat_sizes imgs samples2) ;;
  ret (imgs_sampled1, imgs_sampled2, y).

(** The mean of the encoder of the model, and the fitted projections kept
    in [methods]: each maps a batch of images to a table. *)
Variable encoder_mean : list image -> list (list R).

Definition methods_dict : Type :=
  list (String.string * (list image -> list (list R))).

(** The two representation outputs of one method, lines 307-330. *)
Definition method_outputs (method : String.string)
    (transform : list image -> list (list R))
    (imgs_sampled1 imgs_sampled2 : list image)
  : result (list (list R) * list (list R)) :=
  if String.eqb method "VAE"%string then
    Ok (encoder_mean imgs_sampled1, encoder_mean imgs_sampled2)
  else if String.eqb method "PCA"%string then
    Ok (transform imgs_sampled1, transform imgs_sampled2)
  else if String.eqb method "ICA"%string then
    Ok (transform imgs_sampled1, transform imgs_sampled2)
  else Raise ValueError.

(** The map from images to vectors behind a method name. *)
Definition representation (method : String.string)
    (transform : list image -> list (list R))
  : list image -> list (list R) :=
  if String.eqb method "VAE"%string then encoder_mean else transform.

(** The image of row [s] of a table of factor values. *)
Definition image_of_row (lat_sizes : list Z) (imgs : list image)
    (cols : list (list Z)) (s : nat) : result image :=
  idx <~ latent_index lat_sizes (row_of cols s) ;; np_getitem imgs idx.

Definition _compute_z_b_diff_y (methods : methods_dict) (sample_size : nat)
    (lat_sizes : list Z) (imgs : list image)
  : M rng (list (String.string * (list R * Z))) :=
  gen <- _images_from_data_gen sample_size lat_sizes imgs ;;
  let '(imgs_sampled1, imgs_sampled2, y) := gen in
  lift (map_r (fun entry =>
                 let '(method, transform) := (entry : String.string * _) in
                 mu <~ method_outputs method transform
                         imgs_sampled1 imgs_sampled2 ;;
                 let z_diff := abs_sub (fst mu) (snd mu) in
                 let z_diff_b := mean_dim0 z_diff in
                 Ok (method, (z_diff_b, y)))
              methods).

End PairedSamples.

(** A generator that replays a tape of draws. *)
Definition tape_randint (high : Z) (size : nat) (tape : list (list Z))
  : list Z * list (list Z) :=
  match tape with
  | [] => (repeat 0%Z size, [])
  | draws :: tape' => (draws, tape')
  end.

(** Sorted downwards: every entry bounds the later ones. *)
Fixpoint desc (l : list R) : Prop :=
  match l with
  | [] => True
  | x :: t => Forall (fun y => (y <= x)%R) t /\ desc t
  end.

(** The sorted and clamped row of one factor, as line 173 computes it. *)
Definition sorted_row (H_z row : list R) : list R :=
  map clamp0 (sort_desc (map2 (fun c m => (- c + m)%R) row H_z)).

(** The largest and the second-largest clamped mutual information of one
    factor, read off its sorted row. *)
Definition top_pair (H_z row : list R) : R * R :=
  (nth 0 (sorted_row H_z row) 0%R, nth 1 (sorted_row H_z row) 0%R).

(** ** The evaluator
    ([Evaluator.__call__], [compute_losses], [compute_metrics],
     [_disentanglement_metric] lines 189-221) *)

(** Reading a local name: a name that was never bound raises. *)
Definition lookup {A : Type} (v : option A) : result A :=
  match v with
  | Some a => Ok a
  | None => Raise NameError
  end.

Definition TEST_LOSSES_FILE : String.string := "test_losses.log"%string.
Definition METRICS_FILENAME : String.string := "metrics.log"%string.
Definition METRIC_HELPERS_FILE : String.string := "metric_helpers.pth"%string.

(** The metrics record of [compute_metrics]. *)
Record metrics_record : Type := {
  DM : pydict R;
  NLDM : pydict R;
  MIG : fvalue;
  AAM : fvalue
}.

(** What the evaluator writes under [save_dir]. *)
Inductive file_content : Type :=
| HelpersFile (d : dict)
| MetricsFile (m : metrics_record)
| LossesFile (l : option (pydict R)).

(** The attributes of the dataset that hold the true factors. *)
Record dataset (image : Type) : Type := {
  lat_sizes_attr : option (list Z);
  lat_names_attr : option (list String.string);
  imgs_attr : option (list image)
}.
Arguments lat_sizes_attr {image} d.
Arguments lat_names_attr {image} d.
Arguments imgs_attr {image} d.

(** [try: ... except ValueError: handler] *)
Definition try_except_ValueError {St A : Type} (body handler : M St A)
  : M St A :=
  fun s =>
    match body s with
    | (Raise ValueError, s') => handler s'
    | r => r
    end.

Section EvaluatorModel.

(** Everything outside the evaluator that has a state: the random
    generators, the optimisers, the tracking service. *)
Variable St : Type.
Variable randperm : nat -> St -> list nat * St.
Variable randint : Z -> nat -> St -> list Z * St.
Variable log_density_gaussian : R -> R -> R -> R.

(** Images, flattened images ([np.reshape] of one image) and batches. *)
Variable image flat batch : Type.
Variable flatten : image -> flat.

(** [self.model.latent_dim] *)
Variable latent_dim : nat.

(** [decomposition.PCA(n_components, whiten).fit] and
    [decomposition.FastICA(n_components).fit]. *)
Variable pca_model ica_model : Type.
Variable pca_fit : nat -> bool -> list flat -> M St pca_model.
Variable ica_fit : nat -> list flat -> M St ica_model.

Inductive method_model : Type :=
| TheVAE
| ThePCA (pca : pca_model)
| TheICA (ica : ica_model).

(** The locals of [_disentanglement_metric] that outlive one turn of the
    loop over the method names. *)
Record train_locals : Type := {
  methods : pydict method_model;
  imgs_pca : option (list flat)
}.

(** One turn of the loop of lines 190-221. *)
Definition train_method (imgs : list image) (l : train_locals)
    (method_name : String.string) : M St train_locals :=
  if String.eqb method_name "VAE"%string then
    ret {| methods := dict_set (methods l) "VAE"%string TheVAE;
           imgs_pca := imgs_pca l |}
  else if String.eqb method_name "PCA"%string then
    let imgs_pca0 := map flatten imgs in
    let size := 5000 in
    idx <- np_randint St randint (Z.of_nat (length imgs_pca0)) size ;;
    imgs_pca1 <- lift (map_r (np_getitem imgs_pca0) idx) ;;
    pca <- pca_fit latent_dim true imgs_pca1 ;;
    ret {| methods := dict_set (methods l) "PCA"%string (ThePCA pca);
           imgs_pca := Some imgs_pca1 |}
  else if String.eqb method_name "ICA"%string then
    let imgs_ica0 := map flatten imgs in
    let size := 1000 in
    bound <- lift (lookup (imgs_pca l)) ;;
    idx <- np_randint St randint (Z.of_nat (length bound)) size ;;
    imgs_ica1 <- lift (map_r (np_getitem imgs_ica0) idx) ;;
    ica <- ica_fit latent_dim imgs_ica1 ;;
    ret {| methods := dict_set (methods l) "ICA"%string (TheICA ica);
           imgs_pca := imgs_pca l |}
  else raise ValueError.

(** Lines 189-221: the methods are trained in the order of their names. *)
Definition train_methods (method_names : list String.string)
    (imgs : list image) : M St (pydict method_model) :=
  l <- for_each method_names (train_method imgs)
         {| methods := []; imgs_pca := None |} ;;
  ret (methods l).

(** The rest of [_disentanglement_metric], lines 222-295: the data of the
    classifier, its training and its accuracies; and [_compute_q_zCx].
    Both run the encoder of the model, in the mode they are given. *)
Variable classifier_accuracies :
  bool -> pydict method_model -> nat -> list Z -> list image ->
  nat -> nat -> nat -> bool -> M St (pydict R).
Variable _compute_q_zCx :
  bool -> list batch -> M St (tensor * (tensor * tensor)).

Definition _disentanglement_metric (mode : bool)
    (method_names : list String.string) (sample_size : nat)
    (lat_sizes : list Z) (imgs : list image)
    (n_epochs dataset_size hidden_dim : nat) (use_non_linear : bool)
  : M St (pydict R) :=
  methods <- train_methods method_names imgs ;;
  classifier_accuracies mode methods sample_size lat_sizes imgs
    n_epochs dataset_size hidden_dim use_non_linear.

(** The forward pass with the loss, and [loss_f.call_optimize]; each adds
    to the storer. *)
Variable forward_loss :
  bool -> batch -> pydict (list R) -> M St (pydict (list R)).
Variable call_optimize :
  bool -> batch -> pydict (list R) -> M St (pydict (list R)).

(** The evaluator's view of the world: the mode of [self.model], the
    outside state, the files under [save_dir], and the modes in which the
    model was run so far. *)
Record world : Type := {
  training : bool;
  ext : St;
  files : pydict file_content;
  runs : list bool
}.

(** [self.model.eval()] and [self.model.train()] *)
Definition model_eval : M world unit :=
  fun w => (Ok tt, {| training := false; ext := ext w; files := files w;
                      runs := runs w |}).

Definition model_train : M world unit :=
  fun w => (Ok tt, {| training := true; ext := ext w; files := files w;
                      runs := runs w |}).

(** A computation of the outside that does not run the model. *)
Definition outside {A : Type} (m : M St A) : M world A :=
  fun w =>
    let (r, e) := m (ext w) in
    (r, {| training := training w; ext := e; files := files w;
           runs := runs w |}).

(** A computation that runs the model: it sees the mode, which is noted. *)
Definition run_model {A : Type} (m : bool -> M St A) : M world A :=
  fun w =>
    let (r, e) := m (training w) (ext w) in
    (r, {| training := training w; ext := e; files := files w;
           runs := runs w ++ [training w] |}).

(** [torch.save] and [save_metadata]: one file written. *)
Definition write_file (filename : String.string) (c : file_content)
  : M world unit :=
  fun w => (Ok tt, {| training := training w; ext := ext w;
                      files := dict_set (files w) filename c;
                      runs := runs w |}).

(** Line 150 is a comment: [non_linear_accuracies] is bound nowhere. *)
Definition non_linear_accuracies : option (pydict R) := None.

(** Lines 141-145. *)
Definition true_factors (d : dataset image)
  : result (list Z * list String.string * list image) :=
  match lat_sizes_attr d, lat_names_attr d, imgs_attr d with
  | Some s, Some n, Some i => Ok (s, n, i)
  | _, _, _ => Raise ValueError
  end.

Definition mean_losses (n : nat) (storer : pydict (list R)) : pydict R :=
  map (fun kv => (fst kv, (rsum (snd kv) / INR n)%R)) storer.

(** [compute_losses]: the [return] sits inside the loop. *)
Definition compute_losses (dataloader : list batch)
  : M world (option (pydict R)) :=
  match dataloader with
  | [] => ret None
  | data :: _ =>
      storer <- run_model (fun mode =>
                  try_except_ValueError (forward_loss mode data [])
                                        (call_optimize mode data [])) ;;
      ret (Some (mean_losses (length dataloader) storer))
  end.

Definition compute_metrics (d : dataset image) (dataloader : list batch)
  : M world metrics_record :=
  factors <- lift (true_factors d) ;;
  let '(lat_sizes, lat_names, lat_imgs) := factors in
  accuracies <- run_model (fun mode =>
                  _disentanglement_metric mode ["VAE"; "PCA"; "ICA"]%string
                    300 lat_sizes lat_imgs 150 1500 512 false) ;;
  q <- run_model (fun mode => _compute_q_zCx mode dataloader) ;;
  let '(samples_zCx, params_zCx) := q in
  shp <- lift (shape2 samples_zCx) ;;
  let latent_dim' := snd (shp : nat * nat) in
  H_z <- outside (_estimate_latent_entropies St randperm log_density_gaussian
                    samples_zCx params_zCx n_samples_default) ;;
  let sizes := map Z.to_nat lat_sizes in
  samples_zCx <- lift (view samples_zCx (sizes ++ [latent_dim'])) ;;
  p0 <- lift (view (fst params_zCx) (sizes ++ [latent_dim'])) ;;
  p1 <- lift (view (snd params_zCx) (sizes ++ [latent_dim'])) ;;
  H_zCv <- outside (_estimate_H_zCv St randperm log_density_gaussian
                      samples_zCx (p0, p1) sizes lat_names) ;;
  sorted <- lift (sorted_mut_info H_z H_zCv) ;;
  let metric_helpers :=
    Some [("marginal_entropies"%string, Entropies H_z);
          ("cond_entropies"%string, CondEntropies H_zCv)] in
  r <- lift (_mutual_information_gap sorted sizes metric_helpers) ;;
  let '(mig, metric_helpers) := r in
  r <- lift (_axis_aligned_metric sorted metric_helpers) ;;
  let '(aam, metric_helpers) := r in
  nldm <- lift (lookup non_linear_accuracies) ;;
  let metrics := {| DM := accuracies; NLDM := nldm; MIG := mig; AAM := aam |} in
  _ <- write_file METRIC_HELPERS_FILE
         (HelpersFile (match metric_helpers with Some h => h | None => [] end)) ;;
  ret metrics.

(** [Evaluator.__call__]; it returns [metric], which stays [None]. *)
Definition __call__ (d : dataset image) (dataloader : list batch)
    (is_metrics is_losses : bool)
  : M world (option metrics_record * option (pydict R)) :=
  is_still_training <- (fun w => (Ok (training w), w)) ;;
  _ <- model_eval ;;
  let metric : option metrics_record := None in
  _ <- (if is_metrics then
          metrics <- compute_metrics d dataloader ;;
          write_file METRICS_FILENAME (MetricsFile metrics)
        else ret tt) ;;
  losses <- (if is_losses then
               losses <- compute_losses dataloader ;;
               _ <- write_file TEST_LOSSES_FILE (LossesFile losses) ;;
               ret losses
             else ret None) ;;
  _ <- (if (is_still_training : bool) then model_train else ret tt) ;;
  ret (metric, losses).

End EvaluatorModel.

(** A computation that writes no file. *)
Definition keeps_files {St A : Type} (m : M (world St) A) : Prop :=
  forall w, files St (snd (m w)) = files St w.

(** A computation that raises, whatever it is run on, and writes no file. *)
Definition raises_keeping_files {St A : Type} (m : M (world St) A)
  : Prop :=
  forall w, (exists e, fst (m w) = Raise e) /\
            files St (snd (m w)) = files St w.

(** Run in evaluation mode, a computation stays in evaluation mode and
    runs the model in that mode only. *)
Definition eval_safe {St A : Type} (m : M (world St) A) : Prop :=
  forall w,
    training St w = false ->
    training St (snd (m w)) = false /\
    exists new, runs St (snd (m w)) = runs St w ++ new /\
                Forall (fun mode => mode = false) new.

(** The draws that make [sample_factors] hold factor [k] fixed and return
    the two tables [A] and [B] (by columns): the factor, its shared column,
    then for every other factor its column of [A] and its column of [B]. *)
Definition tape_of (k : nat) (A B : list (list Z)) : list (list Z) :=
  [Z.of_nat k] :: nth k A [] ::
  flat_map (fun e : nat * (list Z * list Z) =>
              let '(i, (a, b)) := e in
              if i =? k then [] else [a; b])
           (combine (seq 0 (length A)) (combine A B)).

(** A column of factor values: one value below the cardinality per
    sample. *)
Definition valid_column (sample_size : nat) (col : list Z) (lat_size : Z)
  : Prop :=
  length col = sample_size /\ Forall (fun v => (0 <= v < lat_size)%Z) col.

(** A table with [n] rows of [d] entries. *)
Definition table_shape (n d : nat) (t : list (list R)) : Prop :=
  length t = n /\ Forall (fun r => length r = d) t.


(** The record as the specification words it: per dimension, the mean over
    the samples of the absolute difference of the two outputs. *)
Definition mean_abs_diff (sample_size latent_dim : nat)
    (mu1 mu2 : list (list R)) : list R :=
  map (fun d =>
         (rsum (map (fun s => Rabs (nth d (nth s mu1 []) 0
                                    - nth d (nth s mu2 []) 0))
                    (seq 0 sample_size))
          / INR sample_size)%R)
      (seq 0 latent_dim).

(** ** Further definitions: more exceptions *)

(** The exceptions of the code below, which also raises what the
    evaluator of the claims does not: a value of [exn], or one of four
    more. *)
Inductive pyexn : Type :=
| Evaluate (e : exn)
| KeyError
| StopIteration
| ZeroDivisionError
| AssertionError.

Inductive outcome (A : Type) : Type :=
| Returns (a : A)
| Raises (e : pyexn).
Arguments Returns {A} a.
Arguments Raises {A} e.

(** Stateful code over these exceptions; as in [M], an exception leaves
    the state as it was when it was raised. *)
Definition T (St A : Type) : Type := St -> outcome A * St.

Definition tret {St A : Type} (a : A) : T St A := fun s => (Returns a, s).

Definition traise {St A : Type} (e : pyexn) : T St A :=
  fun s => (Raises e, s).

Definition tbind {St A B : Type} (m : T St A) (f : A -> T St B) : T St B :=
  fun s =>
    match m s with
    | (Returns a, s') => f a s'
    | (Raises e, s') => (Raises e, s')
    end.

Notation "x <-- m ;; k" := (tbind m (fun x => k))
  (at level 61, m at next level, right associativity).

(** Code of [M] run inside [T]. *)
Definition of_M {St A : Type} (m : M St A) : T St A :=
  fun s =>
    match m s with
    | (Ok a, s') => (Returns a, s')
    | (Raise e, s') => (Raises (Evaluate e), s')
    end.

Definition of_result {St A : Type} (r : result A) : T St A := of_M (lift r).

(** [for x in xs: acc = body(acc, x)] *)
Fixpoint tfor_each {St A X : Type} (xs : list X) (body : A -> X -> T St A)
    (acc : A) : T St A :=
  match xs with
  | [] => tret acc
  | x :: t => acc' <-- body acc x ;; tfor_each t body acc'
  end.

(** [d.get(key)] and [d[key]] *)
Fixpoint dict_get {V : Type} (d : pydict V) (key : String.string) : option V :=
  match d with
  | [] => None
  | (k, v) :: t => if String.eqb k key then Some v else dict_get t key
  end.

Definition getitem {St V : Type} (d : pydict V) (key : String.string)
  : T St V :=
  match dict_get d key with
  | Some v => tret v
  | None => traise KeyError
  end.

(** [d.keys()] *)
Definition keys {V : Type} (d : pydict V) : list String.string := map fst d.

(** ** Further definitions: the trainer
    ([disvae/training.py]: [mean], [LossesLogger.log],
     [Trainer._train_iteration], [Trainer._train_epoch],
     [Trainer.__call__]) *)

(** [try: body except ValueError: handler] over [T]. *)
Definition ttry_except_ValueError {St A : Type} (body handler : T St A)
  : T St A :=
  fun s =>
    match body s with
    | (Raises (Evaluate ValueError), s') => handler s'
    | r => r
    end.

(** [assert c] *)
Definition py_assert {St : Type} (c : bool) : T St unit :=
  if c then tret tt else traise AssertionError.

(** [mean(l)]: [sum(l) / len(l)]. *)
Definition mean (l : list R) : outcome R :=
  match l with
  | [] => Raises ZeroDivisionError
  | _ :: _ => Returns (rsum l / INR (length l))%R
  end.

(** The parameters of [Evaluator.__init__] (evaluate.py, lines 54-58), and
    the keywords with which [Trainer.__call__] builds its evaluator
    (training.py, lines 105-106). *)
Definition Evaluator_init_params : list String.string :=
  ["model"; "loss_f"; "device"; "logger"; "save_dir"; "is_progress_bar";
   "use_wandb"]%string.

Definition train_evaluator_keywords : list String.string :=
  ["model"; "loss_f"; "device"; "dset_name"; "seed"; "higgins_drop_slow";
   "sample_size"; "dataset_size"; "no_shape_classifier"]%string.

(** A call by keywords: a keyword that names no parameter raises
    [TypeError]. *)
Definition call_with_keywords (params keywords : list String.string)
  : result unit :=
  if forallb (fun k => existsb (String.eqb k) params) keywords
  then Ok tt else Raise TypeError.

Section Trainer.

(** The outside of the trainer: the parameters of the model, the
    optimiser, the scheduler. *)
Variable St : Type.
Variable batch fwd loss : Type.

(** [str] of an integer and of a float. *)
Variable str_int : Z -> String.string.
Variable str_float : R -> String.string.

(** What the trainer can see and change: the mode of the model, the
    outside, the storer of the current epoch, the lines sent to the losses
    logger, the checkpoints written, and the modes in which the model was
    run. *)
Record trainer_world : Type := {
  t_training : bool;
  t_ext : St;
  t_storer : pydict (list R);
  t_lines : list String.string;
  t_saved : list String.string;
  t_runs : list bool
}.

(** [self.model(data)], which sees the mode; [self.loss_f(...)], which is
    given the mode and adds to the storer; the three calls on the
    optimiser; [self.loss_f.call_optimize]; [loss.item()]; the number of
    axes of a batch. *)
Variable model_forward : bool -> batch -> M St fwd.
Variable loss_f : batch -> fwd -> bool -> M (St * pydict (list R)) loss.
Variable optimizer_step : loss -> M St unit.
Variable loss_call_optimize : batch -> bool -> M (St * pydict (list R)) loss.
Variable item : loss -> R.
Variable ndim : batch -> nat.

(** The optional visualizer and scheduler, and [save_model]. *)
Variable gif_visualizer : option (M St unit).
Variable gif_save_reset : M St unit.
Variable scheduler : option (M St unit).
Variable save_model : bool -> M St unit.

Definition t_set_training (b : bool) : T trainer_world unit :=
  fun w => (Returns tt,
            {| t_training := b; t_ext := t_ext w; t_storer := t_storer w;
               t_lines := t_lines w; t_saved := t_saved w;
               t_runs := t_runs w |}).

Definition t_set_storer (d : pydict (list R)) : T trainer_world unit :=
  fun w => (Returns tt,
            {| t_training := t_training w; t_ext := t_ext w; t_storer := d;
               t_lines := t_lines w; t_saved := t_saved w;
               t_runs := t_runs w |}).

(** Outside code that does not touch the storer. *)
Definition t_outside {A : Type} (m : M St A) : T trainer_world A :=
  fun w =>
    let (r, e) := m (t_ext w) in
    (match r with Ok a => Returns a | Raise x => Raises (Evaluate x) end,
     {| t_training := t_training w; t_ext := e; t_storer := t_storer w;
        t_lines := t_lines w; t_saved := t_saved w; t_runs := t_runs w |}).

(** Outside code that is handed the storer. *)
Definition t_with_storer {A : Type} (m : M (St * pydict (list R)) A)
  : T trainer_world A :=
  fun w =>
    let (r, es) := m (t_ext w, t_storer w) in
    (match r with Ok a => Returns a | Raise x => Raises (Evaluate x) end,
     {| t_training := t_training w; t_ext := fst es; t_storer := snd es;
        t_lines := t_lines w; t_saved := t_saved w; t_runs := t_runs w |}).

(** A forward pass: the mode is seen, and noted. *)
Definition t_forward (data : batch) : T trainer_world fwd :=
  fun w =>
    let (r, e) := model_forward (t_training w) data (t_ext w) in
    (match r with Ok a => Returns a | Raise x => Raises (Evaluate x) end,
     {| t_training := t_training w; t_ext := e; t_storer := t_storer w;
        t_lines := t_lines w; t_saved := t_saved w;
        t_runs := t_runs w ++ [t_training w] |}).

Definition t_mode : T trainer_world bool :=
  fun w => (Returns (t_training w), w).

(** [Trainer._train_iteration] *)
Definition _train_iteration (data : batch) : T trainer_world R :=
  _ <-- of_result (if ndim data =? 4 then Ok tt else Raise ValueError) ;;
  l <-- ttry_except_ValueError
          (out <-- t_forward data ;;
           mode <-- t_mode ;;
           _ <-- py_assert mode ;;
           l <-- t_with_storer (loss_f data out mode) ;;
           _ <-- t_outside (optimizer_step l) ;;
           tret l)
          (mode <-- t_mode ;;
           t_with_storer (loss_call_optimize data mode)) ;;
  tret (item l).

(** The loop of [Trainer._train_epoch], from batch number [step] on. *)
Fixpoint train_epoch_loop (steps : option Z) (step : nat)
    (batches : list batch) (epoch_loss : R) : T trainer_world R :=
  match batches with
  | [] => tret epoch_loss
  | data :: rest =>
      if match steps with
         | Some s => (s <? Z.of_nat step)%Z
         | None => false
         end
      then tret epoch_loss
      else iter_loss <-- _train_iteration data ;;
           train_epoch_loop steps (S step) rest (epoch_loss + iter_loss)%R
  end.

(** [Trainer._train_epoch]: the mean is over the length of the loader. *)
Definition _train_epoch (steps : option Z) (data_loader : list batch)
  : T trainer_world R :=
  epoch_loss <-- train_epoch_loop steps 0 data_loader 0%R ;;
  if length data_loader =? 0 then traise ZeroDivisionError
  else tret (epoch_loss / INR (length data_loader))%R.

(** One line of the losses log. *)
Definition log_line (epoch : nat) (k : String.string) (m : R)
  : String.string :=
  String.concat "," [str_int (Z.of_nat epoch); k; str_float m].

(** [LossesLogger.log]: one line per entry of the storer. *)
Definition losses_log (epoch : nat) (losses_storer : pydict (list R))
  : T trainer_world unit :=
  tfor_each losses_storer
    (fun _ kv =>
       match mean (snd kv) with
       | Raises e => traise e
       | Returns m =>
           fun w =>
             (Returns tt,
              {| t_training := t_training w; t_ext := t_ext w;
                 t_storer := t_storer w;
                 t_lines := t_lines w ++ [log_line epoch (fst kv) m];
                 t_saved := t_saved w; t_runs := t_runs w |})
       end)
    tt.

(** ["model-{}.pt".format(epoch)] *)
Definition checkpoint_name (epoch : nat) : String.string :=
  String.append "model-" (String.append (str_int (Z.of_nat epoch)) ".pt").

Definition t_save_checkpoint (epoch : nat) : T trainer_world unit :=
  fun w =>
    let (r, e) := save_model (t_training w) (t_ext w) in
    match r with
    | Ok _ =>
        (Returns tt,
         {| t_training := t_training w; t_ext := e; t_storer := t_storer w;
            t_lines := t_lines w;
            t_saved := t_saved w ++ [checkpoint_name epoch];
            t_runs := t_runs w |})
    | Raise x =>
        (Raises (Evaluate x),
         {| t_training := t_training w; t_ext := e; t_storer := t_storer w;
            t_lines := t_lines w; t_saved := t_saved w;
            t_runs := t_runs w |})
    end.

Definition t_optional (m : option (M St unit)) : T trainer_world unit :=
  match m with
  | Some c => t_outside c
  | None => tret tt
  end.

(** One turn of the loop over the epochs, lines 109-135, without the
    tracking of lines 127-133, which is not reached. *)
Definition train_one_epoch (steps : option Z) (data_loader : list batch)
    (checkpoint_every : Z) (epoch : nat) : T trainer_world unit :=
  _ <-- t_set_storer [] ;;
  mode <-- t_mode ;;
  _ <-- py_assert mode ;;
  _ <-- _train_epoch steps data_loader ;;
  storer <-- (fun w => (Returns (t_storer w), w)) ;;
  _ <-- losses_log epoch storer ;;
  _ <-- t_optional gif_visualizer ;;
  _ <-- (if (checkpoint_every =? 0)%Z then traise ZeroDivisionError
         else if (Z.of_nat epoch mod checkpoint_every =? 0)%Z
              then t_save_checkpoint epoch else tret tt) ;;
  _ <-- t_optional scheduler ;;
  _ <-- t_set_training false ;;
  t_set_training true.

(** [Trainer.__call__]; with [wandb_log] the evaluator is built first, by
    keywords. *)
Definition Trainer_call (steps : option Z) (data_loader : list batch)
    (epochs : nat) (checkpoint_every : Z) (wandb_log : bool)
  : T trainer_world unit :=
  _ <-- t_set_training true ;;
  _ <-- (if wandb_log
         then of_result (call_with_keywords Evaluator_init_params
                           train_evaluator_keywords)
         else tret tt) ;;
  _ <-- tfor_each (seq 0 epochs)
          (fun _ epoch => train_one_epoch steps data_loader checkpoint_every
                            epoch)
          tt ;;
  _ <-- (match gif_visualizer with
         | Some _ => t_outside gif_save_reset
         | None => tret tt
         end) ;;
  t_set_training false.

End Trainer.

(** The entries of a storer before the first one without a value. *)
Fixpoint logged_entries (storer : pydict (list R)) : pydict (list R) :=
  match storer with
  | [] => []
  | (k, v) :: t =>
      match v with
      | [] => []
      | _ :: _ => (k, v) :: logged_entries t
      end
  end.

(** The batches that the step limit lets through. *)
Definition trained_batches {batch : Type} (steps : option Z)
    (data_loader : list batch) : list batch :=
  match steps with
  | Some s => firstn (Z.to_nat (s + 1)) data_loader
  | None => data_loader
  end.

(** From training mode, a computation stays in training mode, runs the
    model in that mode only, and raises no [AssertionError]. *)
Definition train_ok {St A : Type} (m : T (trainer_world St) A) : Prop :=
  forall w,
    t_training St w = true ->
    fst (m w) <> Raises AssertionError /\
    t_training St (snd (m w)) = true /\
    exists new, t_runs St (snd (m w)) = t_runs St w ++ new /\
                Forall (fun mode => mode = true) new.

(** The epochs, of the first [epochs], at which a checkpoint is due. *)
Definition checkpoint_epochs (checkpoint_every : Z) (epochs : nat)
  : list nat :=
  filter (fun epoch => (Z.of_nat epoch mod checkpoint_every =? 0)%Z)
         (seq 0 epochs).

(** A computation that saves the checkpoints [names], in order and at the
    end of those saved before, when it returns, and either these or none
    when it raises. *)
Definition saves {St A : Type} (names : list String.string)
    (m : T (trainer_world St) A) : Prop :=
  forall w,
    (t_saved St (snd (m w)) = t_saved St w ++ names \/
     t_saved St (snd (m w)) = t_saved St w) /\
    (forall a, fst (m w) = Returns a ->
       t_saved St (snd (m w)) = t_saved St w ++ names).

(** A computation that always raises, and saves no checkpoint. *)
Definition never_returns {St A : Type} (m : T (trainer_world St) A)
  : Prop :=
  forall w, (forall a, fst (m w) <> Returns a) /\
            t_saved St (snd (m w)) = t_saved St w.

(** ** Further definitions: the data of the classifier
    ([Evaluator._disentanglement_metric], lines 222-246) *)

(** A float64 that is not negative, as a mantissa and a power of two:
    [(m, e)] is [m * 2 ^ e].  [round53] rounds to the nearest number with
    53 significant bits, ties to the even mantissa.  There is no overflow
    here: the model is of the sizes below [2 ^ 1000]. *)
Definition round53 (m e : Z) : Z * Z :=
  let sh := (Z.log2 m + 1 - 53)%Z in
  if (sh <=? 0)%Z then (m, e)
  else
    let q := Z.shiftr m sh in
    let r := (m - Z.shiftl q sh)%Z in
    let half := Z.shiftl 1 (sh - 1) in
    let q' := if (half <? r)%Z || ((r =? half)%Z && Z.odd q)
              then (q + 1)%Z else q in
    (q', (e + sh)%Z).

(** [float(n)], the product of two floats, the literal [0.2] (which is
    [3602879701896397 / 2 ^ 54]) and [int(x)]. *)
Definition float_of_nat (n : nat) : Z * Z := round53 (Z.of_nat n) 0.

Definition float_mul (a b : Z * Z) : Z * Z :=
  round53 (fst a * fst b) (snd a + snd b).

Definition float_0_2 : Z * Z := (3602879701896397, -54)%Z.

Definition int_of_float (a : Z * Z) : Z :=
  if (0 <=? snd a)%Z then (fst a * 2 ^ snd a)%Z
  else (fst a / 2 ^ (- snd a))%Z.

(** [int(dataset_size*0.2)] *)
Definition test_turns (dataset_size : nat) : nat :=
  Z.to_nat (int_of_float (float_mul (float_of_nat dataset_size) float_0_2)).

(** A vector as a tensor with one axis, and [t.unsqueeze_(0)]. *)
Definition vector (v : list R) : tensor := {| shape := [length v]; data := v |}.

Definition unsqueeze0 (t : tensor) : tensor :=
  {| shape := 1 :: shape t; data := data t |}.

(** [torch.cat((a, b), 0)]: the shapes must agree after the first axis; a
    tensor of shape [(0,)] is left out. *)
Definition cat0 (a b : tensor) : result tensor :=
  match shape a, shape b with
  | [0], _ :: _ => Ok b
  | _ :: _, [0] => Ok a
  | n :: sa, m :: sb =>
      if list_eq_dec Nat.eq_dec sa sb
      then Ok {| shape := (n + m) :: sa; data := data a ++ data b |}
      else Raise RuntimeError
  | _, _ => Raise RuntimeError
  end.

(** The data of the classifier: for each method the records, one row
    each, and their labels. *)
Definition classifier_data : Type := pydict (tensor * list Z).

Section ClassifierData.

Variable rng : Type.
Variable randint : Z -> nat -> rng -> list Z * rng.
Variable image : Type.
Variable encoder_mean : list image -> list (list R).

(** What [_compute_z_b_diff_y] returns, as tensors: per method the vector
    [z_diff_b] and [torch.from_numpy(y)], which holds one label. *)
Definition records_of (res : list (String.string * (list R * Z)))
  : classifier_data :=
  map (fun e => (fst e, (vector (fst (snd e)), [snd (snd e)]))) res.

(** Lines 225-227: the first record of every method gets its axis of
    records. *)
Definition unsqueeze_first (methods : methods_dict image)
    (data_train data_test : classifier_data)
  : T rng (classifier_data * classifier_data) :=
  tfor_each (map fst methods)
    (fun acc method =>
       a <-- getitem (fst acc) method ;;
       let data_train := dict_set (fst acc) method (unsqueeze0 (fst a), snd a) in
       b <-- getitem (snd acc) method ;;
       let data_test := dict_set (snd acc) method (unsqueeze0 (fst b), snd b) in
       tret (data_train, data_test))
    (data_train, data_test).

(** Line 230: [next(iter(data_test.values()))[0].shape[1]]. *)
Definition first_latent_dim (data_test : classifier_data) : T rng nat :=
  match data_test with
  | [] => traise StopIteration
  | (_, (X, _)) :: _ =>
      match nth_error (shape X) 1 with
      | Some d => tret d
      | None => traise (Evaluate IndexError)
      end
  end.

(** Lines 235-238 and 243-246: one more record for every method. *)
Definition add_records (methods : methods_dict image)
    (data : classifier_data) (acc : classifier_data)
  : T rng classifier_data :=
  tfor_each (map fst methods)
    (fun acc method =>
       cur <-- getitem acc method ;;
       new <-- getitem data method ;;
       X <-- of_result (cat0 (fst cur) (unsqueeze0 (fst new))) ;;
       tret (dict_set acc method (X, snd cur ++ snd new)))
    acc.

(** Lines 222-246: the training and the test data, and the length of a
    record. *)
Definition classifier_records (methods : methods_dict image)
    (sample_size : nat) (lat_sizes : list Z) (imgs : list image)
    (dataset_size : nat)
  : T rng (classifier_data * classifier_data * nat) :=
  let draw := of_M (_compute_z_b_diff_y rng randint image encoder_mean
                      methods sample_size lat_sizes imgs) in
  data_train <-- draw ;;
  data_test <-- draw ;;
  first <-- unsqueeze_first methods (records_of data_train)
              (records_of data_test) ;;
  latent_dim <-- first_latent_dim (snd first) ;;
  data <-- tfor_each (seq 0 dataset_size)
             (fun acc i =>
                data <-- draw ;;
                data_train <-- add_records methods (records_of data)
                                 (fst acc) ;;
                if i <=? test_turns dataset_size then
                  data <-- draw ;;
                  data_test <-- add_records methods (records_of data)
                                  (snd acc) ;;
                  tret (data_train, data_test)
                else tret (data_train, snd acc))
             first ;;
  tret (fst data, snd data, latent_dim).

End ClassifierData.

(** ** Further definitions: the training of the classifier
    ([Evaluator._disentanglement_metric], lines 248-295) *)

(** [a == b] on two vectors of labels, which torch broadcasts when one of
    them has one entry. *)
Definition labels_eq (a b : list Z) : result (list bool) :=
  if length a =? length b then Ok (map2 Z.eqb a b)
  else match a, b with
       | [x], _ => Ok (map (Z.eqb x) b)
       | _, [y] => Ok (map (fun x => Z.eqb x y) a)
       | _, _ => Raise RuntimeError
       end.

(** [len(X)] of a tensor. *)
Definition tensor_len (X : tensor) : result nat :=
  match shape X with
  | [] => Raise TypeError
  | n :: _ => Ok n
  end.

(** [(prediction==Y).sum().float()/len(X)] *)
Definition accuracy (prediction Y : list Z) (X : tensor) : result fvalue :=
  hits <~ labels_eq prediction Y ;;
  n <~ tensor_len X ;;
  Ok (fdiv (Fin (INR (length (filter (fun h : bool => h) hits))))
           (Fin (INR n))).

Section ClassifierTraining.

(** The outside of the classifier: its weights and the optimiser. *)
Variable St : Type.
Variable scores loss : Type.

(** [Classifier(latent_dim, hidden_dim, n_factors, use_non_linear)]; the
    optimiser on its parameters; [model(X)], which sees the mode;
    [optim.zero_grad()]; [criterion(scores, Y)]; [loss.backward()];
    [optim.step()]; [scores.max(1)[1]]; [model.apply(weight_reset)]. *)
Variable make_classifier : nat -> nat -> nat -> bool -> M St unit.
Variable make_optimizer : M St unit.
Variable classifier_forward : bool -> tensor -> M St scores.
Variable zero_grad : M St unit.
Variable criterion : scores -> list Z -> result loss.
Variable backward : loss -> M St unit.
Variable optim_step : M St unit.
Variable argmax1 : scores -> result (list Z).
Variable weight_reset : M St unit.

(** The mode of the classifier, its outside, and the modes in which it
    was run. *)
Record classifier_world : Type := {
  c_training : bool;
  c_ext : St;
  c_runs : list bool
}.

Definition c_set_training (b : bool) : T classifier_world unit :=
  fun w => (Returns tt,
            {| c_training := b; c_ext := c_ext w; c_runs := c_runs w |}).

Definition c_outside {A : Type} (m : M St A) : T classifier_world A :=
  fun w =>
    let (r, e) := m (c_ext w) in
    (match r with Ok a => Returns a | Raise x => Raises (Evaluate x) end,
     {| c_training := c_training w; c_ext := e; c_runs := c_runs w |}).

Definition c_forward (X : tensor) : T classifier_world scores :=
  fun w =>
    let (r, e) := classifier_forward (c_training w) X (c_ext w) in
    (match r with Ok a => Returns a | Raise x => Raises (Evaluate x) end,
     {| c_training := c_training w; c_ext := e;
        c_runs := c_runs w ++ [c_training w] |}).

(** The locals [X_train, Y_train] and [X_test, Y_test], bound or not. *)
Definition fit_locals : Type :=
  (option (tensor * list Z) * option (tensor * list Z))%type.

(** One epoch of the fit of one method, lines 266-282. *)
Definition fit_epoch (data_train data_test : classifier_data)
    (method : String.string) (e : nat) : T classifier_world fit_locals :=
  _ <-- c_outside zero_grad ;;
  train <-- getitem data_train method ;;
  test <-- getitem data_test method ;;
  scores_train <-- c_forward (fst train) ;;
  l <-- of_result (criterion scores_train (snd train)) ;;
  _ <-- c_outside (backward l) ;;
  _ <-- c_outside optim_step ;;
  _ <-- (if (e + 1) mod 10 =? 0 then
           scores_test <-- c_forward (fst test) ;;
           _ <-- of_result (criterion scores_test (snd test)) ;;
           tret tt
         else tret tt) ;;
  tret (Some train, Some test).

(** The accuracies of one method, lines 284-293. *)
Definition score_method (test_acc : pydict fvalue) (method : String.string)
    (locals : fit_locals) : T classifier_world (pydict fvalue) :=
  train <-- of_result (lookup (fst locals)) ;;
  scores_train <-- c_forward (fst train) ;;
  test <-- of_result (lookup (snd locals)) ;;
  scores_test <-- c_forward (fst test) ;;
  prediction_train <-- of_result (argmax1 scores_train) ;;
  prediction_test <-- of_result (argmax1 scores_test) ;;
  _ <-- of_result (accuracy prediction_train (snd train) (fst train)) ;;
  acc <-- of_result (accuracy prediction_test (snd test) (fst test)) ;;
  _ <-- c_outside weight_reset ;;
  tret (dict_set test_acc method acc).

(** One turn of the loop over the methods, lines 264-293. *)
Definition fit_method (data_train data_test : classifier_data)
    (n_epochs : nat) (acc : fit_locals * pydict fvalue)
    (method : String.string)
  : T classifier_world (fit_locals * pydict fvalue) :=
  locals <-- tfor_each (seq 0 n_epochs)
               (fun _ e => fit_epoch data_train data_test method e)
               (fst acc) ;;
  _ <-- c_set_training false ;;
  test_acc <-- score_method (snd acc) method locals ;;
  tret (locals, test_acc).

(** Lines 248-295.  [locals] are [X_train, Y_train] and [X_test, Y_test]
    as lines 226-227 and 234-235 left them. *)
Definition fit_classifiers (data_train data_test : classifier_data)
    (method_names : list String.string) (latent_dim hidden_dim : nat)
    (n_factors : nat) (use_non_linear : bool) (n_epochs : nat)
    (locals : fit_locals)
  : T classifier_world (pydict fvalue) :=
  _ <-- c_outside (make_classifier latent_dim hidden_dim n_factors
                     use_non_linear) ;;
  _ <-- c_set_training true ;;
  _ <-- c_outside make_optimizer ;;
  r <-- tfor_each method_names (fit_method data_train data_test n_epochs)
          (locals, []) ;;
  tret (snd r).

End ClassifierTraining.

(** A computation that leaves the mode of the classifier as it is and
    runs the classifier [n] times when it returns, and at most [n] times
    when it raises. *)
Definition passes {St A : Type} (n : nat) (c : T (classifier_world St) A)
  : Prop :=
  forall w,
    c_training St (snd (c w)) = c_training St w /\
    exists j,
      j <= n /\
      c_runs St (snd (c w)) = c_runs St w ++ repeat (c_training St w) j /\
      (forall a, fst (c w) = Returns a -> j = n).

(** The number of runs of the classifier in epoch [e] of a fit. *)
Definition epoch_runs (e : nat) : nat :=
  1 + (if (e + 1) mod 10 =? 0 then 1 else 0).

(** Records of [n] rows of [d] entries with one label each, the labels
    being numbers of factors. *)
Definition records_shape (n d factors : nat) (xy : tensor * list Z) : Prop :=
  shape (fst xy) = [n; d] /\ length (data (fst xy)) = n * d /\
  length (snd xy) = n /\
  Forall (fun y => (0 <= y < Z.of_nat factors)%Z) (snd xy).

(** ** Further definitions: the table of the posteriors
    ([Evaluator._compute_q_zCx]) *)

(** [torch.zeros(n, d)] *)
Definition zeros (n d : nat) : tensor :=
  {| shape := [n; d]; data := repeat 0%R (n * d) |}.

Section PosteriorTable.

Variable St : Type.
Variable batch : Type.

(** [x.size(0)]; [self.model.encoder(x)], which sees the mode and returns
    the means and the log-variances of a batch; [self.model.reparameterize];
    and the assignment [t[lo:hi, :] = value] of torch. *)
Variable size0 : batch -> nat.
Variable encoder : bool -> batch -> M St (tensor * tensor).
Variable reparameterize : bool -> tensor -> tensor -> M St tensor.
Variable setitem_rows : tensor -> nat -> nat -> tensor -> result tensor.

(** [q_zCx] is kept as its two slices along the last axis, which are what
    [q_zCx.unbind(-1)] returns in the end; [len_dataset] is
    [len(dataloader.dataset)].  First one turn of the loop over the
    loader, from [n] examples seen. *)
Definition fill_q_zCx (mode : bool) (acc : nat * (tensor * tensor))
    (x : batch) : M St (nat * (tensor * tensor)) :=
  let '(n, (q0, q1)) := acc in
  let batch_size := size0 x in
  out <- encoder mode x ;;
  q0 <- lift (setitem_rows q0 n (n + batch_size) (fst out)) ;;
  q1 <- lift (setitem_rows q1 n (n + batch_size) (snd out)) ;;
  ret (n + batch_size, (q0, q1)).

Definition _compute_q_zCx (len_dataset latent_dim : nat) (mode : bool)
    (dataloader : list batch) : M St (tensor * (tensor * tensor)) :=
  filled <- for_each dataloader (fill_q_zCx mode)
              (0, (zeros len_dataset latent_dim,
                   zeros len_dataset latent_dim)) ;;
  let params_zCX := snd filled in
  samples_zCx <- reparameterize mode (fst params_zCX) (snd params_zCX) ;;
  ret (samples_zCx, params_zCX).

End PosteriorTable.

(** The table of [n] rows whose first rows hold [filled] and whose other
    rows are zero. *)
Definition rows_then_zeros (n d : nat) (filled : list R) : tensor :=
  {| shape := [n; d];
     data := filled ++ repeat 0%R (n * d - length filled) |}.

(** The number of examples that a loader yields. *)
Definition loader_rows {batch : Type} (size0 : batch -> nat)
    (dataloader : list batch) : nat :=
  list_sum (map size0 dataloader).

(** ** Further definitions: the samples of every class
    ([utils/miroslav.py]: [latent_viz]) *)

(** [buckets[k].append(x)] *)
Fixpoint append_at {A : Type} (buckets : list (list A)) (k : nat) (x : A)
  : list (list A) :=
  match buckets, k with
  | [], _ => []
  | b :: t, O => (b ++ [x]) :: t
  | b :: t, S k' => b :: append_at t k' x
  end.

(** [buckets[i].append(x)] with [i] an integer of Python: a negative one
    counts from the end, and one out of range raises. *)
Definition bucket_append {A : Type} (buckets : list (list A)) (i : Z) (x : A)
  : result (list (list A)) :=
  let n := Z.of_nat (length buckets) in
  let j := if (i <? 0)%Z then (i + n)%Z else i in
  if ((0 <=? j) && (j <? n))%Z
  then Ok (append_at buckets (Z.to_nat j) x)
  else Raise IndexError.

(** [t[idx]] on the first axis, for an index of [range]. *)
Definition item_at {A : Type} (t : list A) (idx : nat) : result A :=
  match nth_error t idx with
  | Some x => Ok x
  | None => Raise IndexError
  end.

(** The argument [method]: a string or a list of strings. *)
Inductive viz_method : Type :=
| MethodName (name : String.string)
| MethodNames (names : list String.string).

(** Lines 71-74. *)
Definition viz_methods (method : viz_method) : list String.string :=
  match method with
  | MethodName name =>
      if String.eqb name "all" then ["tsne"; "densumap"]%string else [name]
  | MethodNames names => names
  end.

Section LatentViz.

(** The outside of [latent_viz]: the parameters of the model and the
    generators.  [image] is one example of a batch, [vec] one row of an
    output of the encoder. *)
Variable St : Type.
Variable image vec embedding plot reducer : Type.

(** [model.encoder(x)] and [model.reparameterize], which see the mode;
    [manifold.TSNE(n_components=2, random_state=seed)] with its
    [fit_transform] on the chained samples; the arrays of the classes,
    their concatenation and [umap.UMAP(random_state=seed, densmap=True)]
    with its [fit] and [embedding_]; [graph_latent_samples]. *)
Variable encoder : bool -> list image -> M St (list vec * list vec).
Variable reparameterize : bool -> list vec -> list vec -> M St (list vec).
Variable tsne_fit_transform : Z -> list vec -> M St (reducer * embedding).
Variable densumap_fit : Z -> list (list vec) -> M St (reducer * embedding).
Variable graph_latent_samples : embedding -> list (list nat) -> M St plot.

(** The mode of the model, the outside, and the modes in which the model
    was run. *)
Record viz_world : Type := {
  v_training : bool;
  v_ext : St;
  v_runs : list bool
}.

Definition v_set_training (b : bool) : T viz_world unit :=
  fun w => (Returns tt,
            {| v_training := b; v_ext := v_ext w; v_runs := v_runs w |}).

Definition v_outside {A : Type} (m : M St A) : T viz_world A :=
  fun w =>
    let (r, e) := m (v_ext w) in
    (match r with Ok a => Returns a | Raise x => Raises (Evaluate x) end,
     {| v_training := v_training w; v_ext := e; v_runs := v_runs w |}).

(** A run of the encoder: the mode is seen, and noted. *)
Definition v_encode (x : list image) : T viz_world (list vec * list vec) :=
  fun w =>
    let (r, e) := encoder (v_training w) x (v_ext w) in
    (match r with Ok a => Returns a | Raise x => Raises (Evaluate x) end,
     {| v_training := v_training w; v_ext := e;
        v_runs := v_runs w ++ [v_training w] |}).

Definition v_reparameterize (mean logvar : list vec)
  : T viz_world (list vec) :=
  fun w =>
    let (r, e) := reparameterize (v_training w) mean logvar (v_ext w) in
    (match r with Ok a => Returns a | Raise x => Raises (Evaluate x) end,
     {| v_training := v_training w; v_ext := e; v_runs := v_runs w |}).

(** The four lists of lists of lines 76-79. *)
Record viz_buckets : Type := {
  class_samples : list (list image);
  post_means : list (list vec);
  post_logvars : list (list vec);
  post_samples : list (list vec)
}.

(** Lines 89-93: the example at [idx] of a batch goes to the slot of its
    label. *)
Definition bucket_item (x : list image) (y : list Z)
    (post_mean post_logvar samples : list vec) (b : viz_buckets) (idx : nat)
  : result viz_buckets :=
  proper_slot <~ item_at y idx ;;
  im <~ item_at x idx ;;
  cs <~ bucket_append (class_samples b) proper_slot im ;;
  m <~ item_at post_mean idx ;;
  pm <~ bucket_append (post_means b) proper_slot m ;;
  lv <~ item_at post_logvar idx ;;
  pl <~ bucket_append (post_logvars b) proper_slot lv ;;
  smp <~ item_at samples idx ;;
  ps <~ bucket_append (post_samples b) proper_slot smp ;;
  Ok {| class_samples := cs; post_means := pm; post_logvars := pl;
        post_samples := ps |}.

Fixpoint bucket_items (x : list image) (y : list Z)
    (post_mean post_logvar samples : list vec) (idcs : list nat)
    (b : viz_buckets) : result viz_buckets :=
  match idcs with
  | [] => Ok b
  | idx :: rest =>
      b' <~ bucket_item x y post_mean post_logvar samples b idx ;;
      bucket_items x y post_mean post_logvar samples rest b'
  end.

(** Lines 83-93: the loop over the loader, from batch number [step] on;
    the test of [steps] comes after the run of the encoder. *)
Fixpoint viz_loop (steps : Z) (step : nat)
    (loader : list (list image * list Z)) (b : viz_buckets)
  : T viz_world viz_buckets :=
  match loader with
  | [] => tret b
  | (x, y) :: rest =>
      out <-- v_encode x ;;
      samples <-- v_reparameterize (fst out) (snd out) ;;
      if (steps <? Z.of_nat step)%Z then tret b
      else
        b' <-- of_result (bucket_items x y (fst out) (snd out) samples
                            (seq 0 (length y)) b) ;;
        viz_loop steps (S step) rest b'
  end.

(** The locals [dim_reduction_model] and [dim_reduction_samples], the plots
    and the models of lines 96-111. *)
Record viz_locals : Type := {
  dim_reduction : option (reducer * embedding);
  plots : pydict plot;
  dim_reduction_models : pydict reducer
}.

(** One turn of the loop over the methods, lines 99-111. *)
Definition viz_one (seed : Z) (b : viz_buckets) (true_labels : list (list nat))
    (l : viz_locals) (viz : String.string) : T viz_world viz_locals :=
  fitted <-- (if String.eqb viz "tsne"
              then r <-- v_outside (tsne_fit_transform seed
                                      (concat (post_samples b))) ;;
                   tret (Some r)
              else if String.eqb viz "densumap"
              then r <-- v_outside (densumap_fit seed (post_samples b)) ;;
                   tret (Some r)
              else tret (dim_reduction l)) ;;
  cur <-- of_result (lookup fitted) ;;
  p <-- v_outside (graph_latent_samples (snd cur) true_labels) ;;
  tret {| dim_reduction := fitted;
          plots := dict_set (plots l) viz p;
          dim_reduction_models :=
            dict_set (dim_reduction_models l) viz (fst cur) |}.

(** What [latent_viz] returns: the plots, the entries of [all_data] and the
    models. *)
Record viz_result : Type := {
  r_plots : pydict plot;
  r_buckets : viz_buckets;
  r_labels : list (list nat);
  r_dim_reduction_samples : embedding;
  r_models : pydict reducer
}.

(** [latent_viz]; the number of classes is bound for three datasets
    only. *)
Definition latent_viz (loader : list (list image * list Z))
    (dataset : String.string) (steps : Z) (method : viz_method) (seed : Z)
  : T viz_world viz_result :=
  let n_classes :=
    if existsb (String.eqb dataset) ["mnist"; "fashion"; "cifar10"]%string
    then Some 10 else None in
  let method := viz_methods method in
  n <-- of_result (lookup n_classes) ;;
  let empty := {| class_samples := repeat [] n; post_means := repeat [] n;
                  post_logvars := repeat [] n; post_samples := repeat [] n |} in
  _ <-- v_set_training false ;;
  b <-- viz_loop steps 0 loader empty ;;
  let true_labels :=
    map (fun c => repeat c (length (nth c (class_samples b) [])))
        (seq 0 (length (class_samples b))) in
  l <-- tfor_each method (viz_one seed b true_labels)
          {| dim_reduction := None; plots := [];
             dim_reduction_models := [] |} ;;
  _ <-- v_set_training true ;;
  cur <-- of_result (lookup (dim_reduction l)) ;;
  tret {| r_plots := plots l; r_buckets := b; r_labels := true_labels;
          r_dim_reduction_samples := snd cur;
          r_models := dim_reduction_models l |}.

End LatentViz.

(** The examples of a loader that are sorted into the classes: those of
    the first [steps + 1] batches, each with its label. *)
Definition sorted_examples {image : Type} (steps : Z)
    (loader : list (list image * list Z)) : list (image * Z) :=
  concat (map (fun batch => combine (fst batch) (snd batch))
              (firstn (Z.to_nat (steps + 1)) loader)).

(** The label [y] names class [c] of [n]. *)
Definition names_class (n c : nat) (y : Z) : bool :=
  ((y =? Z.of_nat c) || (y =? Z.of_nat c - Z.of_nat n))%Z.

(** ** Further definitions: scores *)

(** A value that is a number at least zero, plus infinity or
    not-a-number. *)
Definition not_below_zero (v : fvalue) : Prop :=
  match v with
  | Fin x => (0 <= x)%R
  | PInf | NaN => True
  | NInf => False
  end.

(** The list [l] read at the positions [p]. *)
Definition permute {A : Type} (d : A) (p : list nat) (l : list A) : list A :=
  map (fun i => nth i l d) p.

(** ** Small inputs *)

(** A generator whose permutations are the identity. *)
Definition sorted_randperm (n : nat) (g : unit) : list nat * unit := (seq 0 n, g).

(** Two factors of cardinalities 2 and 3, one latent dimension. *)
Definition grid_2_3 : tensor :=
  {| shape := [2; 3; 1]; data := [0; 1; 2; 3; 4; 5]%R |}.

(** A generator that always draws zero, and one that always draws the
    largest value. *)
Definition zero_randint (high : Z) (size : nat) (g : unit) : list Z * unit :=
  (repeat 0%Z size, g).

Definition max_randint (high : Z) (size : nat) (g : unit) : list Z * unit :=
  (repeat (high - 1)%Z size, g).

(** A generator that counts: its draws are the next numbers, reduced below
    [high]. *)
Definition counting_randint (high : Z) (size : nat) (g : Z) : list Z * Z :=
  (map (fun i => ((g + Z.of_nat i) mod high)%Z) (seq 0 size),
   (g + Z.of_nat size)%Z).

(** An encoder with one latent dimension on images that are numbers. *)
Definition number_encoder (b : list nat) : list (list R) :=
  map (fun im => [INR im]) b.

(** [str] of an integer: its decimal digits. *)
Definition str_of_Z (z : Z) : String.string :=
  DecimalString.NilZero.string_of_int (Z.to_int z).

(** A trainer whose batches are numbers, whose model and optimiser do
    nothing and whose loss is always one, without visualizer and
    scheduler; and a world in which nothing has happened. *)
Definition small_trainer (steps : option Z) (data_loader : list nat)
    (epochs : nat) (checkpoint_every : Z) (wandb_log : bool)
  : T (trainer_world unit) unit :=
  Trainer_call unit nat unit R str_of_Z (fun _ => "1.0"%string)
    (fun _ _ => ret tt) (fun _ _ _ => ret 1%R) (fun _ => ret tt)
    (fun _ _ => ret 1%R) (fun l => l) (fun _ => 4) None (ret tt) None
    (fun _ => ret tt) steps data_loader epochs checkpoint_every wandb_log.

Definition new_world : trainer_world unit :=
  {| t_training := false; t_ext := tt; t_storer := []; t_lines := [];
     t_saved := []; t_runs := [] |}.

(** An encoder on batches of numbers, with one latent dimension and
    without state; and an assignment to a range of rows that checks
    nothing. *)
Definition number_posterior (mode : bool) (x : list nat)
  : M unit (tensor * tensor) :=
  ret ({| shape := [length x; 1]; data := map INR x |},
       {| shape := [length x; 1]; data := map (fun _ => 0%R) x |}).

Definition assign_rows (d : nat) (t : tensor) (lo hi : nat) (value : tensor)
  : result tensor :=
  Ok {| shape := shape t;
        data := firstn (lo * d) (data t) ++ data value
                ++ skipn (hi * d) (data t) |}.

(** Two batches of numbers with their labels, and what [latent_viz]
    returns on them with [steps = 0] when the encoder hands back its
    batch and the plots and models are trivial. *)
Definition two_batches : list (list nat * list Z) :=
  [([7; 8], [3; -1]%Z); ([9], [3]%Z)].

Definition first_batch_sorted : list (list nat) :=
  [[]; []; []; [7]; []; []; []; []; []; [8]].

Definition viz_of_first_batch : viz_result nat nat unit unit unit :=
  {| r_plots := [("tsne"%string, tt)];
     r_buckets := {| class_samples := first_batch_sorted;
                     post_means := first_batch_sorted;
                     post_logvars := first_batch_sorted;
                     post_samples := first_batch_sorted |};
     r_labels := [[]; []; []; [3]; []; []; []; []; []; [9]];
     r_dim_reduction_samples := tt;
     r_models := [("tsne"%string, tt)] |}.

(** Modelled from the spec: the closed-form log-density at [x] of a
    Gaussian with mean [mu] and log-variance [logvar] (section 4.2);
    [disvae.utils.math.log_density_gaussian] is not among the sources. *)
Definition gaussian_log_density (x mu logvar : R) : R :=
  (- / 2 * (ln (2 * PI) + logvar)
   - / 2 * ((x - mu) * (x - mu) * exp (- logvar)))%R.

(** Three examples with two latent dimensions: their samples, and the
    statistics (means and log-variances alike) of posteriors that are all
    standard normal. *)
Definition three_samples : tensor :=
  {| shape := [3; 2]; data := [1; 10; 2; 20; 3; 30]%R |}.

Definition standard_posteriors : tensor :=
  {| shape := [3; 2]; data := [0; 0; 0; 0; 0; 0]%R |}.

(** Three examples with one latent dimension. *)
Definition three_numbers : tensor :=
  {| shape := [3; 1]; data := [1; 2; 3]%R |}.

(** * Proofs *)

Section MixedRadixFacts.
Open Scope Z_scope.

Lemma int64_wrap_small x : - 2 ^ 63 <= x < 2 ^ 63 -> Numpy.int64_wrap x = x.
Proof.
  intros H. unfold Numpy.int64_wrap.
  rewrite Z.mod_small; lia.
Qed.

Lemma dataset_len_pos l : Forall (fun s => 0 < s) l -> 0 < dataset_len l.
Proof.
  induction 1 as [|x t Hx Ht IH]; simpl; [lia | nia].
Qed.

Lemma dataset_len_app l1 l2 :
  dataset_len (l1 ++ l2) = dataset_len l1 * dataset_len l2.
Proof.
  induction l1 as [|x t IH]; simpl.
  - destruct (dataset_len l2); reflexivity.
  - rewrite IH. ring.
Qed.

(** Running products in unbounded arithmetic. *)
Lemma cumprod_from_exact acc l :
  0 < acc -> Forall (fun s => 0 < s) l -> acc * dataset_len l < 2 ^ 63 ->
  Numpy.cumprod_from acc l =
  map (fun p => acc * p) (rev (suffix_products (rev l))).
Proof.
  intros Hacc Hl. revert acc Hacc.
  induction Hl as [|x t Hx Ht IH]; intros acc Hacc Hb; [reflexivity|].
  pose proof (dataset_len_pos t Ht) as Hp.
  cbn [Numpy.cumprod_from]. cbv zeta.
  rewrite int64_wrap_small by (simpl in Hb; nia).
  rewrite IH by (simpl in Hb; nia).
  clear IH Hb. cbn [rev].
  assert (E : forall l1 a,
    rev (suffix_products (l1 ++ [a])) =
    a :: map (fun p => a * p) (rev (suffix_products l1))).
  { clear. induction l1 as [|y l1 IH]; intros a.
    - simpl. f_equal. ring.
    - cbn [app suffix_products rev]. rewrite IH.
      rewrite map_app. cbn [map app]. f_equal. f_equal. f_equal.
      change (dataset_len (y :: l1 ++ [a])) with (y * dataset_len (l1 ++ [a])).
      rewrite dataset_len_app. simpl. ring. }
  rewrite E. cbn [map]. f_equal.
  rewrite map_map. apply map_ext. intros p. ring.
Qed.

Lemma dataset_len_rev l : dataset_len (rev l) = dataset_len l.
Proof.
  induction l as [|x t IH]; [reflexivity|].
  cbn [rev]. rewrite dataset_len_app, IH. simpl. ring.
Qed.

Lemma suffix_tail_products x t :
  tl (suffix_products (x :: t)) ++ [1] = tail_products (x :: t).
Proof.
  revert x. induction t as [|y t IH]; intros x; [reflexivity|].
  specialize (IH y). cbn [suffix_products tl] in *.
  cbn [tail_products app]. f_equal. exact IH.
Qed.

(** Below [2 ^ 63] the [int64] bases are the exact products. *)
Lemma latents_bases_exact l :
  l <> [] -> Forall (fun s => 0 < s) l -> dataset_len l < 2 ^ 63 ->
  latents_bases l = tail_products l.
Proof.
  intros Hne Hl Hb. unfold latents_bases, Numpy.cumprod.
  rewrite cumprod_from_exact.
  - rewrite rev_involutive, map_ext with (g := fun p => p) by (intros; ring).
    rewrite map_id, rev_involutive.
    destruct l as [|x t]; [congruence|]. apply suffix_tail_products.
  - lia.
  - apply Forall_rev. exact Hl.
  - rewrite dataset_len_rev. lia.
Qed.

Lemma length_tail_products l : length (tail_products l) = length l.
Proof. induction l; simpl; congruence. Qed.

Lemma dot_aux_range sizes v :
  valid_factors sizes v ->
  0 <= Numpy.dot_aux v (tail_products sizes) < dataset_len sizes.
Proof.
  unfold valid_factors. induction 1 as [|x s vs t Hx Hvs IH]; simpl; [lia|].
  nia.
Qed.

(** Decoding only looks at the index modulo the dataset length. *)
Lemma decode_with_shift sizes :
  Forall (fun s => 0 < s) sizes ->
  forall idx k,
    decode_with (tail_products sizes) sizes (idx + k * dataset_len sizes) =
    decode_with (tail_products sizes) sizes idx.
Proof.
  induction 1 as [|s t Hs Ht IH]; intros idx k; [reflexivity|].
  pose proof (dataset_len_pos t Ht) as Hp.
  cbn [tail_products decode_with]. f_equal.
  - change (dataset_len (s :: t)) with (s * dataset_len t).
    replace (idx + k * (s * dataset_len t))
      with (idx + (k * s) * dataset_len t) by ring.
    rewrite Z.div_add by lia. apply Z.mod_add. lia.
  - change (dataset_len (s :: t)) with (s * dataset_len t).
    replace (idx + k * (s * dataset_len t))
      with (idx + (k * s) * dataset_len t) by ring.
    apply IH.
Qed.

Lemma decode_encode_exact sizes v :
  valid_factors sizes v ->
  decode_with (tail_products sizes) sizes
    (Numpy.dot_aux v (tail_products sizes)) = v.
Proof.
  intros Hv. pose proof Hv as Hv'. unfold valid_factors in Hv.
  induction Hv as [|x s vs t Hx Hvs IH]; [reflexivity|].
  assert (Ht : Forall (fun s => 0 < s) t).
  { clear - Hvs. induction Hvs; constructor; [lia | assumption]. }
  pose proof (dot_aux_range t vs Hvs) as Hr.
  cbn [tail_products Numpy.dot_aux decode_with]. f_equal.
  - rewrite Z.add_comm, Z.div_add by lia.
    rewrite Z.div_small by lia. apply Z.mod_small. lia.
  - rewrite Z.add_comm, decode_with_shift by exact Ht.
    apply IH. exact Hvs.
Qed.

Lemma decode_valid sizes idx :
  Forall (fun s => 0 < s) sizes ->
  valid_factors sizes (decode_with (tail_products sizes) sizes idx).
Proof.
  unfold valid_factors.
  induction 1 as [|s t Hs Ht IH]; cbn [tail_products decode_with];
    constructor; [apply Z.mod_pos_bound; lia | exact IH].
Qed.

Lemma encode_decode_exact sizes :
  Forall (fun s => 0 < s) sizes ->
  forall idx,
    Numpy.dot_aux (decode_with (tail_products sizes) sizes idx)
      (tail_products sizes) = idx mod dataset_len sizes.
Proof.
  induction 1 as [|s t Hs Ht IH]; intros idx.
  - simpl. symmetry. apply Z.mod_1_r.
  - pose proof (dataset_len_pos t Ht) as Hp.
    cbn [tail_products decode_with Numpy.dot_aux]. rewrite IH.
    change (dataset_len (s :: t)) with (s * dataset_len t).
    rewrite (Z.mul_comm s), Z.rem_mul_r by lia. ring.
Qed.

Lemma valid_factors_pos sizes v :
  valid_factors sizes v -> Forall (fun s => 0 < s) sizes.
Proof.
  unfold valid_factors. induction 1; constructor; [lia | assumption].
Qed.

Lemma dataset_len_pos_inv sizes :
  Forall (fun s => 0 <= s) sizes -> 0 < dataset_len sizes ->
  Forall (fun s => 0 < s) sizes.
Proof.
  induction 1 as [|s t Hs Ht IH]; intros Hp; constructor.
  - simpl in Hp. destruct (Z.eq_dec s 0) as [->|]; lia.
  - apply IH. simpl in Hp.
    assert (0 <= dataset_len t).
    { clear - Ht. induction Ht; simpl; [lia | nia]. }
    nia.
Qed.

(** C3.  For a non-empty sequence of cardinalities whose product is at
    most [2 ^ 53] (the range on which the float64 dot product is exact),
    the index computed by the paired-sample builder is a bijection between
    the tuples of factor values and [[0, N)], [N] the product of the
    cardinalities: every valid tuple is sent below [N] and recovered by
    per-factor division and modulo, and every index below [N] decodes to a
    valid tuple that is sent back to it. *)
Theorem mixed_radix_bijection (lat_sizes : list Z) :
  lat_sizes <> [] ->
  Forall (fun s => 0 <= s) lat_sizes ->
  dataset_len lat_sizes <= 2 ^ 53 ->
  (forall v, valid_factors lat_sizes v ->
     exists idx, latent_index lat_sizes v = Ok idx /\
                 0 <= idx < dataset_len lat_sizes /\
                 decode_index lat_sizes idx = v) /\
  (forall idx, 0 <= idx < dataset_len lat_sizes ->
     valid_factors lat_sizes (decode_index lat_sizes idx) /\
     latent_index lat_sizes (decode_index lat_sizes idx) = Ok idx).
Proof.
  intros Hne Hnn Hb. split.
  - intros v Hv.
    pose proof (valid_factors_pos _ _ Hv) as Hpos.
    assert (E : latents_bases lat_sizes = tail_products lat_sizes)
      by (apply latents_bases_exact; [assumption .. | lia]).
    exists (Numpy.dot_aux v (tail_products lat_sizes)).
    unfold latent_index, decode_index, Numpy.dot. rewrite E.
    rewrite length_tail_products.
    rewrite (Forall2_length Hv), Nat.eqb_refl.
    split; [reflexivity|]. split.
    + apply dot_aux_range. exact Hv.
    + apply decode_encode_exact. exact Hv.
  - intros idx Hidx.
    assert (Hpos : Forall (fun s => 0 < s) lat_sizes)
      by (apply dataset_len_pos_inv; [assumption | lia]).
    assert (E : latents_bases lat_sizes = tail_products lat_sizes)
      by (apply latents_bases_exact; [assumption .. | lia]).
    unfold latent_index, decode_index, Numpy.dot. rewrite E.
    pose proof (decode_valid lat_sizes idx Hpos) as Hv.
    split; [exact Hv|].
    rewrite length_tail_products.
    rewrite (Forall2_length Hv), Nat.eqb_refl.
    rewrite encode_decode_exact by exact Hpos.
    rewrite Z.mod_small by lia. reflexivity.
Qed.

(** The bijection at the cardinalities of dSprites. *)
Lemma mixed_radix_bijection_witness :
  (forall v, valid_factors [3; 6; 40; 32; 32] v ->
     exists idx, latent_index [3; 6; 40; 32; 32] v = Ok idx /\
                 0 <= idx < dataset_len [3; 6; 40; 32; 32] /\
                 decode_index [3; 6; 40; 32; 32] idx = v) /\
  (forall idx, 0 <= idx < dataset_len [3; 6; 40; 32; 32] ->
     valid_factors [3; 6; 40; 32; 32] (decode_index [3; 6; 40; 32; 32] idx) /\
     latent_index [3; 6; 40; 32; 32] (decode_index [3; 6; 40; 32; 32] idx)
       = Ok idx).
Proof.
  apply (mixed_radix_bijection [3; 6; 40; 32; 32]).
  - discriminate.
  - repeat constructor; lia.
  - vm_compute. discriminate.
Defined.

Example latents_bases_dsprites :
  latents_bases [3; 6; 40; 32; 32] = [245760; 40960; 1024; 32; 1].
Proof. vm_compute. reflexivity. Qed.

Example latent_index_dsprites :
  latent_index [3; 6; 40; 32; 32] [2; 5; 39; 31; 31] = Ok 737279.
Proof. vm_compute. reflexivity. Qed.

End MixedRadixFacts.

(** ** Minibatches of the marginal-entropy estimator *)

Section MinibatchFacts.
Open Scope R_scope.

Variable rng : Type.
Variable randperm : nat -> rng -> list nat * rng.
Variable log_density_gaussian : R -> R -> R -> R.

Lemma rsum_app l1 l2 : rsum (l1 ++ l2) = rsum l1 + rsum l2.
Proof.
  induction l1 as [|x t IH]; simpl; [ring | rewrite IH; ring].
Qed.

Lemma vadd_length a b :
  length a = length b -> length (vadd a b) = length a.
Proof.
  revert b. induction a as [|x a IH]; intros [|y b] H; simpl in *;
    try discriminate; [reflexivity | f_equal; apply IH; lia].
Qed.

Lemma vadd_map_map {X : Type} (f g : X -> R) (xs : list X) (H : list R) :
  length H = length xs ->
  vadd (vadd H (map f xs)) (map g xs) = vadd H (map (fun x => f x + g x) xs).
Proof.
  revert H. induction xs as [|x xs IH]; intros [|h H] Hl; simpl in *;
    try discriminate; [reflexivity|].
  f_equal; [ring | apply IH; lia].
Qed.

Lemma vadd_zero_map {X : Type} (f : X -> R) (xs : list X) :
  vadd (repeat 0 (length xs)) (map f xs) = map f xs.
Proof.
  induction xs as [|x xs IH]; simpl; [reflexivity|].
  rewrite IH. f_equal. ring.
Qed.

Lemma vadd_map_zero {X : Type} (xs : list X) (H : list R) :
  length H = length xs -> vadd H (map (fun _ => 0) xs) = H.
Proof.
  revert H. induction xs as [|x xs IH]; intros [|h H] Hl; simpl in *;
    try discriminate; [reflexivity|].
  f_equal; [ring | apply IH; lia].
Qed.

(** The loop from pivot [k] on adds exactly the pivots [k .. Sn - 1]. *)
Lemma entropies_loop_from (N D Sn : nat) z mean log_var log_N mb :
  (0 < mb)%nat ->
  forall fuel k H,
    (Sn - k <= fuel)%nat -> length H = D ->
    fold_left (entropies_block log_density_gaussian N D Sn z mean log_var log_N mb)
              (range_from fuel k Sn mb) H =
    vadd H (map (fun j =>
                   rsum (map (neg_log_q_z log_density_gaussian
                                N D Sn z mean log_var log_N j)
                             (seq k (Sn - k))))
                (seq 0 D)).
Proof.
  intros Hmb. induction fuel as [|fuel IH]; intros k H Hf HD.
  - replace (Sn - k)%nat with 0%nat by lia. simpl.
    symmetry. apply vadd_map_zero. rewrite length_seq. exact HD.
  - cbn [range_from]. destruct (Nat.ltb_spec k Sn) as [Hk|Hk].
    + cbn [fold_left]. rewrite IH.
      * unfold entropies_block. rewrite vadd_map_map
          by (rewrite length_seq; exact HD).
        f_equal. apply map_ext. intros j.
        rewrite <- rsum_app, <- map_app. f_equal. f_equal.
        destruct (Nat.le_gt_cases mb (Sn - k)) as [Hle|Hgt].
        -- rewrite Nat.min_l by lia.
           rewrite <- seq_app. f_equal. lia.
        -- rewrite Nat.min_r by lia.
           replace (Sn - (k + mb))%nat with 0%nat by lia.
           simpl. apply app_nil_r.
      * lia.
      * unfold entropies_block. rewrite vadd_length; rewrite ?length_map,
          ?length_seq; auto.
    + replace (Sn - k)%nat with 0%nat by lia. simpl.
      symmetry. apply vadd_map_zero. rewrite length_seq. exact HD.
Qed.

Lemma entropies_loop_average (N D Sn : nat) z mean log_var log_N mb :
  (0 < mb)%nat ->
  vdiv (fold_left
          (entropies_block log_density_gaussian N D Sn z mean log_var log_N mb)
          (range_from Sn 0 Sn mb) (repeat 0 D))
       (INR Sn) =
  entropies_average log_density_gaussian N D Sn z mean log_var log_N.
Proof.
  intros Hmb. rewrite entropies_loop_from; try lia;
    [| apply repeat_length].
  match goal with
  | |- context [vadd (repeat 0 D) (map ?f (seq 0 D))] =>
      pose proof (vadd_zero_map f (seq 0 D)) as E;
      rewrite length_seq in E; rewrite E; clear E
  end.
  unfold vdiv, entropies_average. rewrite map_map.
  apply map_ext. intros j. rewrite Nat.sub_0_r. f_equal. f_equal.
  apply map_ext. intros s. unfold neg_log_q_z. ring.
Qed.

Lemma estimate_with_whole (mini_batch_size : nat)
    (samples_zCx : tensor) (params_zCX : tensor * tensor) (n_samples : nat)
    (g : rng) :
  (0 < mini_batch_size)%nat ->
  estimate_latent_entropies_with rng randperm log_density_gaussian
    mini_batch_size samples_zCx params_zCX n_samples g =
  estimate_latent_entropies_whole rng randperm log_density_gaussian
    samples_zCx params_zCX n_samples g.
Proof.
  intros Hmb.
  unfold estimate_latent_entropies_with, estimate_latent_entropies_whole.
  unfold mbind, lift, torch_randperm, ret.
  destruct (shape2 samples_zCx) as [[N D]|e]; [|reflexivity].
  destruct (randperm N g) as [perm g'].
  destruct (index_select0 N D samples_zCx (firstn n_samples perm))
    as [sel|e]; [|reflexivity].
  destruct (view sel [D; n_samples]) as [z|e]; [|reflexivity].
  destruct (unsqueeze_expand (fst params_zCX) N D) as [mean|e];
    [|reflexivity].
  destruct (unsqueeze_expand (snd params_zCX) N D) as [log_var|e];
    [|reflexivity].
  destruct (math_log N) as [log_N|e]; [|reflexivity].
  unfold py_range. destruct (Nat.eqb_spec mini_batch_size 0) as [E|_]; [lia|].
  rewrite entropies_loop_average by exact Hmb. reflexivity.
Qed.

End MinibatchFacts.

(** ** Slices of the dense factorial grid *)

Section GridFacts.

Lemma numel_app l1 l2 : numel (l1 ++ l2) = numel l1 * numel l2.
Proof.
  induction l1 as [|x t IH]; simpl; [lia | rewrite IH; lia].
Qed.

Lemma numel_pos l : Forall (fun s => 0 < s) l -> 0 < numel l.
Proof.
  induction 1 as [|x t Hx Ht IH]; simpl; [lia | nia].
Qed.

Lemma firstn_plus {A : Type} (p q : nat) (l : list A) :
  firstn (p + q) l = firstn p l ++ firstn q (skipn p l).
Proof.
  revert l. induction p as [|p IH]; intros [|x l]; simpl;
    rewrite ?firstn_nil; try reflexivity.
  f_equal. apply IH.
Qed.

(** Consecutive rows are one chunk of the flat table. *)
Lemma chunk_rows (d : nat) (xs : list R) (m a : nat) :
  firstn (m * d) (skipn (a * d) xs) = concat (map (row d xs) (seq a m)).
Proof.
  revert a. induction m as [|m IH]; intros a; [reflexivity|].
  cbn [seq map concat]. rewrite <- IH.
  replace (S m * d) with (d + m * d) by lia.
  rewrite firstn_plus, skipn_skipn. unfold row.
  f_equal.
Qed.

Lemma flat_map_nil {A B : Type} (f : A -> list B) (l : list A) :
  (forall x, In x l -> f x = []) -> flat_map f l = [].
Proof.
  induction l as [|x l IH]; intros H; simpl; [reflexivity|].
  rewrite (H x) by (left; reflexivity). apply IH.
  intros y Hy. apply H. right. exact Hy.
Qed.

Lemma filter_const {A : Type} (p : A -> bool) (b : bool) (l : list A) :
  (forall x, In x l -> p x = b) -> filter p l = if b then l else [].
Proof.
  induction l as [|x l IH]; intros H; simpl.
  - destruct b; reflexivity.
  - rewrite (H x) by (left; reflexivity).
    rewrite IH by (intros y Hy; apply H; right; exact Hy).
    destruct b; reflexivity.
Qed.

(** A test on the block number selects whole blocks of width [w]. *)
Lemma filter_seq_blocks (w : nat) (q : nat -> bool) :
  0 < w ->
  forall m a,
    filter (fun n => q (n / w)) (seq (a * w) (m * w)) =
    flat_map (fun b => if q b then seq (b * w) w else []) (seq a m).
Proof.
  intros Hw. induction m as [|m IH]; intros a; [reflexivity|].
  replace (S m * w) with (w + m * w) by lia.
  rewrite seq_app, filter_app. cbn [seq flat_map]. f_equal.
  - apply filter_const. intros n Hn. apply in_seq in Hn. f_equal.
    symmetry. apply Nat.div_unique with (r := n - a * w); lia.
  - replace (a * w + w) with (S a * w) by lia. apply IH.
Qed.

(** Among [s] consecutive blocks starting at a multiple of [s], the one
    with residue [v] is the one at offset [v]. *)
Lemma flat_map_period {B : Type} (s v : nat) (g : nat -> list B) :
  v < s ->
  forall m a,
    flat_map (fun b => if b mod s =? v then g b else []) (seq (a * s) (m * s)) =
    flat_map (fun o => g (o * s + v)) (seq a m).
Proof.
  intros Hv. induction m as [|m IH]; intros a; [reflexivity|].
  replace (S m * s) with (s + m * s) by lia.
  rewrite seq_app, flat_map_app. cbn [seq flat_map]. f_equal.
  - replace s with (v + S (s - v - 1)) at 2 by lia.
    rewrite seq_app, flat_map_app. cbn [seq flat_map].
    assert (R : forall r, r < s -> (a * s + r) mod s = r).
    { intros r Hr. symmetry.
      apply Nat.mod_unique with (q := a); lia. }
    rewrite flat_map_nil.
    + rewrite R by lia. rewrite Nat.eqb_refl.
      rewrite flat_map_nil; [apply app_nil_r|].
      intros b Hb. apply in_seq in Hb.
      replace b with (a * s + (b - a * s)) by lia.
      rewrite R by lia.
      destruct (Nat.eqb_spec (b - a * s) v); [lia | reflexivity].
    + intros b Hb. apply in_seq in Hb.
      replace b with (a * s + (b - a * s)) by lia.
      rewrite R by lia.
      destruct (Nat.eqb_spec (b - a * s) v); [lia | reflexivity].
  - replace (a * s + s) with (S a * s) by lia. apply IH.
Qed.

(** The examples with value [v] at a factor of cardinality [s] that has
    [outer] combinations before it and [inner] after it. *)
Lemma filter_grid (outer s inner v : nat) :
  0 < inner -> v < s ->
  filter (fun n => (n / inner) mod s =? v) (seq 0 (outer * s * inner)) =
  flat_map (fun o => seq ((o * s + v) * inner) inner) (seq 0 outer).
Proof.
  intros Hi Hv.
  pose proof (filter_seq_blocks inner (fun b => b mod s =? v) Hi
                (outer * s) 0) as E.
  simpl in E. rewrite E. clear E.
  apply (flat_map_period s v (fun b => seq (b * inner) inner) Hv outer 0).
Qed.

Lemma concat_map_flat_map {A B C : Type} (f : B -> list C)
    (g : A -> list B) (l : list A) :
  concat (map f (flat_map g l)) = concat (map (fun x => concat (map f (g x))) l).
Proof.
  induction l as [|x l IH]; [reflexivity|].
  cbn [flat_map map concat]. rewrite map_app, concat_app, IH. reflexivity.
Qed.

Lemma length_flat_map_const {A B : Type} (g : A -> list B) (c : nat)
    (l : list A) :
  (forall x, length (g x) = c) -> length (flat_map g l) = length l * c.
Proof.
  intros H. induction l as [|x l IH]; [reflexivity|].
  cbn [flat_map length]. rewrite length_app, H, IH. lia.
Qed.

Lemma examples_with_grid (pre post : list nat) (s v : nat) :
  Forall (fun x => 0 < x) post -> v < s ->
  examples_with (pre ++ s :: post) (length pre) v =
  flat_map (fun o => seq ((o * s + v) * numel post) (numel post))
           (seq 0 (numel pre)).
Proof.
  intros Hpost Hv. unfold examples_with, factor_value.
  rewrite app_nth2, Nat.sub_diag by lia. cbn [nth].
  replace (skipn (S (length pre)) (pre ++ s :: post)) with post.
  2:{ rewrite skipn_app.
      rewrite skipn_all2 by lia.
      replace (S (length pre) - length pre) with 1 by lia. reflexivity. }
  rewrite numel_app. cbn [numel fold_right]. fold (numel post).
  rewrite Nat.mul_assoc.
  apply filter_grid; [apply numel_pos; exact Hpost | exact Hv].
Qed.

(** The examples with value [v] at a factor are one in [s] of the
    dataset. *)
Lemma examples_with_length (pre post : list nat) (s v : nat) :
  Forall (fun x => 0 < x) post -> v < s ->
  length (examples_with (pre ++ s :: post) (length pre) v) =
  numel (pre ++ s :: post) / s.
Proof.
  intros Hpost Hv. rewrite examples_with_grid by assumption.
  rewrite length_flat_map_const with (c := numel post)
    by (intros; apply length_seq).
  rewrite length_seq, numel_app. cbn [numel fold_right]. fold (numel post).
  apply Nat.div_unique_exact; [lia | ring].
Qed.

(** Indexing one axis of the grid with [v] keeps exactly the examples whose
    factor at that axis is [v], in dataset order. *)
Lemma select_grid (t : tensor) (pre post : list nat) (s d v : nat) :
  shape t = pre ++ s :: post ++ [d] ->
  Forall (fun x => 0 < x) post -> v < s ->
  select t (length pre) v =
  Ok {| shape := pre ++ post ++ [d];
        data := concat (map (row d (data t))
                          (examples_with (pre ++ s :: post) (length pre) v)) |}.
Proof.
  intros Hsh Hpost Hv. unfold select. rewrite Hsh.
  rewrite firstn_app, firstn_all, Nat.sub_diag, firstn_O, app_nil_r.
  rewrite skipn_app, skipn_all, Nat.sub_diag. cbn [app skipn].
  destruct (Nat.ltb_spec v s) as [_|]; [|lia].
  f_equal. f_equal.
  rewrite examples_with_grid by assumption.
  rewrite concat_map_flat_map. f_equal. apply map_ext. intros o.
  rewrite <- chunk_rows. rewrite numel_app. cbn [numel fold_right].
  fold (numel post). rewrite Nat.mul_1_r. f_equal. f_equal. lia.
Qed.

Lemma reduce_mul_numel (l : list nat) : l <> [] -> reduce_mul l = Ok (numel l).
Proof.
  destruct l as [|x t]; [congruence|]. intros _. unfold reduce_mul. f_equal.
  revert x. induction t as [|y t IH]; intros x; simpl; [lia|].
  rewrite IH. simpl. lia.
Qed.

End GridFacts.

(** ** The conditional entropies *)

Section HzCvFacts.

Variable rng : Type.
Variable randperm : nat -> rng -> list nat * rng.
Variable log_density_gaussian : R -> R -> R -> R.

Local Abbreviation estimate :=
  (_estimate_latent_entropies rng randperm log_density_gaussian).

Lemma mbind_ext_post {St A B : Type} (m : M St A) (f f' : A -> M St B)
    (g : St) :
  (forall a g', m g = (Ok a, g') -> f a g' = f' a g') ->
  mbind m f g = mbind m f' g.
Proof.
  intros H. unfold mbind. destruct (m g) as [[a|e] g']; [|reflexivity].
  apply H. reflexivity.
Qed.

Lemma map_m_post {St A X : Type} (P : A -> Prop) (f : X -> M St A)
    (xs : list X) :
  (forall x g a g', f x g = (Ok a, g') -> P a) ->
  forall g es g', map_m f xs g = (Ok es, g') -> Forall P es.
Proof.
  intros Hf. induction xs as [|x xs IH]; intros g es g' H.
  - inversion H. constructor.
  - cbn [map_m] in H. unfold mbind in H.
    destruct (f x g) as [[a|e] g1] eqn:E; [|discriminate].
    destruct (map_m f xs g1) as [[r|e] g2] eqn:E'; [|discriminate].
    inversion H; subst. constructor; [eapply Hf | eapply IH]; eassumption.
Qed.

Lemma set_row_same rows k : set_row rows k (nth k rows []) = rows.
Proof.
  revert k. induction rows as [|x t IH]; intros [|k]; simpl; try reflexivity.
  rewrite IH. reflexivity.
Qed.

Lemma nth_set_row rows k r :
  k < length rows -> nth k (set_row rows k r) [] = r.
Proof.
  revert k. induction rows as [|x t IH]; intros [|k] H; simpl in *;
    try lia; [reflexivity | apply IH; lia].
Qed.

Lemma set_row_twice rows k r r' :
  set_row (set_row rows k r) k r' = set_row rows k r'.
Proof.
  revert k. induction rows as [|x t IH]; intros [|k]; simpl; try reflexivity.
  rewrite IH. reflexivity.
Qed.

Lemma length_set_row rows k r : length (set_row rows k r) = length rows.
Proof.
  revert k. induction rows as [|x t IH]; intros [|k]; simpl; try reflexivity.
  rewrite IH. reflexivity.
Qed.

(** The loop over the values of a factor only touches its row, which
    receives the estimates one after the other. *)
Lemma for_each_accumulate (est : nat -> M rng (list R)) (k : nat) (c : R)
    (vs : list nat) :
  forall H g,
    k < length H ->
    for_each vs
      (fun H v => e <- est v ;;
                  ret (set_row H k (vadd (nth k H []) (vdiv e c)))) H g =
    (es <- map_m est vs ;;
     ret (set_row H k
            (fold_left (fun r e => vadd r (vdiv e c)) es (nth k H [])))) g.
Proof.
  induction vs as [|v vs IH]; intros H g Hk.
  - cbn. unfold mbind, ret. rewrite set_row_same. reflexivity.
  - cbn [for_each map_m]. unfold mbind, ret.
    destruct (est v g) as [[e|ex] g1]; [|reflexivity].
    rewrite IH by (rewrite length_set_row; exact Hk).
    unfold mbind, ret.
    destruct (map_m est vs g1) as [[es|ex] g2]; [|reflexivity].
    cbn [fold_left].
    rewrite set_row_twice, nth_set_row by exact Hk. reflexivity.
Qed.

Lemma list_as_map_nth (l : list R) :
  l = map (fun j => nth j l 0%R) (seq 0 (length l)).
Proof.
  induction l as [|x t IH]; [reflexivity|].
  cbn [length seq map nth]. f_equal.
  rewrite <- seq_shift, map_map. exact IH.
Qed.

Lemma vdiv_as_map (d : nat) (e : list R) (c : R) :
  length e = d ->
  vdiv e c = map (fun j => (1 / c * nth j e 0)%R) (seq 0 d).
Proof.
  intros <-. unfold vdiv.
  rewrite (list_as_map_nth e) at 1.
  rewrite map_map. apply map_ext. intros j. unfold Rdiv. ring.
Qed.

(** Adding the estimates divided by [c] one after the other gives, per
    dimension, their sum with weight [1 / c] each. *)
Lemma fold_vadd_average (d : nat) (c : R) (es : list (list R)) :
  Forall (fun e => length e = d) es ->
  forall r,
    length r = d ->
    fold_left (fun r e => vadd r (vdiv e c)) es r =
    vadd r (map (fun j => rsum (map (fun e => (1 / c * nth j e 0)%R) es))
                (seq 0 d)).
Proof.
  induction 1 as [|e es He Hes IH]; intros r Hr.
  - cbn [fold_left map rsum fold_right]. symmetry.
    apply vadd_map_zero. rewrite length_seq. exact Hr.
  - cbn [fold_left]. rewrite IH.
    + rewrite (vdiv_as_map d e c He).
      rewrite vadd_map_map by (rewrite length_seq; exact Hr).
      reflexivity.
    + rewrite vadd_length; [exact Hr|].
      unfold vdiv. rewrite length_map. congruence.
Qed.

Lemma estimate_length (t : tensor) (p : tensor * tensor) (n_samples : nat)
    (g g' : rng) (e : list R) :
  estimate t p n_samples g = (Ok e, g') -> length e = last (shape t) 0.
Proof.
  unfold _estimate_latent_entropies.
  rewrite estimate_with_whole by lia.
  unfold estimate_latent_entropies_whole, mbind, lift, torch_randperm, ret.
  unfold shape2.
  destruct (shape t) as [|N [|D [|? ?]]]; try discriminate.
  destruct (randperm N g) as [perm g1].
  destruct (index_select0 _ _ _ _); [|discriminate].
  destruct (view _ _); [|discriminate].
  destruct (unsqueeze_expand _ _ _); [|discriminate].
  destruct (unsqueeze_expand _ _ _); [|discriminate].
  destruct (math_log N); [|discriminate].
  intros H. inversion H. unfold entropies_average.
  rewrite length_map, length_seq. reflexivity.
Qed.

Lemma mbind_assoc {St A B C : Type} (m : M St A) (f : A -> M St B)
    (h : B -> M St C) (g : St) :
  mbind (mbind m f) h g = mbind m (fun a => mbind (f a) h) g.
Proof.
  unfold mbind. destruct (m g) as [[a|e] g']; reflexivity.
Qed.

Lemma mbind_ret_l {St A B : Type} (a : A) (f : A -> M St B) (g : St) :
  mbind (ret a) f g = f a g.
Proof. reflexivity. Qed.

Lemma mbind_cong_l {St A B : Type} (m m' : M St A) (f : A -> M St B)
    (g : St) :
  m g = m' g -> mbind m f g = mbind m' f g.
Proof. intros H. unfold mbind. rewrite H. reflexivity. Qed.

Lemma for_each_ext_in {St A X : Type} (xs : list X)
    (body body' : A -> X -> M St A) :
  (forall x, In x xs -> forall acc g, body acc x g = body' acc x g) ->
  forall acc g, for_each xs body acc g = for_each xs body' acc g.
Proof.
  induction xs as [|x xs IH]; intros H acc g; [reflexivity|].
  cbn [for_each]. unfold mbind.
  rewrite (H x) by (left; reflexivity).
  destruct (body' acc x g) as [[a|e] g']; [|reflexivity].
  apply IH. intros y Hy. apply H. right. exact Hy.
Qed.

Lemma view_slice (pre post : list nat) (s d : nat) (xs : list R) :
  0 < s ->
  view {| shape := pre ++ post ++ [d]; data := xs |}
       [numel (pre ++ s :: post) / s; d] =
  Ok {| shape := [numel (pre ++ s :: post) / s; d]; data := xs |}.
Proof.
  intros Hs. unfold view. cbn [shape data].
  replace (numel (pre ++ s :: post) / s) with (numel pre * numel post).
  2:{ rewrite numel_app. cbn [numel fold_right]. fold (numel post).
      apply Nat.div_unique_exact; [lia | ring]. }
  rewrite !numel_app. cbn [numel fold_right].
  destruct (Nat.eqb_spec (numel pre * (numel post * (d * 1)))
                         (numel pre * numel post * (d * 1))) as [_|Hne];
    [reflexivity | exfalso; apply Hne; ring].
Qed.

Section OneDataset.

Variable n_samples : nat.
Variable samples_zCx : tensor.
Variable params_zCx : tensor * tensor.
Variable latent_dim : nat.

(** The estimator on the examples whose factor [k] is [v]. *)
Let slice_estimate (lat_sizes : list nat) (k v : nat) : M rng (list R) :=
  let idx := examples_with lat_sizes k v in
  estimate (gather latent_dim samples_zCx idx)
           (gather latent_dim (fst params_zCx) idx,
            gather latent_dim (snd params_zCx) idx)
           n_samples.

Lemma H_zCv_value_gather (pre post : list nat) (s v : nat)
    (H : list (list R)) (g : rng) :
  shape samples_zCx = pre ++ s :: post ++ [latent_dim] ->
  shape (fst params_zCx) = pre ++ s :: post ++ [latent_dim] ->
  shape (snd params_zCx) = pre ++ s :: post ++ [latent_dim] ->
  Forall (fun x => 0 < x) post -> v < s ->
  H_zCv_value rng randperm log_density_gaussian n_samples samples_zCx
    params_zCx (numel (pre ++ s :: post)) latent_dim (length pre) s H v g =
  (e <- slice_estimate (pre ++ s :: post) (length pre) v ;;
   ret (set_row H (length pre)
          (vadd (nth (length pre) H []) (vdiv e (INR s))))) g.
Proof.
  intros Hs H0 H1 Hpost Hv.
  unfold H_zCv_value, slice_estimate, gather.
  rewrite (examples_with_length pre post s v Hpost Hv).
  unfold mbind at 1 2 3 4 5 6, lift.
  rewrite (select_grid _ pre post s latent_dim v Hs Hpost Hv).
  rewrite view_slice by lia.
  rewrite (select_grid _ pre post s latent_dim v H0 Hpost Hv).
  rewrite view_slice by lia.
  rewrite (select_grid _ pre post s latent_dim v H1 Hpost Hv).
  rewrite view_slice by lia.
  reflexivity.
Qed.

Lemma slice_estimate_length sizes k v g e g' :
  slice_estimate sizes k v g = (Ok e, g') -> length e = latent_dim.
Proof.
  unfold slice_estimate. intros H. apply estimate_length in H.
  exact H.
Qed.

(** The loop over the values of one factor: its row becomes the uniform
    average of the estimates on its slices. *)
Lemma factor_loop_average (pre post : list nat) (s : nat)
    (H : list (list R)) (g : rng) :
  shape samples_zCx = pre ++ s :: post ++ [latent_dim] ->
  shape (fst params_zCx) = pre ++ s :: post ++ [latent_dim] ->
  shape (snd params_zCx) = pre ++ s :: post ++ [latent_dim] ->
  Forall (fun x => 0 < x) post ->
  length pre < length H ->
  nth (length pre) H [] = repeat 0%R latent_dim ->
  for_each (seq 0 s)
    (H_zCv_value rng randperm log_density_gaussian n_samples samples_zCx
       params_zCx (numel (pre ++ s :: post)) latent_dim (length pre) s) H g =
  (r <- H_zCv_factor_average rng randperm log_density_gaussian n_samples
          samples_zCx params_zCx (pre ++ s :: post) latent_dim (length pre, s) ;;
   ret (set_row H (length pre) r)) g.
Proof.
  intros Hs H0 H1 Hpost Hk Hz.
  rewrite for_each_ext_in with
    (body' := fun H v =>
       e <- slice_estimate (pre ++ s :: post) (length pre) v ;;
       ret (set_row H (length pre)
              (vadd (nth (length pre) H []) (vdiv e (INR s))))).
  2:{ intros v Hv acc g0. apply in_seq in Hv.
      apply H_zCv_value_gather; auto; lia. }
  rewrite for_each_accumulate by exact Hk.
  unfold H_zCv_factor_average. rewrite mbind_assoc.
  apply mbind_ext_post. intros es g' Hes.
  unfold mbind, ret. f_equal. f_equal. f_equal.
  rewrite Hz.
  rewrite fold_vadd_average with (d := latent_dim).
  - match goal with
    | |- context [vadd (repeat _ latent_dim) (map ?f (seq 0 latent_dim))] =>
        pose proof (vadd_zero_map f (seq 0 latent_dim)) as E;
        rewrite length_seq in E; exact E
    end.
  - eapply map_m_post; [|exact Hes].
    intros v g1 e g2 He. cbv beta in He.
    apply (slice_estimate_length _ _ _ _ _ _ He).
  - apply repeat_length.
Qed.

Lemma set_row_app (done : list (list R)) (x r : list R)
    (t : list (list R)) :
  set_row (done ++ x :: t) (length done) r = done ++ r :: t.
Proof.
  induction done as [|y done IH]; simpl; [reflexivity|].
  rewrite IH. reflexivity.
Qed.

(** The loop over the factors, from any factor on: the rows computed so
    far are kept and the others are filled in order. *)
Lemma factors_loop_average (ss : list nat) :
  forall (pre : list nat) (ns : list String.string)
         (done : list (list R)) (g : rng),
    shape samples_zCx = (pre ++ ss) ++ [latent_dim] ->
    shape (fst params_zCx) = (pre ++ ss) ++ [latent_dim] ->
    shape (snd params_zCx) = (pre ++ ss) ++ [latent_dim] ->
    Forall (fun x => 0 < x) ss ->
    length ns = length ss ->
    length done = length pre ->
    for_each (combine (seq (length pre) (length ss)) (combine ss ns))
      (fun H fac =>
         let '(i_fac_var, (lat_size, _)) := fac in
         for_each (seq 0 lat_size)
           (H_zCv_value rng randperm log_density_gaussian n_samples
              samples_zCx params_zCx (numel (pre ++ ss)) latent_dim
              i_fac_var lat_size) H)
      (done ++ repeat (repeat 0%R latent_dim) (length ss)) g =
    (rows <- map_m (H_zCv_factor_average rng randperm log_density_gaussian
                      n_samples samples_zCx params_zCx (pre ++ ss) latent_dim)
                   (combine (seq (length pre) (length ss)) ss) ;;
     ret (done ++ rows)) g.
Proof.
  induction ss as [|s ss IH]; intros pre ns done g Hs H0 H1 Hpos Hns Hdone.
  - reflexivity.
  - destruct ns as [|n ns]; [discriminate|].
    inversion Hpos as [|? ? Hs_pos Hss]; subst.
    rewrite <- app_assoc in Hs, H0, H1. cbn [app] in Hs, H0, H1.
    cbn [length seq combine for_each map_m repeat].
    etransitivity.
    { apply mbind_cong_l. apply factor_loop_average; auto.
      - rewrite length_app. simpl. lia.
      - rewrite app_nth2, Hdone, Nat.sub_diag by lia. reflexivity. }
    rewrite !mbind_assoc. apply mbind_ext_post. intros r g1 _.
    rewrite mbind_ret_l, mbind_assoc.
    rewrite <- Hdone, set_row_app.
    replace (done ++ r :: repeat (repeat 0%R latent_dim) (length ss))
      with ((done ++ [r]) ++ repeat (repeat 0%R latent_dim) (length ss))
      by (rewrite <- app_assoc; reflexivity).
    assert (E : pre ++ s :: ss = (pre ++ [s]) ++ ss)
      by (rewrite <- app_assoc; reflexivity).
    assert (L : S (length done) = length (pre ++ [s]))
      by (rewrite length_app; simpl; lia).
    rewrite L, E.
    rewrite IH; auto.
    + apply mbind_ext_post. intros rows g2 _.
      rewrite mbind_ret_l. unfold ret. rewrite <- app_assoc. reflexivity.
    + rewrite <- E, <- app_assoc. exact Hs.
    + rewrite <- E, <- app_assoc. exact H0.
    + rewrite <- E, <- app_assoc. exact H1.
    + rewrite !length_app. simpl. lia.
Qed.

End OneDataset.

(** *** When the estimator returns *)

Section Returns.

(** [torch.randperm n] returns a permutation of [0 .. n - 1]. *)
Hypothesis randperm_perm :
  forall n g, Permutation (fst (randperm n g)) (seq 0 n).

Lemma randperm_below n g :
  forallb (fun i => i <? n) (fst (randperm n g)) = true.
Proof.
  apply forallb_forall. intros i Hi.
  apply (Permutation_in _ (randperm_perm n g)) in Hi.
  apply in_seq in Hi. apply Nat.ltb_lt. lia.
Qed.

Lemma randperm_length n g : length (fst (randperm n g)) = n.
Proof.
  rewrite (Permutation_length (randperm_perm n g)). apply length_seq.
Qed.

Lemma forallb_firstn {A : Type} (p : A -> bool) (n : nat) (l : list A) :
  forallb p l = true -> forallb p (firstn n l) = true.
Proof.
  intros H. apply forallb_forall. intros x Hx.
  apply (proj1 (forallb_forall p l) H).
  rewrite <- (firstn_skipn n l). apply in_or_app. left. exact Hx.
Qed.

(** With at least as many examples as pivots the estimator returns. *)
Lemma estimate_returns (t : tensor) (p : tensor * tensor)
    (N D n_samples : nat) (g : rng) :
  shape t = [N; D] ->
  shape (fst p) = [N; D] -> shape (snd p) = [N; D] ->
  0 < N -> n_samples <= N ->
  exists e, estimate t p n_samples g = (Ok e, snd (randperm N g)).
Proof.
  intros Hs H0 H1 HN HS.
  unfold _estimate_latent_entropies, estimate_latent_entropies_with.
  unfold mbind, lift, torch_randperm, ret, shape2. rewrite Hs.
  pose proof (randperm_below N g) as Hb.
  pose proof (randperm_length N g) as Hl.
  destruct (randperm N g) as [perm g']. cbn [fst snd] in *.
  unfold index_select0. rewrite forallb_firstn by exact Hb.
  unfold view. cbn [shape data]. rewrite length_firstn, Hl.
  rewrite Nat.min_l by lia. cbn [numel fold_right].
  replace (n_samples * (D * 1) =? D * (n_samples * 1)) with true
    by (symmetry; apply Nat.eqb_eq; lia).
  unfold unsqueeze_expand. rewrite H0, H1, !Nat.eqb_refl. cbn [orb andb].
  unfold math_log. destruct (Nat.eqb_spec N 0) as [|_]; [lia|].
  cbn [py_range Nat.eqb]. eexists. reflexivity.
Qed.

(** With fewer examples than pivots the reshaping of the pivots raises. *)
Lemma estimate_raises (t : tensor) (p : tensor * tensor)
    (N D n_samples : nat) (g : rng) :
  shape t = [N; D] -> 0 < D -> N < n_samples ->
  estimate t p n_samples g = (Raise RuntimeError, snd (randperm N g)).
Proof.
  intros Hs HD HS.
  unfold _estimate_latent_entropies, estimate_latent_entropies_with.
  unfold mbind, lift, torch_randperm, ret, shape2. rewrite Hs.
  pose proof (randperm_below N g) as Hb.
  pose proof (randperm_length N g) as Hl.
  destruct (randperm N g) as [perm g']. cbn [fst snd] in *.
  unfold index_select0. rewrite forallb_firstn by exact Hb.
  unfold view. cbn [shape data]. rewrite length_firstn, Hl.
  rewrite Nat.min_r by lia. cbn [numel fold_right].
  destruct (Nat.eqb_spec (N * (D * 1)) (D * (n_samples * 1))) as [E|_];
    [exfalso; nia | reflexivity].
Qed.

Lemma map_m_returns {St A X : Type} (f : X -> M St A) (xs : list X) :
  (forall x, In x xs -> forall g, exists a g', f x g = (Ok a, g')) ->
  forall g, exists es g',
    map_m f xs g = (Ok es, g') /\ length es = length xs.
Proof.
  induction xs as [|x xs IH]; intros H g.
  - exists [], g. split; reflexivity.
  - destruct (H x (or_introl eq_refl) g) as (a & g1 & Ea).
    destruct (IH (fun y Hy => H y (or_intror Hy)) g1) as (es & g2 & Ees & L).
    exists (a :: es), g2. cbn [map_m]. unfold mbind. rewrite Ea, Ees.
    split; [reflexivity | simpl; congruence].
Qed.

Lemma in_combine_seq_split {A : Type} (l : list A) :
  forall a k x,
    In (k, x) (combine (seq a (length l)) l) ->
    exists pre post, l = pre ++ x :: post /\ a + length pre = k.
Proof.
  induction l as [|y l IH]; intros a k x H; [destruct H|].
  cbn [length seq combine] in H. destruct H as [H|H].
  - inversion H; subst. exists [], l. split; [reflexivity | simpl; lia].
  - destruct (IH _ _ _ H) as (pre & post & -> & E).
    exists (y :: pre), post. split; [reflexivity | simpl; lia].
Qed.

Lemma nth_error_split_at {A : Type} (l : list A) (k : nat) (x : A) :
  nth_error l k = Some x ->
  exists pre post, l = pre ++ x :: post /\ length pre = k.
Proof.
  revert k. induction l as [|y l IH]; intros [|k] H; try discriminate.
  - inversion H; subst. exists [], l. split; reflexivity.
  - destruct (IH _ H) as (pre & post & -> & E).
    exists (y :: pre), post. split; [reflexivity | simpl; lia].
Qed.

(** C7.  On a dense factorial dataset (tables of shape [lat_sizes ++
    [latent_dim]], every cardinality positive, one name per factor),
    [_estimate_H_zCv] is, for every factor [k], the uniform average over
    the values [v] of that factor of the marginal-entropy estimator applied
    to exactly the examples whose factor [k] equals [v], each estimate with
    weight one over the cardinality; each such slice has the dataset size
    divided by the cardinality as its size; and the call returns whenever
    no slice is smaller than the number of pivots.  The source runs the
    estimator with [n_samples = 10000]. *)
Theorem conditional_entropy_uniform_average
    (n_samples : nat) (samples_zCx : tensor) (params_zCx : tensor * tensor)
    (lat_sizes : list nat) (lat_names : list String.string)
    (latent_dim : nat) (g : rng) :
  lat_sizes <> [] ->
  Forall (fun s => 0 < s) lat_sizes ->
  length lat_names = length lat_sizes ->
  shape samples_zCx = lat_sizes ++ [latent_dim] ->
  shape (fst params_zCx) = lat_sizes ++ [latent_dim] ->
  shape (snd params_zCx) = lat_sizes ++ [latent_dim] ->
  estimate_H_zCv_with rng randperm log_density_gaussian n_samples
    samples_zCx params_zCx lat_sizes lat_names g =
  H_zCv_average rng randperm log_density_gaussian n_samples
    samples_zCx params_zCx lat_sizes latent_dim g /\
  (forall k s v,
     nth_error lat_sizes k = Some s -> v < s ->
     length (examples_with lat_sizes k v) = numel lat_sizes / s) /\
  ((forall s, In s lat_sizes -> n_samples <= numel lat_sizes / s) ->
   exists H g',
     estimate_H_zCv_with rng randperm log_density_gaussian n_samples
       samples_zCx params_zCx lat_sizes lat_names g = (Ok H, g') /\
     length H = length lat_sizes).
Proof.
  intros Hne Hpos Hn Hs H0 H1.
  assert (Eq : forall g0,
    estimate_H_zCv_with rng randperm log_density_gaussian n_samples
      samples_zCx params_zCx lat_sizes lat_names g0 =
    H_zCv_average rng randperm log_density_gaussian n_samples
      samples_zCx params_zCx lat_sizes latent_dim g0).
  { intros g0. unfold estimate_H_zCv_with, H_zCv_average.
    rewrite Hs, last_last. unfold mbind at 1, lift.
    rewrite reduce_mul_numel by exact Hne.
    pose proof (factors_loop_average n_samples samples_zCx params_zCx
                  latent_dim lat_sizes [] lat_names [] g0) as L.
    cbn [app length] in L. rewrite L by auto.
    unfold mbind, ret.
    destruct (map_m _ _ g0) as [[rows|e] g1]; reflexivity. }
  split; [apply Eq|]. split.
  - intros k s v Hk Hv.
    destruct (nth_error_split_at _ _ _ Hk) as (pre & post & -> & <-).
    apply examples_with_length; [|exact Hv].
    apply Forall_app in Hpos. destruct Hpos as [_ Hp].
    inversion Hp; assumption.
  - intros Hbig. rewrite Eq. unfold H_zCv_average.
    destruct (map_m_returns
                (H_zCv_factor_average rng randperm log_density_gaussian
                   n_samples samples_zCx params_zCx lat_sizes latent_dim)
                (combine (seq 0 (length lat_sizes)) lat_sizes)) with (g := g)
      as (rows & g' & E & L).
    + intros [k s] Hin g0.
      destruct (in_combine_seq_split _ _ _ _ Hin) as (pre & post & Hl & Hk).
      simpl in Hk. subst k.
      assert (Hs_pos : 0 < s /\ Forall (fun x => 0 < x) post).
      { rewrite Hl in Hpos. apply Forall_app in Hpos.
        destruct Hpos as [_ Hp]. inversion Hp; auto. }
      destruct Hs_pos as [Hs_pos Hpost].
      unfold H_zCv_factor_average.
      destruct (map_m_returns
        (fun v =>
           estimate
             (gather latent_dim samples_zCx
                (examples_with lat_sizes (length pre) v))
             (gather latent_dim (fst params_zCx)
                (examples_with lat_sizes (length pre) v),
              gather latent_dim (snd params_zCx)
                (examples_with lat_sizes (length pre) v)) n_samples)
        (seq 0 s)) with (g := g0) as (es & g1 & Ees & _).
      * intros v Hv g2. apply in_seq in Hv.
        assert (Hlen : length (examples_with lat_sizes (length pre) v) =
                       numel lat_sizes / s).
        { rewrite Hl. apply examples_with_length; [exact Hpost | lia]. }
        assert (Hdiv : 0 < numel lat_sizes / s).
        { rewrite Hl, numel_app. cbn [numel fold_right]. fold (numel post).
          replace (numel pre * (s * numel post) / s)
            with (numel pre * numel post)
            by (apply Nat.div_unique_exact; [lia | ring]).
          assert (0 < numel pre).
          { apply numel_pos. rewrite Hl in Hpos.
            apply Forall_app in Hpos. tauto. }
          pose proof (numel_pos post Hpost). nia. }
        destruct (estimate_returns
          (gather latent_dim samples_zCx
             (examples_with lat_sizes (length pre) v))
          (gather latent_dim (fst params_zCx)
             (examples_with lat_sizes (length pre) v),
           gather latent_dim (snd params_zCx)
             (examples_with lat_sizes (length pre) v))
          (numel lat_sizes / s) latent_dim n_samples g2) as (e & Ee).
        -- unfold gather. cbn [shape]. rewrite Hlen. reflexivity.
        -- unfold gather. cbn [fst shape]. rewrite Hlen. reflexivity.
        -- unfold gather. cbn [snd shape]. rewrite Hlen. reflexivity.
        -- exact Hdiv.
        -- apply Hbig. rewrite Hl. apply in_or_app. right. left. reflexivity.
        -- exists e. eexists. exact Ee.
      * unfold mbind. rewrite Ees. eexists. eexists. reflexivity.
    + exists rows, g'. split; [exact E|].
      rewrite L, length_combine, length_seq. lia.
Qed.

End Returns.

End HzCvFacts.

(** ** The estimators on small datasets *)

Section SmallDatasets.

Lemma sorted_randperm_perm n g :
  Permutation (fst (sorted_randperm n g)) (seq 0 n).
Proof. apply Permutation_refl. Qed.

(** The conditional entropies of the 2 by 3 grid with two pivots. *)
Lemma conditional_entropy_uniform_average_witness :
  estimate_H_zCv_with unit sorted_randperm (fun x mu lv => (x - mu - lv)%R) 2
    grid_2_3 (grid_2_3, grid_2_3) [2; 3] ["shape"; "scale"]%string tt =
  H_zCv_average unit sorted_randperm (fun x mu lv => (x - mu - lv)%R) 2
    grid_2_3 (grid_2_3, grid_2_3) [2; 3] 1 tt /\
  (forall k s v,
     nth_error [2; 3] k = Some s -> v < s ->
     length (examples_with [2; 3] k v) = numel [2; 3] / s) /\
  ((forall s, In s [2; 3] -> 2 <= numel [2; 3] / s) ->
   exists H g',
     estimate_H_zCv_with unit sorted_randperm (fun x mu lv => (x - mu - lv)%R)
       2 grid_2_3 (grid_2_3, grid_2_3) [2; 3] ["shape"; "scale"]%string tt =
     (Ok H, g') /\
     length H = length [2; 3]).
Proof.
  apply (conditional_entropy_uniform_average unit sorted_randperm
           (fun x mu lv => (x - mu - lv)%R) sorted_randperm_perm 2
           grid_2_3 (grid_2_3, grid_2_3) [2; 3] ["shape"; "scale"]%string 1 tt).
  - discriminate.
  - repeat constructor.
  - reflexivity.
  - reflexivity.
  - reflexivity.
  - reflexivity.
Defined.

Example examples_with_scale_1 : examples_with [2; 3] 1 1 = [1; 4].
Proof. reflexivity. Qed.

Example examples_with_shape_1 : examples_with [2; 3] 0 1 = [3; 4; 5].
Proof. reflexivity. Qed.

(** C2.  Two examples and three requested pivots: the pivots are cut down
    to the two examples, and reshaping them to [latent_dim] by [n_samples]
    raises; the conditional-entropy path, which asks for 10000 pivots on
    slices of three and two examples, raises in the same place. *)
Theorem estimator_raises_when_pivots_exceed_examples
    (log_density_gaussian : R -> R -> R -> R) :
  fst (_estimate_latent_entropies unit sorted_randperm log_density_gaussian
         {| shape := [2; 1]; data := [0; 1]%R |}
         ({| shape := [2; 1]; data := [0; 1]%R |},
          {| shape := [2; 1]; data := [0; 0]%R |}) 3 tt) = Raise RuntimeError /\
  fst (_estimate_H_zCv unit sorted_randperm log_density_gaussian
         grid_2_3 (grid_2_3, grid_2_3) [2; 3] ["shape"; "scale"]%string tt)
    = Raise RuntimeError.
Proof.
  split.
  - rewrite (estimate_raises unit sorted_randperm log_density_gaussian
               sorted_randperm_perm _ _ 2 1 3); [reflexivity | reflexivity | lia | lia].
  - lazy. reflexivity.
Qed.

End SmallDatasets.

(** ** The mutual-information scores *)

Section ScoreFacts.
Open Scope R_scope.

Lemma insert_desc_perm x l : Permutation (insert_desc x l) (x :: l).
Proof.
  induction l as [|y t IH]; simpl; [apply Permutation_refl|].
  destruct (Rle_dec y x); [apply Permutation_refl|].
  eapply perm_trans; [apply perm_skip, IH | apply perm_swap].
Qed.

Lemma sort_desc_perm l : Permutation (sort_desc l) l.
Proof.
  induction l as [|x t IH]; simpl; [constructor|].
  eapply perm_trans; [apply insert_desc_perm | apply perm_skip, IH].
Qed.

Lemma insert_desc_sorted x l : desc l -> desc (insert_desc x l).
Proof.
  induction l as [|y t IH]; intros Hd; simpl.
  - split; constructor.
  - destruct Hd as [Hy Ht]. destruct (Rle_dec y x) as [Hle|Hgt].
    + split; [|split; assumption].
      constructor; [exact Hle|].
      eapply Forall_impl; [|exact Hy]. intros z Hz. cbv beta in *. lra.
    + split; [|apply IH; exact Ht].
      apply (Permutation_Forall (Permutation_sym (insert_desc_perm x t))).
      constructor; [lra | exact Hy].
Qed.

Lemma sort_desc_sorted l : desc (sort_desc l).
Proof.
  induction l as [|x t IH]; simpl; [exact I | apply insert_desc_sorted, IH].
Qed.

Lemma clamp0_mono x y : x <= y -> clamp0 x <= clamp0 y.
Proof. intros H. unfold clamp0. apply Rle_max_compat_r. exact H. Qed.

(** The first two entries of a row that was sorted downwards and clamped
    are the largest and the second-largest of the clamped row. *)
Lemma sorted_top_two (l : list R) :
  (2 <= length l)%nat ->
  top_two (map clamp0 l)
          (nth 0 (map clamp0 (sort_desc l)) 0)
          (nth 1 (map clamp0 (sort_desc l)) 0).
Proof.
  intros Hl.
  pose proof (sort_desc_perm l) as Hp.
  pose proof (sort_desc_sorted l) as Hd.
  pose proof (Permutation_length Hp) as Hlen.
  destruct (sort_desc l) as [|a [|b rest]]; simpl in Hlen; try lia.
  destruct Hd as [Ha [Hb _]]. inversion Ha as [|? ? Hba Har]; subst.
  exists (map clamp0 rest). cbn [map nth]. repeat split.
  - change (clamp0 a :: clamp0 b :: map clamp0 rest)
      with (map clamp0 (a :: b :: rest)).
    apply Permutation_map, Permutation_sym, Hp.
  - apply clamp0_mono, Hba.
  - apply Forall_map. eapply Forall_impl; [|exact Hb].
    intros z Hz. apply clamp0_mono, Hz.
Qed.

Lemma mut_info_row_clamp (H_z row : list R) :
  map clamp0 (map2 (fun c m => - c + m) row H_z) = mut_info_row H_z row.
Proof.
  unfold mut_info_row. revert H_z.
  induction row as [|c row IH]; intros [|m H_z]; simpl; try reflexivity.
  rewrite IH. f_equal. f_equal. ring.
Qed.

Lemma length_map2 {A B C : Type} (f : A -> B -> C) a b :
  length (map2 f a b) = Nat.min (length a) (length b).
Proof.
  revert b. induction a as [|x a IH]; intros [|y b]; simpl; auto.
Qed.

Lemma map_r_ok {A B : Type} (f : A -> result B) (h : A -> B) (l : list A) :
  Forall (fun x => f x = Ok (h x)) l -> map_r f l = Ok (map h l).
Proof.
  induction 1 as [|x t Hx Ht IH]; simpl; [reflexivity|].
  rewrite Hx, IH. reflexivity.
Qed.

Lemma column_ok (j : nat) (t : list (list R)) :
  Forall (fun row => (j < length row)%nat) t ->
  column j t = Ok (map (fun row => nth j row 0) t).
Proof.
  intros H. unfold column. apply map_r_ok.
  eapply Forall_impl; [|exact H]. intros row Hj. cbv beta in *.
  destruct (nth_error row j) as [x|] eqn:E.
  - f_equal. symmetry. apply nth_error_nth. exact E.
  - apply nth_error_None in E. lia.
Qed.

Lemma map2_map_map {A B C X : Type} (f : A -> B -> C) (p : X -> A)
    (q : X -> B) (l : list X) :
  map2 f (map p l) (map q l) = map (fun x => f (p x) (q x)) l.
Proof.
  induction l as [|x l IH]; simpl; [reflexivity | rewrite IH; reflexivity].
Qed.

Lemma map2_map_l {A A' B C : Type} (f : A -> B -> C) (p : A' -> A)
    (a : list A') (b : list B) :
  map2 f (map p a) b = map2 (fun x y => f (p x) y) a b.
Proof.
  revert b. induction a as [|x a IH]; intros [|y b]; simpl; try reflexivity.
  rewrite IH. reflexivity.
Qed.

Lemma map2_map_r {A B B' C : Type} (f : A -> B -> C) (q : B' -> B)
    (a : list A) (b : list B') :
  map2 f a (map q b) = map2 (fun x y => f x (q y)) a b.
Proof.
  revert b. induction a as [|x a IH]; intros [|y b]; simpl; try reflexivity.
  rewrite IH. reflexivity.
Qed.

Lemma sorted_mut_info_rows (H_z : list R) (H_zCv : list (list R)) :
  Forall (fun row => length row = length H_z) H_zCv ->
  sorted_mut_info H_z H_zCv = Ok (map (sorted_row H_z) H_zCv).
Proof.
  intros H. unfold sorted_mut_info.
  rewrite map_r_ok with (h := fun row => map2 (fun c m => - c + m) row H_z).
  - cbn [bind]. rewrite map_map. reflexivity.
  - eapply Forall_impl; [|exact H]. intros row Hr. cbv beta in *.
    unfold broadcast2. rewrite Hr, Nat.eqb_refl. reflexivity.
Qed.

Lemma length_sorted_row (H_z row : list R) :
  length row = length H_z -> length (sorted_row H_z row) = length H_z.
Proof.
  intros H. unfold sorted_row.
  rewrite length_map, (Permutation_length (sort_desc_perm _)), length_map2.
  rewrite H. apply Nat.min_id.
Qed.

Lemma top_pair_top_two (H_z row : list R) :
  length row = length H_z -> (2 <= length H_z)%nat ->
  top_two (mut_info_row H_z row) (fst (top_pair H_z row))
          (snd (top_pair H_z row)).
Proof.
  intros Hr HD. rewrite <- mut_info_row_clamp. apply sorted_top_two.
  rewrite length_map2, Hr, Nat.min_id. exact HD.
Qed.

Lemma ln_INR_pos (s : nat) : (2 <= s)%nat -> 0 < ln (INR s).
Proof.
  intros Hs. rewrite <- ln_1. apply ln_increasing; [lra|].
  change 1 with (INR 1). apply lt_INR. lia.
Qed.

Lemma fsum_fin (l : list R) : fsum (map Fin l) = Fin (rsum l).
Proof.
  unfold fsum. induction l as [|x l IH]; simpl; [reflexivity|].
  rewrite IH. reflexivity.
Qed.

Lemma fmean_fin (l : list R) :
  l <> [] -> fmean (map Fin l) = Fin (rsum l / INR (length l)).
Proof.
  intros Hl. unfold fmean. rewrite fsum_fin, length_map. unfold fdiv.
  destruct (Req_dec_T (INR (length l)) 0) as [E|_]; [|reflexivity].
  exfalso. revert E. apply not_0_INR.
  destruct l; [congruence | discriminate].
Qed.

Lemma map2_combine {A B C : Type} (f : A -> B -> C) (a : list A)
    (b : list B) :
  map2 f a b = map (fun ab => f (fst ab) (snd ab)) (combine a b).
Proof.
  revert b. induction a as [|x a IH]; intros [|y b]; simpl; try reflexivity.
  rewrite IH. reflexivity.
Qed.

(** A gap over the logarithm of a cardinality of at least two is a
    number. *)
Lemma gap_over_log (d : R) (s : nat) :
  (2 <= s)%nat -> fdiv (Fin d) (flog s) = Fin (d / ln (INR s)).
Proof.
  intros Hs. pose proof (ln_INR_pos s Hs) as Hp.
  unfold flog. destruct (Nat.eqb_spec s 0) as [|_]; [lia|].
  cbn [fdiv]. destruct (Req_dec_T (ln (INR s)) 0) as [E|_]; [lra|].
  reflexivity.
Qed.

Lemma gaps_over_logs {X : Type} (a b : X -> R) (xs : list X)
    (lat_sizes : list nat) :
  Forall (fun s => (2 <= s)%nat) lat_sizes ->
  map2 (fun d h => fdiv (Fin d) h) (map (fun x => a x - b x) xs)
       (map flog lat_sizes) =
  map Fin (map (fun ts => (fst (fst ts) - snd (fst ts)) / ln (INR (snd ts)))
               (combine (map (fun x => (a x, b x)) xs) lat_sizes)).
Proof.
  intros Hs. revert xs. induction Hs as [|s ss Hs Hss IH]; intros [|x xs];
    cbn [map map2 combine]; try reflexivity.
  rewrite gap_over_log by exact Hs. rewrite IH. reflexivity.
Qed.

(** C4.  From the marginal entropies [H_z] and the conditional entropies
    [H_zCv] of [K >= 1] factors over at least two latent dimensions, and
    [K] cardinalities of at least two: the aggregator applied to the table
    of line 173 (marginal minus conditional, rows sorted downwards, clamped
    at zero) returns the sum over the factors, divided by [K], of the
    largest minus the second-largest of the mutual informations of the
    factor (each the marginal minus the conditional entropy, or zero when
    that is negative), divided by the natural logarithm of the
    cardinality of the factor; it stores that scalar and the vector of the
    quotients. *)
Theorem mig_is_mean_normalized_gap
    (H_z : list R) (H_zCv : list (list R)) (lat_sizes : list nat)
    (storer : option dict) :
  length H_zCv = length lat_sizes ->
  Forall (fun row => length row = length H_z) H_zCv ->
  (2 <= length H_z)%nat ->
  lat_sizes <> [] ->
  Forall (fun s => (2 <= s)%nat) lat_sizes ->
  exists tops : list (R * R),
    Forall2 (fun row top =>
               top_two (map (fun mc => Rmax (fst mc - snd mc) 0)
                            (combine H_z row))
                       (fst top) (snd top))
            H_zCv tops /\
    let mig_k :=
      map (fun ts => (fst (fst ts) - snd (fst ts)) / ln (INR (snd ts)))
          (combine tops lat_sizes) in
    let mig := rsum mig_k / INR (length lat_sizes) in
    (t <~ sorted_mut_info H_z H_zCv ;;
     _mutual_information_gap t lat_sizes storer) =
    Ok (Fin mig,
        store (store storer "mig_k"%string (PerFactor (map Fin mig_k)))
              "mig"%string (Scalar (Fin mig))).
Proof.
  intros HK Hrows HD Hne Hs.
  exists (map (top_pair H_z) H_zCv). split.
  - clear HK. induction Hrows as [|row t Hr Ht IH]; cbn [map];
      constructor; [|exact IH].
    pose proof (top_pair_top_two H_z row Hr HD) as T.
    unfold mut_info_row in T. rewrite map2_combine in T. exact T.
  - cbv zeta.
    set (mig_k := map _ (combine (map (top_pair H_z) H_zCv) lat_sizes)).
    assert (Lk : length mig_k = length lat_sizes).
    { unfold mig_k. rewrite length_map, length_combine, length_map, HK.
      apply Nat.min_id. }
    rewrite sorted_mut_info_rows by exact Hrows. cbn [bind].
    unfold _mutual_information_gap.
    assert (Hlen : forall j, (j < 2)%nat ->
      Forall (fun row => (j < length row)%nat) (map (sorted_row H_z) H_zCv)).
    { intros j Hj. apply Forall_map. eapply Forall_impl; [|exact Hrows].
      intros row Hr. cbv beta in *. rewrite length_sorted_row by exact Hr. lia. }
    rewrite !column_ok by (apply Hlen; lia). cbn [bind].
    rewrite !map_map, map2_map_map.
    unfold broadcast2. rewrite !length_map, HK, Nat.eqb_refl. cbn [bind].
    rewrite (gaps_over_logs (fun x => nth 0 (sorted_row H_z x) 0)
               (fun x => nth 1 (sorted_row H_z x) 0) H_zCv lat_sizes Hs).
    match goal with
    | |- context [fmean (map Fin ?l)] => change l with mig_k
    end.
    rewrite fmean_fin, Lk; [reflexivity|].
    intros E. rewrite E in Lk. destruct lat_sizes; [congruence | discriminate].
Qed.

(** The largest and second-largest entries are determined by the row. *)
Lemma top_two_unique (row : list R) (a b a' b' : R) :
  top_two row a b -> top_two row a' b' -> a = a' /\ b = b'.
Proof.
  intros (rest & Hp & Hba & Hr) (rest' & Hp' & Hba' & Hr').
  assert (Hmax : forall x y zs us,
    Permutation row (x :: y :: zs) -> y <= x -> Forall (fun z => z <= y) zs ->
    In us row -> us <= x).
  { intros x y zs us P Hyx Hzs Hin.
    apply (Permutation_in _ P) in Hin. destruct Hin as [<-|[<-|Hin]];
      [lra | lra |].
    pose proof (proj1 (Forall_forall _ _) Hzs _ Hin) as Hu. cbv beta in Hu. lra. }
  assert (Ea : a = a').
  { apply Rle_antisym.
    - apply (Hmax a' b' rest' a Hp' Hba' Hr').
      apply (Permutation_in _ (Permutation_sym Hp)). left. reflexivity.
    - apply (Hmax a b rest a' Hp Hba Hr).
      apply (Permutation_in _ (Permutation_sym Hp')). left. reflexivity. }
  split; [exact Ea|]. subst a'.
  assert (P : Permutation (b :: rest) (b' :: rest')).
  { apply Permutation_cons_inv with (a := a).
    eapply perm_trans; [apply Permutation_sym, Hp | exact Hp']. }
  assert (Hle : forall y zs y' zs',
    Permutation (y :: zs) (y' :: zs') -> Forall (fun z => z <= y') zs' ->
    y <= y').
  { intros y zs y' zs' Q Hzs.
    assert (Hin : In y (y' :: zs'))
      by (apply (Permutation_in _ Q); left; reflexivity).
    destruct Hin as [<-|Hin]; [lra|].
    exact (proj1 (Forall_forall _ _) Hzs _ Hin). }
  apply Rle_antisym.
  - apply (Hle b rest b' rest' P Hr').
  - apply (Hle b' rest' b rest (Permutation_sym P) Hr).
Qed.

Lemma rsum_nonneg (l : list R) : Forall (fun x => 0 <= x) l -> 0 <= rsum l.
Proof.
  induction 1 as [|x t Hx Ht IH]; simpl; lra.
Qed.

(** One factor of the AAM: not-a-number arises only as [0 / 0], and is
    replaced by zero. *)
Lemma aam_row (row : list R) :
  row <> [] -> Forall (fun x => 0 <= x) row ->
  nan_to_zero (fdiv (Fin (clamp0 (nth 0 row 0 - rsum (tl row))))
                    (Fin (nth 0 row 0))) =
  Fin (aam_of_factor row).
Proof.
  destruct row as [|top1 others]; [congruence|]. intros _ Hnn.
  inversion Hnn as [|? ? Htop Hothers]; subst.
  pose proof (rsum_nonneg others Hothers) as Hsum.
  cbn [nth tl aam_of_factor fdiv]. unfold clamp0.
  destruct (Req_dec_T top1 0) as [E|Hne].
  - subst top1. destruct (Req_dec_T (Rmax (0 - rsum others) 0) 0) as [_|Hne].
    + reflexivity.
    + exfalso. apply Hne. apply Rmax_right. lra.
  - reflexivity.
Qed.

(** C5.  On a table with at least one factor and one latent dimension and
    no negative entry, the AAM is the mean over the factors of the largest
    entry minus the sum of the others, clamped at zero, over the largest
    entry, with zero for a factor whose largest entry is zero; the result
    is a number, never not-a-number, also when a row is all zero. *)
Theorem aam_is_mean_ratio_never_nan
    (sorted_mut_info : list (list R)) (storer : option dict) :
  sorted_mut_info <> [] ->
  Forall (fun row => row <> []) sorted_mut_info ->
  Forall (Forall (fun x => 0 <= x)) sorted_mut_info ->
  let aam := rsum (map aam_of_factor sorted_mut_info)
             / INR (length sorted_mut_info) in
  _axis_aligned_metric sorted_mut_info storer =
  Ok (Fin aam,
      store (store storer "aam_k"%string
               (PerFactor (map (fun row => Fin (aam_of_factor row))
                               sorted_mut_info)))
            "aam"%string (Scalar (Fin aam))) /\
  (forall v d, _axis_aligned_metric sorted_mut_info storer = Ok (v, d) ->
               is_nan v = false).
Proof.
  intros Hne Hrows Hnn aam.
  assert (E : _axis_aligned_metric sorted_mut_info storer =
    Ok (Fin aam,
        store (store storer "aam_k"%string
                 (PerFactor (map (fun row => Fin (aam_of_factor row))
                                 sorted_mut_info)))
              "aam"%string (Scalar (Fin aam)))).
  { unfold _axis_aligned_metric.
    rewrite column_ok.
    2:{ eapply Forall_impl; [|exact Hrows]. intros [|x row] H;
          [congruence | simpl; lia]. }
    cbn [bind].
    rewrite map2_map_map, map_map, map2_map_map, map_map.
    assert (Ek : map (fun x => nan_to_zero
                   (fdiv (Fin (clamp0 (nth 0 x 0 - rsum (tl x))))
                         (Fin (nth 0 x 0)))) sorted_mut_info =
                 map Fin (map aam_of_factor sorted_mut_info)).
    { rewrite map_map. apply map_ext_in. intros row Hin.
      apply aam_row.
      - exact (proj1 (Forall_forall _ _) Hrows _ Hin).
      - exact (proj1 (Forall_forall _ _) Hnn _ Hin). }
    rewrite Ek, fmean_fin.
    2:{ destruct sorted_mut_info; [congruence | discriminate]. }
    rewrite length_map, map_map. reflexivity. }
  split; [exact E|].
  intros v d Hv. rewrite E in Hv. inversion Hv. reflexivity.
Qed.

End ScoreFacts.

(** The scores of two factors over two latent dimensions. *)
Lemma mig_is_mean_normalized_gap_witness :
  exists tops : list (R * R),
    Forall2 (fun row top =>
               top_two (map (fun mc => Rmax (fst mc - snd mc) 0)
                            (combine [2; 1]%R row))
                       (fst top) (snd top))
            [[1; 1]; [0; 1]]%R tops /\
    let mig_k :=
      map (fun ts => ((fst (fst ts) - snd (fst ts)) / ln (INR (snd ts)))%R)
          (combine tops [2; 3]) in
    let mig := (rsum mig_k / INR (length [2; 3]))%R in
    (t <~ sorted_mut_info [2; 1]%R [[1; 1]; [0; 1]]%R ;;
     _mutual_information_gap t [2; 3] (Some [])) =
    Ok (Fin mig,
        store (store (Some []) "mig_k"%string (PerFactor (map Fin mig_k)))
              "mig"%string (Scalar (Fin mig))).
Proof.
  apply (mig_is_mean_normalized_gap [2; 1]%R [[1; 1]; [0; 1]]%R [2; 3]
           (Some [])).
  - reflexivity.
  - repeat constructor.
  - simpl. lia.
  - discriminate.
  - repeat constructor.
Defined.

(** The AAM of a table with an all-zero row. *)
Lemma aam_is_mean_ratio_never_nan_witness :
  let t := [[0; 0]; [2; 1]]%R in
  let aam := (rsum (map aam_of_factor t) / INR (length t))%R in
  _axis_aligned_metric t None = Ok (Fin aam, None) /\
  (forall v d, _axis_aligned_metric t None = Ok (v, d) -> is_nan v = false).
Proof.
  apply (aam_is_mean_ratio_never_nan [[0; 0]; [2; 1]]%R None).
  - discriminate.
  - repeat constructor; discriminate.
  - repeat constructor; lra.
Defined.

(** ** The paired-sample builder *)

Section PairedSampleFacts.

Variable rng : Type.
Variable randint : Z -> nat -> rng -> list Z * rng.
Variable image : Type.

(** [np.random.randint high size] draws [size] values below [high]. *)
Hypothesis randint_length :
  forall high size g, length (fst (randint high size g)) = size.
Hypothesis randint_range :
  forall high size g,
    (0 < high)%Z ->
    Forall (fun v => (0 <= v < high)%Z) (fst (randint high size g)).

Lemma np_randint_returns (high : Z) (size : nat) (g : rng) :
  (0 < high)%Z ->
  np_randint rng randint high size g =
  (Ok (fst (randint high size g)), snd (randint high size g)).
Proof.
  intros H. unfold np_randint.
  destruct (Z.leb_spec high 0); [lia|].
  destruct (randint high size g); reflexivity.
Qed.

(** The loop over the factors from factor [a] on: the factor [k] gets the
    shared column in both tables, every other factor two draws. *)
Lemma sample_loop (sample_size : nat) (k : nat) (y_lat : list Z)
    (size_y : Z) (ss : list Z) :
  length y_lat = sample_size ->
  forall (a : nat) (acc1 acc2 : list (list Z)) (g : rng),
    Forall (fun s => (0 < s)%Z) ss ->
    (forall s, nth_error ss (k - a) = Some s -> a <= k -> s = size_y) ->
    Forall (fun v => (0 <= v < size_y)%Z) y_lat ->
    exists new1 new2 g',
      for_each (combine (seq a (length ss)) ss)
        (fun acc fac =>
           let '(samples1, samples2) := acc in
           let '(i, lat_size) := fac in
           c1 <- (if (Z.of_nat i =? Z.of_nat k)%Z then ret y_lat
                  else np_randint rng randint lat_size sample_size) ;;
           samples1 <- lift (set_column sample_size samples1 c1) ;;
           c2 <- (if (Z.of_nat i =? Z.of_nat k)%Z then ret y_lat
                  else np_randint rng randint lat_size sample_size) ;;
           samples2 <- lift (set_column sample_size samples2 c2) ;;
           ret (samples1, samples2))
        (acc1, acc2) g = (Ok (acc1 ++ new1, acc2 ++ new2), g') /\
      Forall2 (valid_column sample_size) new1 ss /\
      Forall2 (valid_column sample_size) new2 ss /\
      (a <= k < a + length ss ->
       nth (k - a) new1 [] = y_lat /\ nth (k - a) new2 [] = y_lat).
Proof.
  intros Hy.
  set (body := fun (acc : list (list Z) * list (list Z)) (fac : nat * Z) =>
           let '(samples1, samples2) := acc in
           let '(i, lat_size) := fac in
           c1 <- (if (Z.of_nat i =? Z.of_nat k)%Z then ret y_lat
                  else np_randint rng randint lat_size sample_size) ;;
           samples1 <- lift (set_column sample_size samples1 c1) ;;
           c2 <- (if (Z.of_nat i =? Z.of_nat k)%Z then ret y_lat
                  else np_randint rng randint lat_size sample_size) ;;
           samples2 <- lift (set_column sample_size samples2 c2) ;;
           ret (samples1, samples2)).
  induction ss as [|s ss IH]; intros a acc1 acc2 g Hpos Hk Hr.
  - exists [], [], g. rewrite !app_nil_r. simpl.
    repeat split; try constructor; lia.
  - pose proof (Forall_inv Hpos) as Hs. pose proof (Forall_inv_tail Hpos) as Hss.
    cbv beta in Hs.
    cbn [length seq combine for_each].
    destruct (Z.eqb_spec (Z.of_nat a) (Z.of_nat k)) as [E|E].
    + apply Nat2Z.inj in E. subst a.
      assert (Es : s = size_y)
        by (apply Hk; [rewrite Nat.sub_diag; reflexivity | lia]).
      subst s.
      destruct (IH (S k) (acc1 ++ [y_lat]) (acc2 ++ [y_lat]) g Hss)
        as (n1 & n2 & g' & El & V1 & V2 & _).
      { intros s Hs' Hle. lia. }
      { exact Hr. }
      exists (y_lat :: n1), (y_lat :: n2), g'.
      unfold mbind at 1. unfold body at 1.
      rewrite Z.eqb_refl.
      unfold mbind, ret, lift, set_column. rewrite Hy, Nat.eqb_refl.
      fold body. rewrite El, <- !app_assoc. cbn [app].
      repeat split; try (constructor; [split; assumption | assumption]);
        rewrite Nat.sub_diag; reflexivity.
    + assert (Hak : a <> k) by (intros ->; apply E; reflexivity).
      pose proof (randint_length s sample_size g) as L1.
      pose proof (randint_range s sample_size g Hs) as R1.
      pose proof (randint_length s sample_size
                    (snd (randint s sample_size g))) as L2.
      pose proof (randint_range s sample_size
                    (snd (randint s sample_size g)) Hs) as R2.
      destruct (IH (S a)
                  (acc1 ++ [fst (randint s sample_size g)])
                  (acc2 ++ [fst (randint s sample_size
                                   (snd (randint s sample_size g)))])
                  (snd (randint s sample_size
                          (snd (randint s sample_size g)))) Hss)
        as (n1 & n2 & g' & El & V1 & V2 & Hsh).
      { intros s' Hs' Hle. apply Hk; [|lia].
        replace (k - a) with (S (k - S a)) by lia. exact Hs'. }
      { exact Hr. }
      eexists (_ :: n1), (_ :: n2), g'.
      unfold mbind at 1. unfold body at 1.
      destruct (Z.eqb_spec (Z.of_nat a) (Z.of_nat k)) as [E'|_];
        [contradiction|].
      unfold mbind at 1.
      rewrite np_randint_returns by exact Hs.
      unfold mbind at 1. unfold lift at 1, set_column at 1.
      rewrite L1, Nat.eqb_refl.
      unfold mbind at 1.
      rewrite np_randint_returns by exact Hs.
      unfold mbind at 1. unfold lift at 1, set_column at 1.
      rewrite L2, Nat.eqb_refl.
      unfold ret at 1. fold body. rewrite El, <- !app_assoc. cbn [app].
      repeat split; try (constructor; [split; assumption | assumption]).
      * destruct Hsh as [Hsh _]; [simpl in *; lia|].
        replace (k - a) with (S (k - S a)) by (simpl in *; lia). exact Hsh.
      * destruct Hsh as [_ Hsh]; [simpl in *; lia|].
        replace (k - a) with (S (k - S a)) by (simpl in *; lia). exact Hsh.
Qed.

Lemma np_getitem_in_range {A : Type} (a : list A) (i : Z) :
  (0 <= i < Z.of_nat (length a))%Z ->
  exists x, np_getitem a i = Ok x /\ nth_error a (Z.to_nat i) = Some x.
Proof.
  intros H. unfold np_getitem.
  destruct (Z.ltb_spec i 0); [lia|].
  destruct (Z.leb_spec 0 i); [|lia].
  destruct (Z.ltb_spec i (Z.of_nat (length a))); [|lia].
  cbn [andb].
  destruct (nth_error a (Z.to_nat i)) as [x|] eqn:E.
  - exists x. split; reflexivity.
  - apply nth_error_None in E. lia.
Qed.

Lemma map_r_returns {A B : Type} (f : A -> result B) (l : list A) :
  (forall x, In x l -> exists y, f x = Ok y) ->
  exists ys, map_r f l = Ok ys /\ Forall2 (fun x y => f x = Ok y) l ys.
Proof.
  induction l as [|x l IH]; intros H.
  - exists []. split; [reflexivity | constructor].
  - destruct (H x (or_introl eq_refl)) as (y & Ey).
    destruct (IH (fun z Hz => H z (or_intror Hz))) as (ys & Eys & F).
    exists (y :: ys). cbn [map_r]. rewrite Ey, Eys.
    split; [reflexivity | constructor; assumption].
Qed.

(** What [sample_factors] returns: the factor [k], drawn first, has one
    column shared by the two tables, and every column holds
    [sample_size] values of its factor. *)
Lemma sample_factors_returns (sample_size : nat) (lat_sizes : list Z)
    (g : rng) :
  lat_sizes <> [] ->
  Forall (fun s => (0 < s)%Z) lat_sizes ->
  exists (k : nat) (samples1 samples2 : list (list Z)) (g' : rng),
    sample_factors rng randint sample_size lat_sizes g =
      (Ok (Z.of_nat k, samples1, samples2), g') /\
    [Z.of_nat k] = fst (randint (Z.of_nat (length lat_sizes)) 1 g) /\
    k < length lat_sizes /\
    nth k samples1 [] = nth k samples2 [] /\
    Forall2 (valid_column sample_size) samples1 lat_sizes /\
    Forall2 (valid_column sample_size) samples2 lat_sizes.
Proof.
  intros Hne Hpos.
  assert (HK : (0 < Z.of_nat (length lat_sizes))%Z)
    by (destruct lat_sizes; [congruence | simpl; lia]).
  pose proof (randint_length (Z.of_nat (length lat_sizes)) 1 g) as Ly.
  pose proof (randint_range (Z.of_nat (length lat_sizes)) 1 g HK) as Ry.
  unfold sample_factors. unfold mbind at 1.
  rewrite np_randint_returns by exact HK.
  destruct (fst (randint (Z.of_nat (length lat_sizes)) 1 g))
    as [|y [|? ?]] eqn:Ey; try discriminate.
  clear Ly. pose proof (Forall_inv Ry) as Hy. cbv beta in Hy. clear Ry.
  cbn [hd].
  destruct (np_getitem_in_range lat_sizes y Hy) as (size_y & Eg & En).
  unfold mbind at 1, lift at 1. rewrite Eg.
  assert (Hsy : (0 < size_y)%Z).
  { apply nth_error_In in En.
    exact (proj1 (Forall_forall _ _) Hpos _ En). }
  unfold mbind at 1. rewrite np_randint_returns by exact Hsy.
  set (g1 := snd (randint (Z.of_nat (length lat_sizes)) 1 g)).
  set (y_lat := fst (randint size_y sample_size g1)).
  set (g2 := snd (randint size_y sample_size g1)).
  replace y with (Z.of_nat (Z.to_nat y)) by lia.
  destruct (sample_loop sample_size (Z.to_nat y) y_lat size_y lat_sizes
              (randint_length _ _ _) 0 [] [] g2 Hpos)
    as (n1 & n2 & g' & El & V1 & V2 & Hsh).
  { intros s Hs _. rewrite Nat.sub_0_r in Hs. congruence. }
  { apply randint_range. exact Hsy. }
  cbn [app] in El. unfold mbind at 1. rewrite El.
  exists (Z.to_nat y), n1, n2, g'. unfold ret. cbn [fst snd].
  destruct Hsh as [S1 S2]; [lia|]. rewrite Nat.sub_0_r in S1, S2.
  repeat split; try assumption; try lia. congruence.
Qed.

Lemma valid_row_of (sample_size : nat) (cols : list (list Z))
    (lat_sizes : list Z) (s : nat) :
  Forall2 (valid_column sample_size) cols lat_sizes -> s < sample_size ->
  valid_factors lat_sizes (row_of cols s).
Proof.
  intros H Hs. unfold valid_factors, row_of.
  induction H as [|col sz cols szs [Hl Hr] Hc IH]; cbn [map];
    constructor; [|exact IH].
  apply (proj1 (Forall_forall _ _) Hr). apply nth_In. lia.
Qed.

Lemma map_r_compose {A B C : Type} (f : A -> result B) (h : B -> result C)
    (l : list A) :
  forall ys, map_r f l = Ok ys ->
             map_r h ys = map_r (fun x => y <~ f x ;; h y) l.
Proof.
  induction l as [|x l IH]; intros ys H; cbn [map_r] in *.
  - inversion H. reflexivity.
  - destruct (f x) as [y|e]; [|discriminate]. cbn [bind] in *.
    destruct (map_r f l) as [r|e]; [|discriminate]. cbn [bind] in *.
    inversion H; subst. cbn [map_r]. rewrite (IH r eq_refl). reflexivity.
Qed.

(** On a dense dataset every row of valid factor values has its image. *)
Lemma images_at_returns (sample_size : nat) (lat_sizes : list Z)
    (imgs : list image) (cols : list (list Z)) :
  lat_sizes <> [] ->
  (dataset_len lat_sizes <= 2 ^ 53)%Z ->
  Z.of_nat (length imgs) = dataset_len lat_sizes ->
  Forall2 (valid_column sample_size) cols lat_sizes ->
  exists sampled,
    images_at image sample_size lat_sizes imgs cols = Ok sampled /\
    Forall2 (fun s im => image_of_row image lat_sizes imgs cols s = Ok im)
            (seq 0 sample_size) sampled.
Proof.
  intros Hne Hb Hlen Hc.
  assert (Hrow : forall s, In s (seq 0 sample_size) ->
    exists idx, latent_index lat_sizes (row_of cols s) = Ok idx /\
                (0 <= idx < dataset_len lat_sizes)%Z).
  { intros s Hs. apply in_seq in Hs.
    pose proof (valid_row_of _ _ _ s Hc ltac:(lia)) as Hv.
    exists (Numpy.dot_aux (row_of cols s) (tail_products lat_sizes)).
    unfold latent_index, Numpy.dot.
    rewrite latents_bases_exact;
      [| exact Hne | eapply valid_factors_pos; exact Hv | lia].
    rewrite length_tail_products, (Forall2_length Hv), Nat.eqb_refl.
    split; [reflexivity | apply dot_aux_range; exact Hv]. }
  destruct (map_r_returns
              (fun s => latent_index lat_sizes (row_of cols s))
              (seq 0 sample_size)) as (idxs & Ei & _).
  { intros s Hs. destruct (Hrow s Hs) as (idx & E & _). eauto. }
  unfold images_at. rewrite Ei. cbn [bind].
  rewrite (map_r_compose _ (np_getitem imgs) _ _ Ei).
  apply (map_r_returns (image_of_row image lat_sizes imgs cols)).
  intros s Hs. destruct (Hrow s Hs) as (idx & E & Hr).
  unfold image_of_row. rewrite E. cbn [bind].
  destruct (np_getitem_in_range imgs idx) as (x & Ex & _); [lia | eauto].
Qed.



Lemma nth_map2 {A B C : Type} (f : A -> B -> C) (a : list A) (b : list B)
    (n : nat) (da : A) (db : B) (dc : C) :
  n < length a -> n < length b ->
  nth n (map2 f a b) dc = f (nth n a da) (nth n b db).
Proof.
  revert a b. induction n as [|n IH]; intros [|x a] [|y b] Ha Hb;
    simpl in *; try lia; [reflexivity | apply IH; lia].
Qed.

Lemma list_as_map_nth_gen {A : Type} (d : A) (l : list A) :
  l = map (fun j => nth j l d) (seq 0 (length l)).
Proof.
  induction l as [|x t IH]; [reflexivity|].
  cbn [length seq map nth]. f_equal.
  rewrite <- seq_shift, map_map. exact IH.
Qed.

(** The column means of the absolute differences of two tables with
    [sample_size] rows and [latent_dim] columns. *)
Lemma mean_dim0_abs_sub (sample_size latent_dim : nat)
    (mu1 mu2 : list (list R)) :
  0 < sample_size ->
  length mu1 = sample_size -> length mu2 = sample_size ->
  Forall (fun r => length r = latent_dim) mu1 ->
  Forall (fun r => length r = latent_dim) mu2 ->
  mean_dim0 (abs_sub mu1 mu2) = mean_abs_diff sample_size latent_dim mu1 mu2.
Proof.
  intros HS L1 L2 F1 F2.
  assert (Lz : length (abs_sub mu1 mu2) = sample_size)
    by (unfold abs_sub; rewrite length_map2; lia).
  assert (Hrow : forall s, s < sample_size ->
    nth s (abs_sub mu1 mu2) [] =
    map2 (fun a b => Rabs (a - b)) (nth s mu1 []) (nth s mu2 [])).
  { intros s Hs. unfold abs_sub.
    apply nth_map2 with (da := []) (db := []); lia. }
  assert (Hw : forall s, s < sample_size ->
    length (nth s mu1 []) = latent_dim /\ length (nth s mu2 []) = latent_dim).
  { intros s Hs. split.
    - apply (proj1 (Forall_forall _ _) F1). apply nth_In. lia.
    - apply (proj1 (Forall_forall _ _) F2). apply nth_In. lia. }
  unfold mean_dim0, mean_abs_diff.
  destruct (abs_sub mu1 mu2) as [|r z] eqn:Ez; [simpl in Lz; lia|].
  assert (Lr : length r = latent_dim).
  { pose proof (Hrow 0 HS) as H0. cbn [nth] in H0. rewrite H0.
    rewrite length_map2. destruct (Hw 0 HS) as [-> ->]. apply Nat.min_id. }
  rewrite Lr, Lz. apply map_ext_in. intros d Hd. apply in_seq in Hd.
  f_equal. f_equal.
  rewrite (list_as_map_nth_gen [] (r :: z)) at 1. rewrite Lz, map_map.
  apply map_ext_in. intros s Hs. apply in_seq in Hs.
  rewrite Hrow by lia. destruct (Hw s ltac:(lia)) as [W1 W2].
  apply (nth_map2 (fun a b => Rabs (a - b))%R); lia.
Qed.

Section Records.

Variable encoder_mean : list image -> list (list R).
Variable latent_dim : nat.

(** Every representation maps a batch to one vector of [latent_dim]
    entries per image. *)
Hypothesis encoder_shape :
  forall batch, table_shape (length batch) latent_dim (encoder_mean batch).

Lemma method_outputs_known (method : String.string)
    (transform : list image -> list (list R)) (imgs1 imgs2 : list image) :
  In method ["VAE"; "PCA"; "ICA"]%string ->
  method_outputs image encoder_mean method transform imgs1 imgs2 =
  Ok (representation image encoder_mean method transform imgs1,
      representation image encoder_mean method transform imgs2).
Proof.
  intros [<-|[<-|[<-|[]]]]; reflexivity.
Qed.

Lemma representation_shape (method : String.string)
    (transform : list image -> list (list R)) (batch : list image) :
  (forall b, table_shape (length b) latent_dim (transform b)) ->
  table_shape (length batch) latent_dim
    (representation image encoder_mean method transform batch).
Proof.
  intros H. unfold representation.
  destruct (String.eqb method "VAE"); [apply encoder_shape | apply H].
Qed.

End Records.

End PairedSampleFacts.

(** *** Independence of the two tables *)

Section TapeFacts.




End TapeFacts.

(** *** The record of one invocation *)

Section PairedSampleRecord.

Variable rng : Type.
Variable randint : Z -> nat -> rng -> list Z * rng.
Variable image : Type.
Variable encoder_mean : list image -> list (list R).
Variable latent_dim : nat.

Hypothesis randint_length :
  forall high size g, length (fst (randint high size g)) = size.
Hypothesis randint_range :
  forall high size g,
    (0 < high)%Z ->
    Forall (fun v => (0 <= v < high)%Z) (fst (randint high size g)).
Hypothesis encoder_shape :
  forall batch, table_shape (length batch) latent_dim (encoder_mean batch).


End PairedSampleRecord.

(** ** The evaluator *)

Section EvaluatorFacts.

Variable St : Type.
Variable randperm : nat -> St -> list nat * St.
Variable randint : Z -> nat -> St -> list Z * St.
Variable log_density_gaussian : R -> R -> R -> R.
Variable image flat batch : Type.
Variable flatten : image -> flat.
Variable latent_dim : nat.
Variable pca_model ica_model : Type.
Variable pca_fit : nat -> bool -> list flat -> M St pca_model.
Variable ica_fit : nat -> list flat -> M St ica_model.
Variable classifier_accuracies :
  bool -> pydict (method_model pca_model ica_model) -> nat -> list Z ->
  list image -> nat -> nat -> nat -> bool -> M St (pydict R).
Variable _compute_q_zCx :
  bool -> list batch -> M St (tensor * (tensor * tensor)).
Variable forward_loss :
  bool -> batch -> pydict (list R) -> M St (pydict (list R)).
Variable call_optimize :
  bool -> batch -> pydict (list R) -> M St (pydict (list R)).

Local Abbreviation W := (world St).

(** *** Files *)

Lemma keeps_files_lift {A : Type} (r : result A) :
  keeps_files (St := St) (lift r).
Proof. intros w. reflexivity. Qed.

Lemma keeps_files_outside {A : Type} (m : M St A) :
  keeps_files (outside St m).
Proof. intros w. unfold outside. destruct (m (ext St w)). reflexivity. Qed.

Lemma keeps_files_run_model {A : Type} (m : bool -> M St A) :
  keeps_files (run_model St m).
Proof.
  intros w. unfold run_model.
  destruct (m (training St w) (ext St w)). reflexivity.
Qed.

Lemma raises_bind {A B : Type} (m : M W A) (f : A -> M W B) :
  keeps_files m -> (forall a, raises_keeping_files (f a)) ->
  raises_keeping_files (mbind m f).
Proof.
  intros Hm Hf w. unfold mbind. specialize (Hm w).
  destruct (m w) as [[a|e] w1]; cbn [snd] in Hm.
  - destruct (Hf a w1) as [He Hfiles]. split; [exact He | congruence].
  - split; [exists e; reflexivity | exact Hm].
Qed.

Lemma raises_lookup_unbound {A B : Type} (f : A -> M W B) :
  raises_keeping_files (St := St) (mbind (lift (lookup (@None A))) f).
Proof.
  intros w. split; [exists NameError; reflexivity | reflexivity].
Qed.

(** *** Modes *)

Lemma eval_safe_lift {A : Type} (r : result A) :
  eval_safe (St := St) (lift r).
Proof.
  intros w Hw. split; [exact Hw|]. exists []. rewrite app_nil_r.
  split; [reflexivity | constructor].
Qed.

Lemma eval_safe_ret {A : Type} (a : A) : eval_safe (St := St) (ret a).
Proof.
  intros w Hw. split; [exact Hw|]. exists []. rewrite app_nil_r.
  split; [reflexivity | constructor].
Qed.

Lemma eval_safe_outside {A : Type} (m : M St A) : eval_safe (outside St m).
Proof.
  intros w Hw. unfold outside. destruct (m (ext St w)). cbn [snd training runs].
  split; [exact Hw|]. exists []. rewrite app_nil_r.
  split; [reflexivity | constructor].
Qed.

Lemma eval_safe_run_model {A : Type} (m : bool -> M St A) :
  eval_safe (run_model St m).
Proof.
  intros w Hw. unfold run_model.
  destruct (m (training St w) (ext St w)). cbn [snd training runs].
  split; [exact Hw|]. exists [training St w].
  split; [reflexivity | constructor; [exact Hw | constructor]].
Qed.

Lemma eval_safe_write_file (filename : String.string) (c : file_content) :
  eval_safe (write_file St filename c).
Proof.
  intros w Hw. cbn. split; [exact Hw|]. exists []. rewrite app_nil_r.
  split; [reflexivity | constructor].
Qed.

Lemma eval_safe_bind {A B : Type} (m : M W A) (f : A -> M W B) :
  eval_safe m -> (forall a, eval_safe (f a)) -> eval_safe (mbind m f).
Proof.
  intros Hm Hf w Hw. unfold mbind.
  destruct (Hm w Hw) as (Ht & new & Hr & Hn).
  destruct (m w) as [[a|e] w1]; cbn [snd] in *.
  - destruct (Hf a w1 Ht) as (Ht' & new' & Hr' & Hn').
    split; [exact Ht'|]. exists (new ++ new').
    rewrite Hr', Hr, app_assoc.
    split; [reflexivity | apply Forall_app; split; assumption].
  - split; [exact Ht|]. exists new. split; assumption.
Qed.

Ltac eval_safe_steps :=
  repeat first
    [ apply eval_safe_ret
    | apply eval_safe_lift
    | apply eval_safe_outside
    | apply eval_safe_run_model
    | apply eval_safe_write_file
    | apply eval_safe_bind; [|intros ?]
    | match goal with
      | |- eval_safe (match ?x with _ => _ end) => destruct x
      | |- eval_safe (let (_, _) := ?x in _) => destruct x
      end ].

Lemma eval_safe_compute_losses (dataloader : list batch) :
  eval_safe (compute_losses St batch forward_loss call_optimize dataloader).
Proof.
  unfold compute_losses. eval_safe_steps.
Qed.

Lemma eval_safe_compute_metrics (d : dataset image) (dataloader : list batch) :
  eval_safe (compute_metrics St randperm randint log_density_gaussian
               image flat batch flatten latent_dim pca_model ica_model
               pca_fit ica_fit classifier_accuracies _compute_q_zCx
               d dataloader).
Proof.
  unfold compute_metrics. eval_safe_steps.
Qed.

Ltac raises_steps :=
  repeat first
    [ apply raises_lookup_unbound
    | apply raises_bind;
        [ first [ apply keeps_files_lift
                | apply keeps_files_outside
                | apply keeps_files_run_model ]
        | intros ? ]
    | match goal with
      | |- raises_keeping_files (match ?x with _ => _ end) => destruct x
      | |- raises_keeping_files (let (_, _) := ?x in _) => destruct x
      end ].

(** C1.  Whatever the dataset, the dataloader and the outcome of every
    step, [compute_metrics] returns no metrics record and writes no file:
    an exception is raised, at the latest by the unbound name
    [non_linear_accuracies] of line 179, before the metric helpers are
    saved on line 180. *)
Theorem compute_metrics_never_returns
    (d : dataset image) (dataloader : list batch) (w : W) :
  (exists e,
     fst (compute_metrics St randperm randint log_density_gaussian
            image flat batch flatten latent_dim pca_model ica_model
            pca_fit ica_fit classifier_accuracies _compute_q_zCx
            d dataloader w) = Raise e) /\
  files St (snd (compute_metrics St randperm randint log_density_gaussian
                   image flat batch flatten latent_dim pca_model ica_model
                   pca_fit ica_fit classifier_accuracies _compute_q_zCx
                   d dataloader w)) = files St w.
Proof.
  revert w.
  change (raises_keeping_files
            (compute_metrics St randperm randint log_density_gaussian
               image flat batch flatten latent_dim pca_model ica_model
               pca_fit ica_fit classifier_accuracies _compute_q_zCx
               d dataloader)).
  unfold compute_metrics. raises_steps.
Qed.

(** C10.  A call that returns leaves the model in the mode it found it
    in, and every run of the model inside the call, for the losses or for
    the metrics, was in evaluation mode. *)
Theorem call_restores_training_mode
    (d : dataset image) (dataloader : list batch)
    (is_metrics is_losses : bool) (w w' : W)
    (v : option metrics_record * option (pydict R)) :
  __call__ St randperm randint log_density_gaussian image flat batch flatten
    latent_dim pca_model ica_model pca_fit ica_fit classifier_accuracies
    _compute_q_zCx forward_loss call_optimize
    d dataloader is_metrics is_losses w = (Ok v, w') ->
  training St w' = training St w /\
  exists new, runs St w' = runs St w ++ new /\
              Forall (fun mode => mode = false) new.
Proof.
  unfold __call__. unfold mbind at 1. unfold mbind at 1.
  unfold model_eval at 1.
  set (w0 := {| training := false; ext := ext St w; files := files St w;
                runs := runs St w |}).
  set (body1 := if is_metrics then _ else _).
  set (body2 := if is_losses then _ else _).
  assert (S1 : eval_safe body1).
  { subst body1. destruct is_metrics; [|apply eval_safe_ret].
    apply eval_safe_bind; [apply eval_safe_compute_metrics|].
    intros m. apply eval_safe_write_file. }
  assert (S2 : eval_safe body2).
  { subst body2. destruct is_losses; [|apply eval_safe_ret].
    apply eval_safe_bind; [apply eval_safe_compute_losses|].
    intros l. apply eval_safe_bind; [apply eval_safe_write_file|].
    intros _. apply eval_safe_ret. }
  unfold mbind at 1.
  destruct (S1 w0 eq_refl) as (T1 & n1 & R1 & F1).
  destruct (body1 w0) as [[u|e] w1]; [|discriminate]. cbn [snd] in *.
  unfold mbind at 1.
  destruct (S2 w1 T1) as (T2 & n2 & R2 & F2).
  destruct (body2 w1) as [[l|e] w2]; [|discriminate]. cbn [snd] in *.
  unfold mbind at 1.
  assert (Hr : runs St w2 = runs St w ++ (n1 ++ n2)).
  { rewrite R2, R1. subst w0. cbn [runs]. rewrite app_assoc. reflexivity. }
  destruct (training St w) eqn:Ew.
  - cbn. intros H. inversion H; subst. cbn [training runs].
    split; [reflexivity|]. exists (n1 ++ n2).
    split; [exact Hr | apply Forall_app; split; assumption].
  - cbn. intros H. inversion H; subst.
    split; [exact T2|]. exists (n1 ++ n2).
    split; [exact Hr | apply Forall_app; split; assumption].
Qed.

End EvaluatorFacts.

(** ** The evaluator on small inputs *)

Section SmallEvaluations.

Lemma number_encoder_shape (b : list nat) :
  table_shape (length b) 1 (number_encoder b).
Proof.
  unfold table_shape, number_encoder. split; [apply length_map|].
  apply Forall_map. apply Forall_forall. intros im _. reflexivity.
Qed.

Lemma zero_randint_range (high : Z) (size : nat) (g : unit) :
  (0 < high)%Z ->
  Forall (fun v => (0 <= v < high)%Z) (fst (zero_randint high size g)).
Proof.
  intros H. apply Forall_forall. intros v Hv.
  apply repeat_spec in Hv. subst v. lia.
Qed.




(** What is drawn there: factor 1 is held fixed with the values 2, 0 and
    1, and the images are 5, 0, 4 in the first set and 2, 3, 1 in the
    second. *)
Example counting_draws :
  sample_factors Z counting_randint 3 [2; 3]%Z 1%Z =
  (Ok (1%Z, [[1; 0; 1]; [2; 0; 1]]%Z, [[0; 1; 0]; [2; 0; 1]]%Z), 11%Z).
Proof. vm_compute. reflexivity. Qed.

Example counting_images :
  _images_from_data_gen Z counting_randint nat 3 [2; 3]%Z [0; 1; 2; 3; 4; 5]
    1%Z =
  (Ok ([5; 0; 4], [2; 3; 1], 1%Z), 11%Z).
Proof. vm_compute. reflexivity. Qed.

(** The record of these draws: the outputs differ by 3 on every sample. *)
Example counting_record :
  _compute_z_b_diff_y Z counting_randint nat number_encoder
    [("VAE"%string, number_encoder)] 3 [2; 3]%Z [0; 1; 2; 3; 4; 5] 1%Z =
  (Ok [("VAE"%string, ([3%R], 1%Z))], 11%Z).
Proof.
  unfold _compute_z_b_diff_y. unfold mbind at 1. rewrite counting_images.
  unfold lift. f_equal. cbn [map_r method_outputs String.eqb Ascii.eqb
    Bool.eqb bind fst snd number_encoder map abs_sub map2 mean_dim0 length
    seq nth rsum fold_right].
  replace (INR 5 - INR 2)%R with 3%R by (simpl; lra).
  replace (INR 0 - INR 3)%R with (- (3))%R by (simpl; lra).
  replace (INR 4 - INR 1)%R with 3%R by (simpl; lra).
  rewrite Rabs_Ropp, !Rabs_pos_eq by lra.
  replace ((3 + (3 + (3 + 0))) / INR 3)%R with 3%R by (simpl; lra).
  reflexivity.
Qed.


Example sample_factors_on_tape :
  sample_factors (list (list Z)) tape_randint 2 [2; 3]%Z
    (tape_of 1 [[0; 1]; [2; 0]]%Z [[1; 1]; [2; 0]]%Z) =
  (Ok (1%Z, [[0; 1]; [2; 0]]%Z, [[1; 1]; [2; 0]]%Z), []).
Proof. reflexivity. Qed.

(** A call for the losses only, on a model in training mode. *)
Lemma call_restores_training_mode_witness :
  let w := {| training := true; ext := tt; files := []; runs := [] |} in
  let w' := {| training := true; ext := tt;
               files := [(TEST_LOSSES_FILE, LossesFile (Some []))];
               runs := [false] |} in
  training unit w' = training unit w /\
  exists new, runs unit w' = runs unit w ++ new /\
              Forall (fun mode => mode = false) new.
Proof.
  intros w w'.
  apply (call_restores_training_mode unit sorted_randperm zero_randint
           (fun x mu lv => (x - mu - lv)%R) nat nat unit (fun im => im) 1
           unit unit (fun _ _ _ => ret tt) (fun _ _ => ret tt)
           (fun _ _ _ _ _ _ _ _ _ => ret [])
           (fun _ _ => ret (grid_2_3, (grid_2_3, grid_2_3)))
           (fun _ _ storer => ret storer) (fun _ _ storer => ret storer)
           {| lat_sizes_attr := None; lat_names_attr := None;
              imgs_attr := None |}
           [tt] false true w w' (None, Some [])).
  reflexivity.
Defined.

(** C9.  With ICA requested and PCA not trained before it, the ICA branch
    raises on the unbound name [imgs_pca] (line 214) instead of fitting;
    with PCA trained first, its indices are drawn below the length of the
    PCA subsample, not below the number of images: on six images a draw of
    4999 is out of range. *)
Theorem ica_training_needs_pca_first :
  (forall (St image flat pca_model ica_model : Type)
          (randint : Z -> nat -> St -> list Z * St) (flatten : image -> flat)
          (latent_dim : nat)
          (pca_fit : nat -> bool -> list flat -> M St pca_model)
          (ica_fit : nat -> list flat -> M St ica_model)
          (imgs : list image) (g : St),
     train_methods St randint image flat flatten latent_dim pca_model
       ica_model pca_fit ica_fit ["ICA"]%string imgs g = (Raise NameError, g) /\
     train_methods St randint image flat flatten latent_dim pca_model
       ica_model pca_fit ica_fit ["VAE"; "ICA"]%string imgs g
       = (Raise NameError, g) /\
     train_methods St randint image flat flatten latent_dim pca_model
       ica_model pca_fit ica_fit ["ICA"; "PCA"]%string imgs g
       = (Raise NameError, g)) /\
  fst (train_methods unit max_randint nat nat (fun im => im) 2 unit unit
         (fun _ _ _ => ret tt) (fun _ _ => ret tt)
         ["PCA"; "ICA"]%string [0; 1; 2; 3; 4; 5] tt) = Raise IndexError.
Proof.
  split.
  - intros. repeat split; reflexivity.
  - vm_compute. reflexivity.
Qed.

End SmallEvaluations.

(** ** Ranges of the scores *)

Section ScoreRanges.
Open Scope R_scope.

(** The value of [_mutual_information_gap] on a table with two columns or
    more and one cardinality per row. *)
Lemma mig_value (t : list (list R)) (lat_sizes : list nat)
    (storer : option dict) :
  length t = length lat_sizes ->
  Forall (fun row => (2 <= length row)%nat) t ->
  let mig_k :=
    map2 (fun row s => fdiv (Fin (nth 0 row 0 - nth 1 row 0)) (flog s))
         t lat_sizes in
  _mutual_information_gap t lat_sizes storer =
  Ok (fmean mig_k,
      store (store storer "mig_k"%string (PerFactor mig_k))
            "mig"%string (Scalar (fmean mig_k))).
Proof.
  intros HK Hrows mig_k. unfold _mutual_information_gap.
  rewrite !column_ok
    by (eapply Forall_impl; [|exact Hrows]; intros row Hr; cbv beta in *; lia).
  cbn [bind]. rewrite map2_map_map.
  unfold broadcast2. rewrite !length_map, HK, Nat.eqb_refl. cbn [bind].
  rewrite map2_map_l, map2_map_r. reflexivity.
Qed.

(** The value of [_axis_aligned_metric] on a table without negative
    entries. *)
Lemma aam_value (t : list (list R)) (storer : option dict) :
  t <> [] ->
  Forall (fun row => row <> []) t ->
  Forall (Forall (fun x => 0 <= x)) t ->
  let aam := rsum (map aam_of_factor t) / INR (length t) in
  _axis_aligned_metric t storer =
  Ok (Fin aam,
      store (store storer "aam_k"%string
               (PerFactor (map (fun row => Fin (aam_of_factor row)) t)))
            "aam"%string (Scalar (Fin aam))).
Proof.
  intros Hne Hrows Hnn aam. unfold _axis_aligned_metric.
  rewrite column_ok.
  2:{ eapply Forall_impl; [|exact Hrows]. intros [|x row] H;
        [congruence | simpl; lia]. }
  cbn [bind].
  rewrite map2_map_map, map_map, map2_map_map, map_map.
  assert (Ek : map (fun x => nan_to_zero
                 (fdiv (Fin (clamp0 (nth 0 x 0 - rsum (tl x))))
                       (Fin (nth 0 x 0)))) t =
               map Fin (map aam_of_factor t)).
  { rewrite map_map. apply map_ext_in. intros row Hin.
    apply aam_row.
    - exact (proj1 (Forall_forall _ _) Hrows _ Hin).
    - exact (proj1 (Forall_forall _ _) Hnn _ Hin). }
  rewrite Ek, fmean_fin.
  2:{ destruct t; [congruence | discriminate]. }
  rewrite length_map, map_map. reflexivity.
Qed.

Lemma aam_of_factor_range (row : list R) :
  Forall (fun x => 0 <= x) row -> 0 <= aam_of_factor row <= 1.
Proof.
  destruct row as [|top1 others]; intros H; simpl; [lra|].
  inversion H as [|? ? Htop Hothers]; subst.
  pose proof (rsum_nonneg others Hothers) as Hsum.
  destruct (Req_dec_T top1 0) as [|Hne]; [lra|].
  assert (Hpos : 0 < top1) by lra.
  assert (Hmax : 0 <= Rmax (top1 - rsum others) 0 <= top1).
  { split; [apply Rmax_r | apply Rmax_lub; lra]. }
  split.
  - apply Rmult_le_pos; [tauto | left; apply Rinv_0_lt_compat; exact Hpos].
  - apply Rmult_le_reg_r with (r := top1); [exact Hpos|].
    unfold Rdiv. rewrite Rmult_assoc, Rinv_l by exact Hne. lra.
Qed.

Lemma rsum_range (l : list R) (lo hi : R) :
  Forall (fun x => lo <= x <= hi) l ->
  lo * INR (length l) <= rsum l <= hi * INR (length l).
Proof.
  induction 1 as [|x t Hx Ht IH].
  - simpl. lra.
  - cbn [rsum fold_right length]. fold (rsum t). rewrite S_INR. lra.
Qed.

Lemma mean_range (l : list R) (lo hi : R) :
  l <> [] -> Forall (fun x => lo <= x <= hi) l ->
  lo <= rsum l / INR (length l) <= hi.
Proof.
  intros Hne H. pose proof (rsum_range l lo hi H) as Hr.
  assert (Hn : 0 < INR (length l)).
  { apply lt_0_INR. destruct l; [congruence | simpl; lia]. }
  split.
  - apply Rmult_le_reg_r with (r := INR (length l)); [exact Hn|].
    unfold Rdiv. rewrite Rmult_assoc, Rinv_l by lra. lra.
  - apply Rmult_le_reg_r with (r := INR (length l)); [exact Hn|].
    unfold Rdiv. rewrite Rmult_assoc, Rinv_l by lra. lra.
Qed.

(** X1.  On a table without negative entries the AAM is a number between 0
    and 1. *)
Theorem aam_between_0_and_1
    (sorted_mut_info : list (list R)) (storer : option dict) :
  sorted_mut_info <> [] ->
  Forall (fun row => row <> []) sorted_mut_info ->
  Forall (Forall (fun x => 0 <= x)) sorted_mut_info ->
  exists aam d,
    _axis_aligned_metric sorted_mut_info storer = Ok (Fin aam, d) /\
    0 <= aam <= 1.
Proof.
  intros Hne Hrows Hnn.
  eexists. eexists. split; [apply aam_value; assumption|].
  rewrite <- (length_map aam_of_factor). apply mean_range.
  - destruct sorted_mut_info; [congruence | discriminate].
  - apply Forall_map. eapply Forall_impl; [|exact Hnn].
    intros row Hr. apply aam_of_factor_range. exact Hr.
Qed.

End ScoreRanges.

Lemma aam_between_0_and_1_witness :
  exists aam d,
    _axis_aligned_metric [[2; 1]; [0; 0]]%R None = Ok (Fin aam, d) /\
    (0 <= aam <= 1)%R.
Proof.
  apply (aam_between_0_and_1 [[2; 1]; [0; 0]]%R None).
  - discriminate.
  - repeat constructor; discriminate.
  - repeat constructor; lra.
Defined.

Section MigRanges.
Open Scope R_scope.

Lemma desc_gap_nonneg (row : list R) :
  desc row -> (2 <= length row)%nat -> 0 <= nth 0 row 0 - nth 1 row 0.
Proof.
  destruct row as [|a [|b rest]]; simpl; intros H Hl; try lia.
  destruct H as [Ha _]. pose proof (Forall_inv Ha) as Hba. cbv beta in Hba. lra.
Qed.

Lemma mig_k_not_below_zero (row : list R) (s : nat) :
  desc row -> (2 <= length row)%nat -> (1 <= s)%nat ->
  not_below_zero (fdiv (Fin (nth 0 row 0 - nth 1 row 0)) (flog s)).
Proof.
  intros Hd Hl Hs. pose proof (desc_gap_nonneg row Hd Hl) as Hg.
  unfold flog. destruct (Nat.eqb_spec s 0) as [|_]; [lia|].
  cbn [fdiv]. destruct (Req_dec_T (ln (INR s)) 0) as [E|Hne].
  - destruct (Req_dec_T _ 0); [exact I|].
    destruct (Rlt_dec 0 _); [exact I | lra].
  - destruct (Nat.eq_dec s 1) as [->|Hs1].
    + exfalso. apply Hne. simpl. apply ln_1.
    + pose proof (ln_INR_pos s ltac:(lia)) as Hp. cbn.
      apply Rmult_le_pos; [exact Hg | left; apply Rinv_0_lt_compat; exact Hp].
Qed.

Lemma mig_k_fin (row : list R) (s : nat) :
  desc row -> (2 <= length row)%nat -> (2 <= s)%nat ->
  exists x, fdiv (Fin (nth 0 row 0 - nth 1 row 0)) (flog s) = Fin x /\ 0 <= x.
Proof.
  intros Hd Hl Hs. pose proof (desc_gap_nonneg row Hd Hl) as Hg.
  pose proof (ln_INR_pos s Hs) as Hp.
  unfold flog. destruct (Nat.eqb_spec s 0) as [|_]; [lia|].
  cbn [fdiv]. destruct (Req_dec_T (ln (INR s)) 0) as [E|_]; [lra|].
  eexists. split; [reflexivity|].
  apply Rmult_le_pos; [exact Hg | left; apply Rinv_0_lt_compat; exact Hp].
Qed.

Lemma mig_k_card_1 (row : list R) :
  desc row -> (2 <= length row)%nat ->
  fdiv (Fin (nth 0 row 0 - nth 1 row 0)) (flog 1) = PInf \/
  fdiv (Fin (nth 0 row 0 - nth 1 row 0)) (flog 1) = NaN.
Proof.
  intros Hd Hl. pose proof (desc_gap_nonneg row Hd Hl) as Hg.
  unfold flog. cbn [Nat.eqb INR]. rewrite ln_1. cbn [fdiv].
  destruct (Req_dec_T 0 0) as [_|Hne]; [|congruence].
  destruct (Req_dec_T _ 0); [right; reflexivity|].
  destruct (Rlt_dec 0 _); [left; reflexivity | lra].
Qed.

Lemma fsum_not_below_zero (l : list fvalue) :
  Forall not_below_zero l -> not_below_zero (fsum l).
Proof.
  unfold fsum. induction 1 as [|v l Hv Hl IH]; simpl; [lra|].
  destruct v, (fold_right fadd (Fin 0) l); simpl in *; try tauto; lra.
Qed.

Lemma fsum_not_a_number (l : list fvalue) :
  Forall not_below_zero l ->
  Exists (fun v => v = PInf \/ v = NaN) l ->
  fsum l = PInf \/ fsum l = NaN.
Proof.
  intros Hnn Hex. induction Hex as [v l Hv|v l Hex IH].
  - pose proof (fsum_not_below_zero l (Forall_inv_tail Hnn)) as Hl.
    unfold fsum in *. simpl.
    destruct Hv as [->| ->];
      destruct (fold_right fadd (Fin 0) l); simpl in *; tauto.
  - pose proof (Forall_inv Hnn) as Hv.
    specialize (IH (Forall_inv_tail Hnn)).
    unfold fsum in *. simpl.
    destruct IH as [-> | ->]; destruct v; simpl in *; tauto.
Qed.

Lemma Forall_map2 {A B C : Type} (P : C -> Prop) (f : A -> B -> C)
    (a : list A) (b : list B) (Pa : A -> Prop) (Pb : B -> Prop) :
  (forall x y, Pa x -> Pb y -> P (f x y)) ->
  Forall Pa a -> Forall Pb b -> Forall P (map2 f a b).
Proof.
  intros H Ha. revert b. induction Ha as [|x a Hx Ha IH]; intros b Hb.
  - constructor.
  - destruct Hb as [|y b Hy Hb]; simpl; constructor; auto.
Qed.

(** X2.  On a table whose rows are sorted downwards, with cardinalities of at
    least two, the MIG is a number and is not negative. *)
Theorem mig_not_negative
    (sorted_mut_info : list (list R)) (lat_sizes : list nat)
    (storer : option dict) :
  sorted_mut_info <> [] ->
  length sorted_mut_info = length lat_sizes ->
  Forall (fun row => desc row /\ (2 <= length row)%nat) sorted_mut_info ->
  Forall (fun s => (2 <= s)%nat) lat_sizes ->
  exists mig d,
    _mutual_information_gap sorted_mut_info lat_sizes storer
      = Ok (Fin mig, d) /\
    0 <= mig.
Proof.
  intros Hne HK Hrows Hs.
  assert (Hfin : exists xs,
    map2 (fun row s => fdiv (Fin (nth 0 row 0 - nth 1 row 0)) (flog s))
         sorted_mut_info lat_sizes = map Fin xs /\
    Forall (fun x => 0 <= x) xs /\ length xs = length sorted_mut_info).
  { clear storer Hne. revert lat_sizes HK Hs.
    induction Hrows as [|row t [Hd Hl] Ht IH]; intros [|s ss] HK Hs;
      try discriminate.
    - exists []. repeat split. constructor.
    - destruct (mig_k_fin row s Hd Hl (Forall_inv Hs)) as (x & Ex & Hx).
      destruct (IH ss ltac:(simpl in *; lia) (Forall_inv_tail Hs))
        as (xs & Exs & Hxs & Lxs).
      exists (x :: xs). cbn [map2 map]. rewrite Ex, Exs.
      repeat split; [constructor; assumption | simpl; congruence]. }
  destruct Hfin as (xs & Exs & Hxs & Lxs).
  assert (Hxne : xs <> []).
  { destruct xs; [|discriminate]. destruct sorted_mut_info;
      [congruence | discriminate]. }
  rewrite mig_value.
  - rewrite Exs, fmean_fin by exact Hxne.
    eexists. eexists. split; [reflexivity|].
    pose proof (mean_range xs 0 (rsum xs) Hxne) as Hm.
    assert (Hn : 0 < INR (length xs)).
    { apply lt_0_INR. destruct xs; [congruence | simpl; lia]. }
    apply Rmult_le_pos; [apply rsum_nonneg; exact Hxs|].
    left. apply Rinv_0_lt_compat. exact Hn.
  - exact HK.
  - eapply Forall_impl; [|exact Hrows]. intros row [_ Hl]. exact Hl.
Qed.

(** X3.  A factor with a single value makes the MIG plus infinity or
    not-a-number: it is divided by [log 1]. *)
Theorem mig_undefined_for_single_valued_factor
    (sorted_mut_info : list (list R)) (lat_sizes : list nat)
    (storer : option dict) :
  length sorted_mut_info = length lat_sizes ->
  Forall (fun row => desc row /\ (2 <= length row)%nat) sorted_mut_info ->
  Forall (fun s => (1 <= s)%nat) lat_sizes ->
  In 1%nat lat_sizes ->
  exists mig d,
    _mutual_information_gap sorted_mut_info lat_sizes storer = Ok (mig, d) /\
    (mig = PInf \/ mig = NaN).
Proof.
  intros HK Hrows Hs Hin.
  rewrite mig_value;
    [| exact HK
     | eapply Forall_impl; [|exact Hrows]; intros row [_ Hl]; exact Hl].
  eexists. eexists. split; [reflexivity|].
  set (mig_k := map2 _ _ _).
  assert (Hnn : Forall not_below_zero mig_k).
  { subst mig_k.
    apply Forall_map2 with
      (Pa := fun row => desc row /\ (2 <= length row)%nat)
      (Pb := fun s => (1 <= s)%nat); [|exact Hrows | exact Hs].
    intros row s [Hd Hl] H1. apply mig_k_not_below_zero; assumption. }
  assert (Hex : Exists (fun v => v = PInf \/ v = NaN) mig_k).
  { subst mig_k. clear Hnn storer. revert sorted_mut_info HK Hrows.
    induction lat_sizes as [|s ss IH]; [destruct Hin|].
    intros [|row t] HK Hrows; [discriminate|]. cbn [map2].
    destruct Hin as [->|Hin].
    - apply Exists_cons_hd. destruct (Forall_inv Hrows) as [Hd Hl].
      apply mig_k_card_1; assumption.
    - apply Exists_cons_tl. apply IH.
      + exact (Forall_inv_tail Hs).
      + exact Hin.
      + simpl in HK. lia.
      + exact (Forall_inv_tail Hrows). }
  assert (HKpos : 0 < INR (length mig_k)).
  { apply lt_0_INR. destruct mig_k; [inversion Hex | simpl; lia]. }
  unfold fmean.
  destruct (fsum_not_a_number mig_k Hnn Hex) as [-> | ->]; cbn [fdiv].
  - destruct (Rlt_dec (INR (length mig_k)) 0); [lra | left; reflexivity].
  - right. reflexivity.
Qed.

(** X4.  With a single latent dimension there is no second-largest entry: the
    MIG raises. *)
Theorem mig_raises_on_one_latent_dimension
    (sorted_mut_info : list (list R)) (lat_sizes : list nat)
    (storer : option dict) :
  sorted_mut_info <> [] ->
  Forall (fun row => length row = 1%nat) sorted_mut_info ->
  _mutual_information_gap sorted_mut_info lat_sizes storer = Raise IndexError.
Proof.
  intros Hne Hrows. unfold _mutual_information_gap.
  rewrite column_ok
    by (eapply Forall_impl; [|exact Hrows]; intros row Hr; cbv beta in *; lia).
  cbn [bind].
  destruct sorted_mut_info as [|row t]; [congruence|].
  pose proof (Forall_inv Hrows) as Hr. cbv beta in Hr.
  destruct row as [|x [|? ?]]; try discriminate. reflexivity.
Qed.

End MigRanges.

Lemma mig_not_negative_witness :
  exists mig d,
    _mutual_information_gap [[2; 1]; [1; 0]]%R [2; 3] None = Ok (Fin mig, d) /\
    (0 <= mig)%R.
Proof.
  apply (mig_not_negative [[2; 1]; [1; 0]]%R [2; 3] None).
  - discriminate.
  - reflexivity.
  - repeat constructor; simpl; try lra; lia.
  - repeat constructor.
Defined.

Lemma mig_undefined_for_single_valued_factor_witness :
  exists mig d,
    _mutual_information_gap [[2; 1]; [1; 0]]%R [1; 3] None = Ok (mig, d) /\
    (mig = PInf \/ mig = NaN).
Proof.
  apply (mig_undefined_for_single_valued_factor [[2; 1]; [1; 0]]%R [1; 3] None).
  - reflexivity.
  - repeat constructor; simpl; try lra; lia.
  - repeat constructor.
  - left. reflexivity.
Defined.

Lemma mig_raises_on_one_latent_dimension_witness :
  _mutual_information_gap [[2]; [1]]%R [2; 3] None = Raise IndexError.
Proof.
  apply (mig_raises_on_one_latent_dimension [[2]; [1]]%R [2; 3] None).
  - discriminate.
  - repeat constructor.
Defined.

(** ** Relabelling the latent dimensions *)

Section Relabelling.
Open Scope R_scope.

Lemma desc_perm_eq (l l' : list R) :
  desc l -> desc l' -> Permutation l l' -> l = l'.
Proof.
  revert l'. induction l as [|x t IH]; intros l' Hd Hd' Hp.
  - apply Permutation_nil in Hp. congruence.
  - destruct l' as [|y t'].
    + apply Permutation_sym, Permutation_nil in Hp. discriminate.
    + destruct Hd as [Hx Ht]. destruct Hd' as [Hy Ht'].
      assert (Exy : x = y).
      { apply Rle_antisym.
        - assert (Hin : In x (y :: t'))
            by (apply (Permutation_in _ Hp); left; reflexivity).
          destruct Hin as [<-|Hin]; [lra|].
          exact (proj1 (Forall_forall _ _) Hy _ Hin).
        - assert (Hin : In y (x :: t))
            by (apply (Permutation_in _ (Permutation_sym Hp)); left;
                reflexivity).
          destruct Hin as [<-|Hin]; [lra|].
          exact (proj1 (Forall_forall _ _) Hx _ Hin). }
      subst y. f_equal. apply IH; [assumption | assumption |].
      eapply Permutation_cons_inv. exact Hp.
Qed.

(** Sorting forgets the order of its input. *)
Lemma sort_desc_perm_eq (l l' : list R) :
  Permutation l l' -> sort_desc l = sort_desc l'.
Proof.
  intros Hp. apply desc_perm_eq; try apply sort_desc_sorted.
  eapply perm_trans; [apply sort_desc_perm|].
  eapply perm_trans; [exact Hp | apply Permutation_sym, sort_desc_perm].
Qed.

Lemma map2_as_map_seq {A B C : Type} (f : A -> B -> C) (da : A) (db : B)
    (a : list A) (b : list B) :
  length a = length b ->
  map2 f a b = map (fun i => f (nth i a da) (nth i b db)) (seq 0 (length a)).
Proof.
  revert b. induction a as [|x a IH]; intros [|y b] H; try discriminate.
  - reflexivity.
  - cbn [map2 length seq map nth]. f_equal.
    rewrite <- seq_shift, map_map. apply IH. simpl in H. lia.
Qed.

Lemma sorted_row_permute (p : list nat) (H_z row : list R) :
  Permutation p (seq 0 (length H_z)) -> length row = length H_z ->
  sorted_row (permute 0 p H_z) (permute 0 p row) = sorted_row H_z row.
Proof.
  intros Hp Hr. unfold sorted_row, permute. f_equal.
  apply sort_desc_perm_eq. rewrite map2_map_map.
  rewrite (map2_as_map_seq _ 0 0 row H_z Hr), Hr.
  apply Permutation_map. exact Hp.
Qed.

(** X5.  The latent dimensions can be relabelled: with the entries of [H_z] and
    of every row of [H_zCv] permuted in the same way, the sorted table of
    line 173 is the same, and with it the MIG and the AAM. *)
Theorem scores_ignore_order_of_latent_dimensions
    (p : list nat) (H_z : list R) (H_zCv : list (list R))
    (lat_sizes : list nat) (storer : option dict) :
  Permutation p (seq 0 (length H_z)) ->
  Forall (fun row => length row = length H_z) H_zCv ->
  sorted_mut_info (permute 0 p H_z) (map (permute 0 p) H_zCv) =
    sorted_mut_info H_z H_zCv /\
  (t <~ sorted_mut_info (permute 0 p H_z) (map (permute 0 p) H_zCv) ;;
   _mutual_information_gap t lat_sizes storer) =
    (t <~ sorted_mut_info H_z H_zCv ;;
     _mutual_information_gap t lat_sizes storer) /\
  (t <~ sorted_mut_info (permute 0 p H_z) (map (permute 0 p) H_zCv) ;;
   _axis_aligned_metric t storer) =
    (t <~ sorted_mut_info H_z H_zCv ;; _axis_aligned_metric t storer).
Proof.
  intros Hp Hrows.
  assert (Lp : length p = length H_z)
    by (rewrite (Permutation_length Hp); apply length_seq).
  assert (E : sorted_mut_info (permute 0 p H_z) (map (permute 0 p) H_zCv) =
              sorted_mut_info H_z H_zCv).
  { rewrite !sorted_mut_info_rows.
    - rewrite map_map. f_equal. apply map_ext_in. intros row Hin.
      apply sorted_row_permute; [exact Hp|].
      exact (proj1 (Forall_forall _ _) Hrows _ Hin).
    - exact Hrows.
    - apply Forall_map. apply Forall_forall. intros row _.
      unfold permute. rewrite !length_map. reflexivity. }
  rewrite E. repeat split.
Qed.

End Relabelling.

Lemma scores_ignore_order_of_latent_dimensions_witness :
  sorted_mut_info (permute 0%R [1; 0] [2; 1]%R)
                  (map (permute 0%R [1; 0]) [[1; 1]; [0; 1]]%R) =
    sorted_mut_info [2; 1]%R [[1; 1]; [0; 1]]%R /\
  (t <~ sorted_mut_info (permute 0%R [1; 0] [2; 1]%R)
                        (map (permute 0%R [1; 0]) [[1; 1]; [0; 1]]%R) ;;
   _mutual_information_gap t [2; 3] None) =
    (t <~ sorted_mut_info [2; 1]%R [[1; 1]; [0; 1]]%R ;;
     _mutual_information_gap t [2; 3] None) /\
  (t <~ sorted_mut_info (permute 0%R [1; 0] [2; 1]%R)
                        (map (permute 0%R [1; 0]) [[1; 1]; [0; 1]]%R) ;;
   _axis_aligned_metric t None) =
    (t <~ sorted_mut_info [2; 1]%R [[1; 1]; [0; 1]]%R ;;
     _axis_aligned_metric t None).
Proof.
  apply (scores_ignore_order_of_latent_dimensions [1; 0] [2; 1]%R
           [[1; 1]; [0; 1]]%R [2; 3] None).
  - simpl. apply perm_swap.
  - repeat constructor.
Defined.

(** ** Outcomes of the estimators *)

Section EstimatorOutcomes.

Variable rng : Type.
Variable randperm : nat -> rng -> list nat * rng.
Variable log_density_gaussian : R -> R -> R -> R.

Hypothesis randperm_perm :
  forall n g, Permutation (fst (randperm n g)) (seq 0 n).

Lemma estimate_empty_raises (t : tensor) (p : tensor * tensor)
    (D : nat) (g : rng) :
  shape t = [0; D] ->
  shape (fst p) = [0; D] -> shape (snd p) = [0; D] ->
  _estimate_latent_entropies rng randperm log_density_gaussian t p 0 g =
  (Raise ValueError, snd (randperm 0 g)).
Proof.
  intros Hs H0 H1.
  unfold _estimate_latent_entropies, estimate_latent_entropies_with.
  unfold mbind, lift, torch_randperm, ret, shape2. rewrite Hs.
  destruct (randperm 0 g) as [perm g']. cbn [fst snd firstn].
  unfold index_select0. cbn [forallb map concat length].
  unfold view. cbn [shape data]. cbn [numel fold_right].
  rewrite Nat.mul_0_r. cbn [Nat.eqb Nat.mul].
  unfold unsqueeze_expand. rewrite H0, H1, !Nat.eqb_refl. cbn [orb andb].
  reflexivity.
Qed.

(** Statistics that [expand] cannot broadcast to the shape of the samples
    make line 477 raise. *)
Lemma estimate_expand_raises (t : tensor) (p : tensor * tensor)
    (N D a b n_samples : nat) (g : rng) :
  shape t = [N; D] -> n_samples <= N ->
  shape (fst p) = [a; b] ->
  (a <> N /\ a <> 1) \/ (b <> D /\ b <> 1) ->
  _estimate_latent_entropies rng randperm log_density_gaussian t p n_samples g =
  (Raise RuntimeError, snd (randperm N g)).
Proof.
  intros Hs HS H0 Hab.
  unfold _estimate_latent_entropies, estimate_latent_entropies_with.
  unfold mbind, lift, torch_randperm, ret, shape2. rewrite Hs.
  pose proof (randperm_below rng randperm randperm_perm N g) as Hb.
  pose proof (randperm_length rng randperm randperm_perm N g) as Hl.
  destruct (randperm N g) as [perm g']. cbn [fst snd] in *.
  unfold index_select0. rewrite forallb_firstn by exact Hb.
  unfold view. cbn [shape data]. rewrite length_firstn, Hl.
  rewrite Nat.min_l by lia. cbn [numel fold_right].
  replace (n_samples * (D * 1) =? D * (n_samples * 1)) with true
    by (symmetry; apply Nat.eqb_eq; lia).
  unfold unsqueeze_expand at 1. rewrite H0.
  replace (((a =? N) || (a =? 1)) && ((b =? D) || (b =? 1))) with false;
    [reflexivity|].
  symmetry. apply Bool.andb_false_iff.
  destruct Hab as [[H1 H2]|[H1 H2]]; [left | right];
    apply Bool.orb_false_iff; split; apply Nat.eqb_neq; assumption.
Qed.

(** X6.  When the marginal-entropy estimator returns.  On [N] examples with
    [D >= 1] latent dimensions and statistics of the shape of the samples,
    it returns [D] entropies when no more pivots, and at least one, are
    asked for than there are examples; it raises [RuntimeError] when more
    pivots are asked for, whatever the statistics, and also when the
    pivots are few enough and the table of the means has a shape that
    [expand] does not broadcast to [N] by [D]; it raises [ValueError] on no
    example and no pivot.  In every case the generator has drawn one
    permutation. *)
Theorem estimator_returns_iff_enough_examples
    (t : tensor) (p : tensor * tensor) (N D n_samples : nat) (g : rng) :
  shape t = [N; D] -> 0 < D ->
  (shape (fst p) = [N; D] -> shape (snd p) = [N; D] ->
   0 < N -> 0 < n_samples <= N ->
   exists e,
     _estimate_latent_entropies rng randperm log_density_gaussian
       t p n_samples g = (Ok e, snd (randperm N g)) /\
     length e = D) /\
  (N < n_samples ->
   _estimate_latent_entropies rng randperm log_density_gaussian
     t p n_samples g = (Raise RuntimeError, snd (randperm N g))) /\
  (forall a b,
     shape (fst p) = [a; b] ->
     (a <> N /\ a <> 1) \/ (b <> D /\ b <> 1) ->
     n_samples <= N ->
     _estimate_latent_entropies rng randperm log_density_gaussian
       t p n_samples g = (Raise RuntimeError, snd (randperm N g))) /\
  (shape (fst p) = [N; D] -> shape (snd p) = [N; D] ->
   N = 0 -> n_samples = 0 ->
   _estimate_latent_entropies rng randperm log_density_gaussian
     t p n_samples g = (Raise ValueError, snd (randperm N g))).
Proof.
  intros Hs HD. repeat split.
  - intros H0 H1 HN HS.
    destruct (estimate_returns rng randperm log_density_gaussian
                randperm_perm t p N D n_samples g Hs H0 H1 HN (proj2 HS))
      as (e & E).
    exists e. split; [exact E|].
    rewrite (estimate_length _ _ _ _ _ _ _ _ _ E), Hs. reflexivity.
  - intros HS. apply (estimate_raises rng randperm log_density_gaussian
                        randperm_perm t p N D n_samples g Hs HD HS).
  - intros a b H0 Hab HS.
    apply (estimate_expand_raises t p N D a b n_samples g Hs HS H0 Hab).
  - intros H0 H1 EN ES. subst N n_samples.
    apply estimate_empty_raises with (D := D); assumption.
Qed.

End EstimatorOutcomes.

(** Three examples with two latent dimensions and two pivots. *)
Lemma estimator_returns_iff_enough_examples_witness :
  let t := {| shape := [3; 2]; data := [0; 1; 2; 3; 4; 5]%R |} in
  let lg := fun x mu lv : R => (x - mu - lv)%R in
  (shape (fst (t, t)) = [3; 2] -> shape (snd (t, t)) = [3; 2] ->
   0 < 3 -> 0 < 2 <= 3 ->
   exists e,
     _estimate_latent_entropies unit sorted_randperm lg t (t, t) 2 tt
       = (Ok e, snd (sorted_randperm 3 tt)) /\
     length e = 2) /\
  (3 < 2 ->
   _estimate_latent_entropies unit sorted_randperm lg t (t, t) 2 tt
     = (Raise RuntimeError, snd (sorted_randperm 3 tt))) /\
  (forall a b,
     shape (fst (t, t)) = [a; b] ->
     (a <> 3 /\ a <> 1) \/ (b <> 2 /\ b <> 1) ->
     2 <= 3 ->
     _estimate_latent_entropies unit sorted_randperm lg t (t, t) 2 tt
       = (Raise RuntimeError, snd (sorted_randperm 3 tt))) /\
  (shape (fst (t, t)) = [3; 2] -> shape (snd (t, t)) = [3; 2] ->
   3 = 0 -> 2 = 0 ->
   _estimate_latent_entropies unit sorted_randperm lg t (t, t) 2 tt
     = (Raise ValueError, snd (sorted_randperm 3 tt))).
Proof.
  intros t lg.
  apply (estimator_returns_iff_enough_examples unit sorted_randperm lg
           sorted_randperm_perm t (t, t) 3 2 2 tt).
  - reflexivity.
  - lia.
Defined.

(** One example with two latent dimensions, and statistics of shape 2 by
    1: line 477 raises. *)
Example estimate_statistics_of_other_shape
    (log_density_gaussian : R -> R -> R -> R) :
  _estimate_latent_entropies unit sorted_randperm log_density_gaussian
    {| shape := [1; 2]; data := [1; 2]%R |}
    ({| shape := [2; 1]; data := [2; 1]%R |},
     {| shape := [2; 1]; data := [2; 1]%R |}) 1 tt =
  (Raise RuntimeError, tt).
Proof. reflexivity. Qed.

(** Statistics of one row are broadcast to every example. *)
Example expand_one_row :
  unsqueeze_expand {| shape := [1; 2]; data := [7; 8]%R |} 3 2 =
  Ok {| shape := [3; 2]; data := [7; 8; 7; 8; 7; 8]%R |}.
Proof. reflexivity. Qed.

(** ** Factors without a name *)

Section UnnamedFactors.

Variable rng : Type.
Variable randperm : nat -> rng -> list nat * rng.
Variable log_density_gaussian : R -> R -> R -> R.

Lemma for_each_invariant {St A X : Type} (Inv : A -> Prop) (xs : list X)
    (body : A -> X -> M St A) :
  (forall x, In x xs ->
     forall acc g acc' g', body acc x g = (Ok acc', g') -> Inv acc -> Inv acc') ->
  forall acc g r g',
    for_each xs body acc g = (Ok r, g') -> Inv acc -> Inv r.
Proof.
  induction xs as [|x xs IH]; intros Hb acc g r g' H Ha.
  - inversion H; subst. exact Ha.
  - cbn [for_each] in H. unfold mbind in H.
    destruct (body acc x g) as [[acc1|e] g1] eqn:E; [|discriminate].
    eapply IH; [|exact H|].
    + intros y Hy. apply Hb. right. exact Hy.
    + eapply Hb; [left; reflexivity | exact E | exact Ha].
Qed.

Lemma nth_set_row_other (rows : list (list R)) (k j : nat) (r : list R) :
  j <> k -> nth j (set_row rows k r) [] = nth j rows [].
Proof.
  revert k j. induction rows as [|x t IH]; intros [|k] [|j] H; simpl;
    try reflexivity; try lia.
  apply IH. lia.
Qed.

Lemma H_zCv_value_touches_one_row (n_samples : nat) (samples_zCx : tensor)
    (params_zCx : tensor * tensor) (len_dataset latent_dim k lat_size : nat)
    (H : list (list R)) (i : nat) (g g' : rng) (H' : list (list R)) :
  H_zCv_value rng randperm log_density_gaussian n_samples samples_zCx
    params_zCx len_dataset latent_dim k lat_size H i g = (Ok H', g') ->
  length H' = length H /\
  forall j, j <> k -> nth j H' [] = nth j H [].
Proof.
  unfold H_zCv_value, mbind, lift, ret.
  destruct (select samples_zCx k i); [|discriminate].
  destruct (view _ _); [|discriminate].
  destruct (select (fst params_zCx) k i); [|discriminate].
  destruct (view _ _); [|discriminate].
  destruct (select (snd params_zCx) k i); [|discriminate].
  destruct (view _ _); [|discriminate].
  destruct (_estimate_latent_entropies _ _ _ _ _ _ _) as [[e|ex] g1];
    [|discriminate].
  intros E. inversion E; subst. split.
  - apply length_set_row.
  - intros j Hj. apply nth_set_row_other. exact Hj.
Qed.

Lemma in_combine_seq_bound {A : Type} (a n : nat) (l : list A) (k : nat)
    (x : A) :
  In (k, x) (combine (seq a n) l) -> k < a + length l.
Proof.
  revert a l. induction n as [|n IH]; intros a [|y l] H; simpl in H;
    try contradiction.
  destruct H as [H|H].
  - inversion H; subst. simpl. lia.
  - apply IH in H. simpl. lia.
Qed.

(** X7.  [zip(lat_sizes, lat_names)] stops at the shorter list: a factor beyond
    the names is skipped, and when [_estimate_H_zCv] returns, the row of
    its conditional entropies is still zero. *)
Theorem unnamed_factors_keep_zero_entropies
    (n_samples : nat) (samples_zCx : tensor) (params_zCx : tensor * tensor)
    (lat_sizes : list nat) (lat_names : list String.string)
    (g g' : rng) (H_zCv : list (list R)) :
  estimate_H_zCv_with rng randperm log_density_gaussian n_samples
    samples_zCx params_zCx lat_sizes lat_names g = (Ok H_zCv, g') ->
  length H_zCv = length lat_sizes /\
  forall k, length lat_names <= k < length lat_sizes ->
            nth k H_zCv [] = repeat 0%R (last (shape samples_zCx) 0).
Proof.
  unfold estimate_H_zCv_with. unfold mbind at 1, lift at 1.
  destruct (reduce_mul lat_sizes) as [len_dataset|e]; [|discriminate].
  set (zeros := repeat 0%R (last (shape samples_zCx) 0)).
  intros E.
  apply (for_each_invariant
           (fun H => length H = length lat_sizes /\
                     forall k, length lat_names <= k < length lat_sizes ->
                               nth k H [] = zeros)) in E.
  - exact E.
  - intros [k [lat_size name]] Hin acc g0 acc' g1 Eb [Hl Hz].
    assert (Hk : k < length lat_names).
    { apply in_combine_seq_bound in Hin. rewrite length_combine in Hin. lia. }
    apply (for_each_invariant
             (fun H => length H = length lat_sizes /\
                       forall j, length lat_names <= j < length lat_sizes ->
                                 nth j H [] = zeros)) in Eb.
    + exact Eb.
    + intros i _ acc0 g2 acc1 g3 Ev [Hl0 Hz0].
      apply H_zCv_value_touches_one_row in Ev. destruct Ev as [L Hn].
      split; [congruence|]. intros j Hj. rewrite Hn by lia. apply Hz0, Hj.
    + split; assumption.
  - split; [apply repeat_length|].
    intros k Hk. apply nth_repeat_lt. lia.
Qed.

End UnnamedFactors.

(** The 2 by 3 grid with a name for its first factor only. *)
Lemma unnamed_factors_keep_zero_entropies_witness :
  exists H,
    estimate_H_zCv_with unit sorted_randperm (fun x mu lv => (x - mu - lv)%R) 2
      grid_2_3 (grid_2_3, grid_2_3) [2; 3] ["shape"%string] tt = (Ok H, tt) /\
    length H = 2 /\
    forall k, 1 <= k < 2 -> nth k H [] = [0%R].
Proof.
  destruct (estimate_H_zCv_with unit sorted_randperm
              (fun x mu lv => (x - mu - lv)%R) 2
              grid_2_3 (grid_2_3, grid_2_3) [2; 3] ["shape"%string] tt)
    as [[H|e] []] eqn:E.
  - exists H. split; [reflexivity|].
    exact (unnamed_factors_keep_zero_entropies unit sorted_randperm
             (fun x mu lv => (x - mu - lv)%R) 2
             grid_2_3 (grid_2_3, grid_2_3) [2; 3] ["shape"%string] tt tt H E).
  - exfalso.
    lazy -[Rplus Rminus Rmult Rdiv Ropp Rinv ln exp INR IZR Rabs] in E.
    discriminate E.
Defined.

(** ** Outcomes of a call of the evaluator *)

Section EvaluatorOutcomes.

Variable St : Type.
Variable randperm : nat -> St -> list nat * St.
Variable randint : Z -> nat -> St -> list Z * St.
Variable log_density_gaussian : R -> R -> R -> R.
Variable image flat batch : Type.
Variable flatten : image -> flat.
Variable latent_dim : nat.
Variable pca_model ica_model : Type.
Variable pca_fit : nat -> bool -> list flat -> M St pca_model.
Variable ica_fit : nat -> list flat -> M St ica_model.
Variable classifier_accuracies :
  bool -> pydict (method_model pca_model ica_model) -> nat -> list Z ->
  list image -> nat -> nat -> nat -> bool -> M St (pydict R).
Variable _compute_q_zCx :
  bool -> list batch -> M St (tensor * (tensor * tensor)).
Variable forward_loss :
  bool -> batch -> pydict (list R) -> M St (pydict (list R)).
Variable call_optimize :
  bool -> batch -> pydict (list R) -> M St (pydict (list R)).

Local Abbreviation metrics_of :=
  (compute_metrics St randperm randint log_density_gaussian
     image flat batch flatten latent_dim pca_model ica_model
     pca_fit ica_fit classifier_accuracies _compute_q_zCx).

Local Abbreviation losses_of :=
  (compute_losses St batch forward_loss call_optimize).

Local Abbreviation call :=
  (__call__ St randperm randint log_density_gaussian image flat batch flatten
     latent_dim pca_model ica_model pca_fit ica_fit classifier_accuracies
     _compute_q_zCx forward_loss call_optimize).

Lemma compute_metrics_raises (d : dataset image) (dataloader : list batch) :
  raises_keeping_files (metrics_of d dataloader).
Proof.
  unfold compute_metrics.
  repeat first
    [ apply raises_lookup_unbound
    | apply raises_bind;
        [ first [ apply keeps_files_lift
                | apply keeps_files_outside
                | apply keeps_files_run_model ]
        | intros ? ]
    | match goal with
      | |- raises_keeping_files (match ?x with _ => _ end) => destruct x
      | |- raises_keeping_files (let (_, _) := ?x in _) => destruct x
      end ].
Qed.

Lemma call_for_metrics_raises
    (d : dataset image) (dataloader : list batch) (is_losses : bool)
    (w : world St) :
  exists e,
    fst (call d dataloader true is_losses w) = Raise e /\
    training St (snd (call d dataloader true is_losses w)) = false /\
    files St (snd (call d dataloader true is_losses w)) = files St w.
Proof.
  pose (w0 := {| training := false; ext := ext St w; files := files St w;
                 runs := runs St w |}).
  destruct (compute_metrics_raises d dataloader w0) as [[e He] Hf].
  destruct (eval_safe_compute_metrics St randperm randint
              log_density_gaussian image flat batch flatten latent_dim
              pca_model ica_model pca_fit ica_fit classifier_accuracies
              _compute_q_zCx d dataloader w0 eq_refl) as [Ht _].
  destruct (metrics_of d dataloader w0) as [[m|e'] w1] eqn:E;
    cbn [fst snd] in *; [discriminate|].
  assert (Hc : call d dataloader true is_losses w = (Raise e', w1)).
  { unfold __call__, mbind, model_eval. subst w0. rewrite E. reflexivity. }
  rewrite Hc. exists e'. repeat split; assumption.
Qed.

(** X8.  Asked for the metrics, a call always raises: nothing is
    returned, no file is written, and the model is left in evaluation
    mode whatever its mode was. *)
Theorem call_for_metrics_always_raises
    (d : dataset image) (dataloader : list batch) (is_losses : bool)
    (w : world St) :
  exists e,
    fst (call d dataloader true is_losses w) = Raise e /\
    training St (snd (call d dataloader true is_losses w)) = false /\
    files St (snd (call d dataloader true is_losses w)) = files St w.
Proof.
  pose (w0 := {| training := false; ext := ext St w; files := files St w;
                 runs := runs St w |}).
  destruct (compute_metrics_raises d dataloader w0) as [[e He] Hf].
  destruct (eval_safe_compute_metrics St randperm randint
              log_density_gaussian image flat batch flatten latent_dim
              pca_model ica_model pca_fit ica_fit classifier_accuracies
              _compute_q_zCx d dataloader w0 eq_refl) as [Ht _].
  destruct (metrics_of d dataloader w0) as [[m|e'] w1] eqn:E;
    cbn [fst snd] in *; [discriminate|].
  assert (Hc : call d dataloader true is_losses w = (Raise e', w1)).
  { unfold __call__, mbind, model_eval. subst w0. rewrite E. reflexivity. }
  rewrite Hc. exists e'. repeat split; assumption.
Qed.

(** X9.  A call that raises leaves the model in evaluation mode: the mode found
    on entry is only restored on the way out of a call that returns. *)
Theorem raising_call_leaves_evaluation_mode
    (d : dataset image) (dataloader : list batch)
    (is_metrics is_losses : bool) (w w' : world St) (e : exn) :
  call d dataloader is_metrics is_losses w = (Raise e, w') ->
  training St w' = false.
Proof.
  unfold __call__. unfold mbind at 1. unfold mbind at 1.
  unfold model_eval at 1.
  set (w0 := {| training := false; ext := ext St w; files := files St w;
                runs := runs St w |}).
  set (body1 := if is_metrics then _ else _).
  set (body2 := if is_losses then _ else _).
  assert (S1 : eval_safe body1).
  { subst body1. destruct is_metrics; [|apply eval_safe_ret].
    apply eval_safe_bind; [apply eval_safe_compute_metrics|].
    intros m. apply eval_safe_write_file. }
  assert (S2 : eval_safe body2).
  { subst body2. destruct is_losses; [|apply eval_safe_ret].
    apply eval_safe_bind; [apply eval_safe_compute_losses|].
    intros l. apply eval_safe_bind; [apply eval_safe_write_file|].
    intros _. apply eval_safe_ret. }
  unfold mbind at 1.
  destruct (S1 w0 eq_refl) as (T1 & _).
  destruct (body1 w0) as [[u|e1] w1]; cbn [snd] in *.
  - unfold mbind at 1.
    destruct (S2 w1 T1) as (T2 & _).
    destruct (body2 w1) as [[l|e2] w2]; cbn [snd] in *.
    + unfold mbind at 1. destruct (training St w); cbn; discriminate.
    + intros H. inversion H; subst. exact T2.
  - intros H. inversion H; subst. exact T1.
Qed.

(** X10.  What a call that returns has done: it was not asked for the metrics,
    its first result is [None], and the only file written is the losses
    file, with the losses it returns, when the losses were asked for. *)
Theorem returning_call_saves_what_it_returns
    (d : dataset image) (dataloader : list batch)
    (is_metrics is_losses : bool) (w w' : world St)
    (metric : option metrics_record) (losses : option (pydict R)) :
  call d dataloader is_metrics is_losses w = (Ok (metric, losses), w') ->
  is_metrics = false /\ metric = None /\
  files St w' =
    (if is_losses
     then dict_set (files St w) TEST_LOSSES_FILE (LossesFile losses)
     else files St w) /\
  (is_losses = false -> losses = None).
Proof.
  intros H. destruct is_metrics.
  - destruct (call_for_metrics_raises d dataloader is_losses w)
      as (e & He & _).
    rewrite H in He. discriminate.
  - split; [reflexivity|]. revert H.
    unfold __call__. unfold mbind at 1. unfold mbind at 1.
    unfold model_eval at 1.
    set (w0 := {| training := false; ext := ext St w; files := files St w;
                  runs := runs St w |}).
    unfold mbind at 1. unfold ret at 1. unfold mbind at 1.
    destruct is_losses.
    + unfold compute_losses. destruct dataloader as [|data rest].
      * cbn. destruct (training St w); cbn; intros H; inversion H; subst;
          repeat split; discriminate.
      * unfold mbind at 1. unfold mbind at 1. unfold run_model at 1.
        cbn [training ext files runs w0].
        destruct (try_except_ValueError _ _ _) as [[storer|e] s1].
        -- cbn. destruct (training St w); cbn; intros H; inversion H; subst;
             repeat split; discriminate.
        -- discriminate.
    + cbn. destruct (training St w); cbn; intros H; inversion H; subst;
        repeat split.
Qed.

End EvaluatorOutcomes.

(** A call for the metrics on a dataset without factors, from training
    mode. *)
Lemma raising_call_leaves_evaluation_mode_witness :
  training unit {| training := false; ext := tt; files := []; runs := [] |}
  = false.
Proof.
  apply (raising_call_leaves_evaluation_mode unit sorted_randperm zero_randint
           (fun x mu lv => (x - mu - lv)%R) nat nat unit (fun im => im) 1
           unit unit (fun _ _ _ => ret tt) (fun _ _ => ret tt)
           (fun _ _ _ _ _ _ _ _ _ => ret [])
           (fun _ _ => ret (grid_2_3, (grid_2_3, grid_2_3)))
           (fun _ _ storer => ret storer) (fun _ _ storer => ret storer)
           {| lat_sizes_attr := None; lat_names_attr := None;
              imgs_attr := None |}
           [tt] true true
           {| training := true; ext := tt; files := []; runs := [] |}
           {| training := false; ext := tt; files := []; runs := [] |}
           ValueError).
  reflexivity.
Defined.

(** A call for the losses only. *)
Lemma returning_call_saves_what_it_returns_witness :
  false = false /\ @None metrics_record = None /\
  files unit {| training := true; ext := tt;
                files := [(TEST_LOSSES_FILE, LossesFile (Some []))];
                runs := [false] |} =
    dict_set [] TEST_LOSSES_FILE (LossesFile (Some [])) /\
  (true = false -> Some (@nil (String.string * R)) = None).
Proof.
  apply (returning_call_saves_what_it_returns unit sorted_randperm zero_randint
           (fun x mu lv => (x - mu - lv)%R) nat nat unit (fun im => im) 1
           unit unit (fun _ _ _ => ret tt) (fun _ _ => ret tt)
           (fun _ _ _ _ _ _ _ _ _ => ret [])
           (fun _ _ => ret (grid_2_3, (grid_2_3, grid_2_3)))
           (fun _ _ storer => ret storer) (fun _ _ storer => ret storer)
           {| lat_sizes_attr := None; lat_names_attr := None;
              imgs_attr := None |}
           [tt] false true
           {| training := true; ext := tt; files := []; runs := [] |}
           {| training := true; ext := tt;
              files := [(TEST_LOSSES_FILE, LossesFile (Some []))];
              runs := [false] |}
           None (Some [])).
  reflexivity.
Defined.

(** ** The trainer *)

Section TrainerFacts.

Variable St : Type.
Variable batch fwd loss : Type.
Variable str_int : Z -> String.string.
Variable str_float : R -> String.string.
Variable model_forward : bool -> batch -> M St fwd.
Variable loss_f : batch -> fwd -> bool -> M (St * pydict (list R)) loss.
Variable optimizer_step : loss -> M St unit.
Variable loss_call_optimize : batch -> bool -> M (St * pydict (list R)) loss.
Variable item : loss -> R.
Variable ndim : batch -> nat.
Variable gif_visualizer : option (M St unit).
Variable gif_save_reset : M St unit.
Variable scheduler : option (M St unit).
Variable save_model : bool -> M St unit.

Local Abbreviation W := (trainer_world St).
Local Abbreviation iteration :=
  (_train_iteration St batch fwd loss model_forward loss_f optimizer_step
     loss_call_optimize item ndim).
Local Abbreviation epoch_loop :=
  (train_epoch_loop St batch fwd loss model_forward loss_f optimizer_step
     loss_call_optimize item ndim).
Local Abbreviation train_epoch :=
  (_train_epoch St batch fwd loss model_forward loss_f optimizer_step
     loss_call_optimize item ndim).
Local Abbreviation log := (losses_log St str_int str_float).
Local Abbreviation one_epoch :=
  (train_one_epoch St batch fwd loss str_int str_float model_forward loss_f
     optimizer_step loss_call_optimize item ndim gif_visualizer scheduler
     save_model).
Local Abbreviation trainer :=
  (Trainer_call St batch fwd loss str_int str_float model_forward loss_f
     optimizer_step loss_call_optimize item ndim gif_visualizer
     gif_save_reset scheduler save_model).

(** *** The losses log *)

Lemma losses_log_run (epoch : nat) (storer : pydict (list R)) (w : W) :
  let sent := logged_entries storer in
  let lines := map (fun kv => log_line str_int str_float epoch (fst kv)
                                (rsum (snd kv) / INR (length (snd kv)))%R)
                   sent in
  log epoch storer w =
  (if length sent =? length storer then Returns tt
   else Raises ZeroDivisionError,
   {| t_training := t_training St w; t_ext := t_ext St w;
      t_storer := t_storer St w; t_lines := t_lines St w ++ lines;
      t_saved := t_saved St w; t_runs := t_runs St w |}).
Proof.
  unfold losses_log. revert w.
  induction storer as [|[k v] t IH]; intros w.
  - cbn. rewrite app_nil_r. destruct w; reflexivity.
  - cbn [tfor_each]. unfold tbind. cbn [snd fst].
    destruct v as [|x v].
    + cbn. rewrite app_nil_r. destruct w; reflexivity.
    + cbn [mean]. rewrite IH. cbn [logged_entries map length t_training t_ext
        t_storer t_lines t_saved t_runs fst snd].
      rewrite <- app_assoc. reflexivity.
Qed.

(** X11.  [LossesLogger.log] sends one line per entry of the storer, in order,
    with the mean of its values, up to the first entry without a value:
    there it raises [ZeroDivisionError], the lines before it sent.  It
    returns when every entry has a value, and changes nothing else. *)
Theorem losses_log_lines (epoch : nat) (storer : pydict (list R)) (w : W) :
  let sent := logged_entries storer in
  let lines := map (fun kv => log_line str_int str_float epoch (fst kv)
                                (rsum (snd kv) / INR (length (snd kv)))%R)
                   sent in
  log epoch storer w =
  (if length sent =? length storer then Returns tt
   else Raises ZeroDivisionError,
   {| t_training := t_training St w; t_ext := t_ext St w;
      t_storer := t_storer St w; t_lines := t_lines St w ++ lines;
      t_saved := t_saved St w; t_runs := t_runs St w |}).
Proof.
  unfold losses_log. revert w.
  induction storer as [|[k v] t IH]; intros w.
  - cbn. rewrite app_nil_r. destruct w; reflexivity.
  - cbn [tfor_each]. unfold tbind. cbn [snd fst].
    destruct v as [|x v].
    + cbn. rewrite app_nil_r. destruct w; reflexivity.
    + cbn [mean]. rewrite IH. cbn [logged_entries map length t_training t_ext
        t_storer t_lines t_saved t_runs fst snd].
      rewrite <- app_assoc. reflexivity.
Qed.

(** *** The batches of an epoch *)

Lemma epoch_loop_prefix (s : Z) (batches : list batch) :
  forall (step : nat) (acc : R) (w : W),
    epoch_loop (Some s) step batches acc w =
    tfor_each (firstn (Z.to_nat (s + 1) - step) batches)
      (fun acc data => l <-- iteration data ;; tret (acc + l)%R) acc w.
Proof.
  induction batches as [|data rest IH]; intros step acc w.
  - rewrite firstn_nil. reflexivity.
  - cbn [train_epoch_loop]. destruct (Z.ltb_spec s (Z.of_nat step)) as [H|H].
    + replace (Z.to_nat (s + 1) - step) with 0 by lia. reflexivity.
    + replace (Z.to_nat (s + 1) - step) with (S (Z.to_nat (s + 1) - S step))
        by lia.
      cbn [firstn tfor_each]. unfold tbind.
      destruct (iteration data w) as [[l|e] w1]; [|reflexivity].
      cbn. apply IH.
Qed.

Lemma epoch_loop_all (batches : list batch) :
  forall (step : nat) (acc : R) (w : W),
    epoch_loop None step batches acc w =
    tfor_each batches
      (fun acc data => l <-- iteration data ;; tret (acc + l)%R) acc w.
Proof.
  induction batches as [|data rest IH]; intros step acc w; [reflexivity|].
  cbn [train_epoch_loop tfor_each]. unfold tbind.
  destruct (iteration data w) as [[l|e] w1]; [|reflexivity].
  cbn. apply IH.
Qed.

Lemma train_epoch_run
    (steps : option Z) (data_loader : list batch) (w : W) :
  train_epoch steps data_loader w =
  (epoch_loss <-- tfor_each (trained_batches steps data_loader)
                    (fun acc data => l <-- iteration data ;; tret (acc + l)%R)
                    0%R ;;
   if length data_loader =? 0 then traise ZeroDivisionError
   else tret (epoch_loss / INR (length data_loader))%R) w.
Proof.
  unfold _train_epoch, tbind at 1 3.
  destruct steps as [s|]; cbn [trained_batches].
  - rewrite epoch_loop_prefix, Nat.sub_0_r. reflexivity.
  - rewrite epoch_loop_all. reflexivity.
Qed.

(** X12.  With a step limit [s] an epoch trains on the first [s + 1] batches
    only (on none when [s] is negative), in order; the loss it returns is
    the sum of their losses divided by the number of all the batches of
    the loader, and an empty loader raises [ZeroDivisionError]. *)
Theorem train_epoch_trains_on_prefix
    (steps : option Z) (data_loader : list batch) (w : W) :
  train_epoch steps data_loader w =
  (epoch_loss <-- tfor_each (trained_batches steps data_loader)
                    (fun acc data => l <-- iteration data ;; tret (acc + l)%R)
                    0%R ;;
   if length data_loader =? 0 then traise ZeroDivisionError
   else tret (epoch_loss / INR (length data_loader))%R) w.
Proof.
  unfold _train_epoch, tbind at 1 3.
  destruct steps as [s|]; cbn [trained_batches].
  - rewrite epoch_loop_prefix, Nat.sub_0_r. reflexivity.
  - rewrite epoch_loop_all. reflexivity.
Qed.

(** *** Modes and assertions *)

Lemma train_ok_intro {A : Type} (m : T W A) :
  (forall w, t_training St w = true ->
     fst (m w) <> Raises AssertionError /\
     t_training St (snd (m w)) = true /\
     t_runs St (snd (m w)) = t_runs St w) ->
  train_ok m.
Proof.
  intros H w Hw. destruct (H w Hw) as (H1 & H2 & H3).
  repeat split; try assumption. exists []. rewrite app_nil_r.
  split; [exact H3 | constructor].
Qed.

Lemma train_ok_tret {A : Type} (a : A) : train_ok (St := St) (tret a).
Proof. apply train_ok_intro. intros w Hw. cbn. repeat split; auto. discriminate. Qed.

Lemma train_ok_traise {A : Type} (e : pyexn) :
  e <> AssertionError -> train_ok (St := St) (A := A) (traise e).
Proof.
  intros He. apply train_ok_intro. intros w Hw. cbn. repeat split; auto.
  congruence.
Qed.

Lemma train_ok_of_result {A : Type} (r : result A) :
  train_ok (St := St) (of_result r).
Proof.
  apply train_ok_intro. intros w Hw. destruct r; cbn; repeat split; auto;
    discriminate.
Qed.

Lemma train_ok_outside {A : Type} (m : M St A) :
  train_ok (t_outside St m).
Proof.
  apply train_ok_intro. intros w Hw. unfold t_outside.
  destruct (m (t_ext St w)) as [[a|e] s]; cbn; repeat split; auto;
    discriminate.
Qed.

Lemma train_ok_with_storer {A : Type} (m : M (St * pydict (list R)) A) :
  train_ok (t_with_storer St m).
Proof.
  apply train_ok_intro. intros w Hw. unfold t_with_storer.
  destruct (m (t_ext St w, t_storer St w)) as [[a|e] s]; cbn;
    repeat split; auto; discriminate.
Qed.

Lemma train_ok_optional (m : option (M St unit)) :
  train_ok (t_optional St m).
Proof.
  destruct m; [apply train_ok_outside | apply train_ok_tret].
Qed.

Lemma train_ok_set_storer (d : pydict (list R)) :
  train_ok (t_set_storer St d).
Proof.
  apply train_ok_intro. intros w Hw. cbn. repeat split; auto. discriminate.
Qed.

Lemma train_ok_save_checkpoint (epoch : nat) :
  train_ok (t_save_checkpoint St str_int save_model epoch).
Proof.
  apply train_ok_intro. intros w Hw. unfold t_save_checkpoint.
  destruct (save_model _ _) as [[a|e] s]; cbn; repeat split; auto;
    discriminate.
Qed.

Lemma train_ok_forward (data : batch) :
  train_ok (t_forward St batch fwd model_forward data).
Proof.
  intros w Hw. unfold t_forward.
  destruct (model_forward _ _ _) as [[a|e] s]; cbn;
    (split; [discriminate|]; split; [exact Hw|]);
    exists [t_training St w]; (split; [reflexivity|]);
    constructor; [exact Hw | constructor | exact Hw | constructor].
Qed.

Lemma train_ok_log (epoch : nat) (storer : pydict (list R)) :
  train_ok (log epoch storer).
Proof.
  apply train_ok_intro. intros w Hw. rewrite losses_log_run. cbn.
  repeat split; auto. destruct (_ =? _); discriminate.
Qed.

Lemma train_ok_bind {A B : Type} (m : T W A) (f : A -> T W B) :
  train_ok m -> (forall a, train_ok (f a)) -> train_ok (tbind m f).
Proof.
  intros Hm Hf w Hw. unfold tbind.
  destruct (Hm w Hw) as (Hn & Ht & new & Hr & Hnew).
  destruct (m w) as [[a|e] w1]; cbn [fst snd] in *; cbv beta iota.
  - destruct (Hf a w1 Ht) as (Hn' & Ht' & new' & Hr' & Hnew').
    split; [assumption|]. split; [assumption|]. exists (new ++ new').
    rewrite Hr', Hr, app_assoc.
    split; [reflexivity | apply Forall_app; split; assumption].
  - split; [intros E; apply Hn; congruence|].
    split; [assumption|]. exists new. split; assumption.
Qed.

(** Reading the mode in training mode gives [true]. *)
Lemma train_ok_mode {B : Type} (f : bool -> T W B) :
  train_ok (f true) -> train_ok (tbind (t_mode St) f).
Proof.
  intros Hf w Hw. unfold tbind, t_mode. rewrite Hw. apply Hf. exact Hw.
Qed.

Lemma train_ok_try {A : Type} (body handler : T W A) :
  train_ok body -> train_ok handler ->
  train_ok (ttry_except_ValueError body handler).
Proof.
  intros Hb Hh w Hw. unfold ttry_except_ValueError.
  destruct (Hb w Hw) as (Hn & Ht & new & Hr & Hnew).
  destruct (body w) as [[a|e] w1]; cbn [fst snd] in *; cbv beta iota.
  - split; [assumption|]. split; [assumption|]. exists new. split; assumption.
  - destruct e as [[]| | | |];
      try (split; [assumption|]; split; [assumption|]; exists new; split;
           assumption).
    destruct (Hh w1 Ht) as (Hn' & Ht' & new' & Hr' & Hnew').
    split; [assumption|]. split; [assumption|]. exists (new ++ new').
    rewrite Hr', Hr, app_assoc.
    split; [reflexivity | apply Forall_app; split; assumption].
Qed.

Lemma train_ok_iteration (data : batch) : train_ok (iteration data).
Proof.
  unfold _train_iteration.
  apply train_ok_bind; [apply train_ok_of_result | intros _].
  apply train_ok_bind; [|intros l; apply train_ok_tret].
  apply train_ok_try.
  - apply train_ok_bind; [apply train_ok_forward | intros out].
    apply train_ok_mode.
    apply train_ok_bind; [apply train_ok_tret | intros _].
    apply train_ok_bind; [apply train_ok_with_storer | intros l].
    apply train_ok_bind; [apply train_ok_outside | intros _].
    apply train_ok_tret.
  - apply train_ok_mode. apply train_ok_with_storer.
Qed.

Lemma train_ok_for_each {A X : Type} (xs : list X) (body : A -> X -> T W A) :
  (forall acc x, train_ok (body acc x)) ->
  forall acc, train_ok (tfor_each xs body acc).
Proof.
  intros Hb. induction xs as [|x xs IH]; intros acc.
  - apply train_ok_tret.
  - cbn [tfor_each]. apply train_ok_bind; [apply Hb | exact IH].
Qed.

Lemma train_ok_epoch (steps : option Z) (data_loader : list batch) :
  train_ok (train_epoch steps data_loader).
Proof.
  intros w. rewrite train_epoch_run. revert w.
  apply train_ok_bind.
  - apply train_ok_for_each. intros acc data.
    apply train_ok_bind; [apply train_ok_iteration|].
    intros l. apply train_ok_tret.
  - intros l. destruct (_ =? _);
      [apply train_ok_traise; discriminate | apply train_ok_tret].
Qed.

Lemma train_ok_one_epoch (steps : option Z) (data_loader : list batch)
    (checkpoint_every : Z) (epoch : nat) :
  train_ok (one_epoch steps data_loader checkpoint_every epoch).
Proof.
  unfold train_one_epoch.
  apply train_ok_bind; [apply train_ok_set_storer | intros _].
  apply train_ok_mode.
  apply train_ok_bind; [apply train_ok_tret | intros _].
  apply train_ok_bind; [apply train_ok_epoch | intros _].
  apply train_ok_bind.
  { apply train_ok_intro. intros w Hw. cbn. repeat split; auto. discriminate. }
  intros storer.
  apply train_ok_bind; [apply train_ok_log | intros _].
  apply train_ok_bind; [apply train_ok_optional | intros _].
  apply train_ok_bind.
  { destruct (_ =? _)%Z; [apply train_ok_traise; discriminate|].
    destruct (_ =? _)%Z; [apply train_ok_save_checkpoint | apply train_ok_tret]. }
  intros _.
  apply train_ok_bind; [apply train_ok_optional | intros _].
  apply train_ok_intro. intros w Hw. cbn. repeat split; auto. discriminate.
Qed.

(** X13.  Whatever the model, the loss and the loader do: a call of the trainer
    never fails an assertion of [self.model.training], every forward pass
    of a training iteration is in training mode, and a call that returns
    leaves the model in evaluation mode. *)
Theorem trainer_trains_in_training_mode
    (steps : option Z) (data_loader : list batch) (epochs : nat)
    (checkpoint_every : Z) (wandb_log : bool) (w : W) :
  let out := Trainer_call St batch fwd loss str_int str_float model_forward
               loss_f optimizer_step loss_call_optimize item ndim
               gif_visualizer gif_save_reset scheduler save_model steps
               data_loader epochs checkpoint_every wandb_log w in
  fst out <> Raises AssertionError /\
  (exists new,
     t_runs St (snd out) = t_runs St w ++ new /\
     Forall (fun mode => mode = true) new) /\
  (forall u, fst out = Returns u -> t_training St (snd out) = false).
Proof.
  cbv zeta.
  set (w0 := {| t_training := true; t_ext := t_ext St w;
                t_storer := t_storer St w; t_lines := t_lines St w;
                t_saved := t_saved St w; t_runs := t_runs St w |}).
  set (inner :=
    _ <-- (if wandb_log
           then of_result (call_with_keywords Evaluator_init_params
                             train_evaluator_keywords)
           else tret tt) ;;
    _ <-- tfor_each (seq 0 epochs)
            (fun _ epoch => one_epoch steps data_loader checkpoint_every
                              epoch) tt ;;
    match gif_visualizer with
    | Some _ => t_outside St gif_save_reset
    | None => tret tt
    end).
  assert (Hinner : train_ok inner).
  { apply train_ok_bind.
    { destruct wandb_log; [apply train_ok_of_result | apply train_ok_tret]. }
    intros _. apply train_ok_bind.
    { apply train_ok_for_each. intros acc x. apply train_ok_one_epoch. }
    intros _. destruct gif_visualizer;
      [apply train_ok_outside | apply train_ok_tret]. }
  assert (E : trainer steps data_loader epochs checkpoint_every wandb_log w
              = tbind inner (fun _ => t_set_training St false) w0).
  { unfold Trainer_call, inner, tbind, t_set_training. fold w0.
    destruct (if wandb_log then _ else _) as [[u|e] w1]; [|reflexivity].
    destruct (tfor_each _ _ _ w1) as [[u'|e] w2]; [|reflexivity].
    reflexivity. }
  rewrite E. clear E. unfold tbind.
  destruct (Hinner w0 eq_refl) as (Hn & Ht & new & Hr & Hnew).
  destruct (inner w0) as [[u|e] w1]; cbn [fst snd] in *.
  - split; [discriminate|]. split; [exists new; split; assumption|].
    intros _ _. reflexivity.
  - split; [intros E; apply Hn; congruence|].
    split; [exists new; split; assumption|].
    discriminate.
Qed.

(** *** Tracking *)

(** X14.  With [wandb_log] a call of the trainer raises [TypeError] when it
    builds its evaluator, whose constructor has none of the keywords
    [dset_name], [seed], [higgins_drop_slow], [sample_size],
    [dataset_size] and [no_shape_classifier]: no batch is seen, no line
    logged, no checkpoint saved, and the model is left in training mode. *)
Theorem tracking_trainer_raises_type_error
    (steps : option Z) (data_loader : list batch) (epochs : nat)
    (checkpoint_every : Z) (w : W) :
  Trainer_call St batch fwd loss str_int str_float model_forward loss_f
    optimizer_step loss_call_optimize item ndim gif_visualizer gif_save_reset
    scheduler save_model steps data_loader epochs checkpoint_every true w =
  (Raises (Evaluate TypeError),
   {| t_training := true; t_ext := t_ext St w; t_storer := t_storer St w;
      t_lines := t_lines St w; t_saved := t_saved St w;
      t_runs := t_runs St w |}).
Proof. reflexivity. Qed.

(** *** Checkpoints *)

Lemma saves_keep {A : Type} (m : T W A) :
  (forall w, t_saved St (snd (m w)) = t_saved St w) -> saves [] m.
Proof.
  intros H w. rewrite app_nil_r. split; [left; apply H | intros _ _; apply H].
Qed.

Lemma saves_kept {A : Type} (m : T W A) (w : W) :
  saves [] m -> t_saved St (snd (m w)) = t_saved St w.
Proof.
  intros H. destruct (H w) as [[E|E] _]; [rewrite app_nil_r in E|]; exact E.
Qed.

Lemma saves_bind_keep {A B : Type} (names : list String.string)
    (m : T W A) (f : A -> T W B) :
  saves [] m -> (forall a, saves names (f a)) -> saves names (tbind m f).
Proof.
  intros Hm Hf w. pose proof (saves_kept m w Hm) as E. unfold tbind.
  destruct (m w) as [[a|e] w1]; cbn [snd] in E.
  - rewrite <- E. apply Hf.
  - cbn [fst snd]. split; [right; exact E | discriminate].
Qed.

Lemma saves_bind_then_keep {A B : Type} (names : list String.string)
    (m : T W A) (f : A -> T W B) :
  saves names m -> (forall a, saves [] (f a)) -> saves names (tbind m f).
Proof.
  intros Hm Hf w. destruct (Hm w) as [Hany Hret]. unfold tbind.
  destruct (m w) as [[a|e] w1]; cbn [fst snd] in *.
  - rewrite (saves_kept (f a) w1 (Hf a)).
    split; [left|intros _ _]; apply (Hret a eq_refl).
  - split; [exact Hany | discriminate].
Qed.

Lemma saves_tret {A : Type} (a : A) : saves (St := St) [] (tret a).
Proof. apply saves_keep. reflexivity. Qed.

Lemma saves_traise {A : Type} (e : pyexn) :
  saves (St := St) (A := A) [] (traise e).
Proof. apply saves_keep. reflexivity. Qed.

Lemma saves_of_result {A : Type} (r : result A) :
  saves (St := St) [] (of_result r).
Proof. apply saves_keep. intros w. destruct r; reflexivity. Qed.

Lemma saves_outside {A : Type} (m : M St A) : saves [] (t_outside St m).
Proof.
  apply saves_keep. intros w. unfold t_outside.
  destruct (m (t_ext St w)) as [r s]. reflexivity.
Qed.

Lemma saves_with_storer {A : Type} (m : M (St * pydict (list R)) A) :
  saves [] (t_with_storer St m).
Proof.
  apply saves_keep. intros w. unfold t_with_storer.
  destruct (m (t_ext St w, t_storer St w)) as [r s]. reflexivity.
Qed.

Lemma saves_optional (m : option (M St unit)) : saves [] (t_optional St m).
Proof. destruct m; [apply saves_outside | apply saves_tret]. Qed.

Lemma saves_forward (data : batch) :
  saves [] (t_forward St batch fwd model_forward data).
Proof.
  apply saves_keep. intros w. unfold t_forward.
  destruct (model_forward _ _ _) as [r s]. reflexivity.
Qed.

Lemma saves_mode {B : Type} (names : list String.string)
    (f : bool -> T W B) :
  (forall mode, saves names (f mode)) -> saves names (tbind (t_mode St) f).
Proof.
  intros Hf. apply saves_bind_keep; [|exact Hf]. apply saves_keep.
  reflexivity.
Qed.

Lemma saves_assert (c : bool) : saves (St := St) [] (py_assert c).
Proof. destruct c; [apply saves_tret | apply saves_traise]. Qed.

Lemma saves_try {A : Type} (body handler : T W A) :
  saves [] body -> saves [] handler ->
  saves [] (ttry_except_ValueError body handler).
Proof.
  intros Hb Hh. apply saves_keep. intros w.
  pose proof (saves_kept body w Hb) as E. unfold ttry_except_ValueError.
  destruct (body w) as [[a|e] w1]; cbn [snd] in *; [exact E|].
  destruct e as [[]| | | |]; cbn [snd]; try exact E.
  rewrite (saves_kept handler w1 Hh). exact E.
Qed.

Lemma saves_iteration (data : batch) : saves [] (iteration data).
Proof.
  unfold _train_iteration.
  apply saves_bind_keep; [apply saves_of_result | intros _].
  apply saves_bind_keep; [|intros l; apply saves_tret].
  apply saves_try.
  - apply saves_bind_keep; [apply saves_forward | intros out].
    apply saves_mode. intros mode.
    apply saves_bind_keep; [apply saves_assert | intros _].
    apply saves_bind_keep; [apply saves_with_storer | intros l].
    apply saves_bind_keep; [apply saves_outside | intros _].
    apply saves_tret.
  - apply saves_mode. intros mode. apply saves_with_storer.
Qed.

Lemma saves_for_each {A X : Type} (xs : list X) (body : A -> X -> T W A) :
  (forall acc x, saves [] (body acc x)) ->
  forall acc, saves [] (tfor_each xs body acc).
Proof.
  intros Hb. induction xs as [|x xs IH]; intros acc.
  - apply saves_tret.
  - cbn [tfor_each]. apply saves_bind_keep; [apply Hb | exact IH].
Qed.

Lemma saves_epoch (steps : option Z) (data_loader : list batch) :
  saves [] (train_epoch steps data_loader).
Proof.
  apply saves_keep. intros w. rewrite train_epoch_run.
  apply saves_kept. apply saves_bind_keep.
  - apply saves_for_each. intros acc data.
    apply saves_bind_keep; [apply saves_iteration|].
    intros l. apply saves_tret.
  - intros l. destruct (_ =? _); [apply saves_traise | apply saves_tret].
Qed.

Lemma saves_log (epoch : nat) (storer : pydict (list R)) :
  saves [] (log epoch storer).
Proof.
  apply saves_keep. intros w. rewrite losses_log_run. reflexivity.
Qed.

Lemma saves_save_checkpoint (epoch : nat) :
  saves [checkpoint_name str_int epoch]
        (t_save_checkpoint St str_int save_model epoch).
Proof.
  intros w. unfold t_save_checkpoint.
  destruct (save_model _ _) as [[a|e] s]; cbn [fst snd t_saved].
  - split; [left|intros _ _]; reflexivity.
  - split; [right; reflexivity | discriminate].
Qed.

Lemma saves_set_training (b : bool) : saves [] (t_set_training St b).
Proof. apply saves_keep. reflexivity. Qed.

(** One epoch saves its checkpoint when it is due. *)
Lemma saves_one_epoch (steps : option Z) (data_loader : list batch)
    (checkpoint_every : Z) (epoch : nat) :
  checkpoint_every <> 0%Z ->
  saves (map (checkpoint_name str_int)
           (filter (fun e => (Z.of_nat e mod checkpoint_every =? 0)%Z)
                   [epoch]))
        (one_epoch steps data_loader checkpoint_every epoch).
Proof.
  intros Hc. unfold train_one_epoch.
  apply saves_bind_keep; [apply saves_keep; reflexivity | intros _].
  apply saves_mode. intros mode.
  apply saves_bind_keep; [apply saves_assert | intros _].
  apply saves_bind_keep; [apply saves_epoch | intros _].
  apply saves_bind_keep; [apply saves_keep; reflexivity | intros storer].
  apply saves_bind_keep; [apply saves_log | intros _].
  apply saves_bind_keep; [apply saves_optional | intros _].
  apply saves_bind_then_keep.
  - destruct (Z.eqb_spec checkpoint_every 0) as [E|_]; [contradiction|].
    cbn [filter].
    destruct (_ =? _)%Z; [apply saves_save_checkpoint | apply saves_tret].
  - intros _.
    apply saves_bind_keep; [apply saves_optional | intros _].
    apply saves_bind_keep; [|intros _]; apply saves_set_training.
Qed.

Lemma filter_cons_app {X : Type} (p : X -> bool) (x : X) (l : list X) :
  filter p (x :: l) = filter p [x] ++ filter p l.
Proof. cbn [filter]. destruct (p x); reflexivity. Qed.

(** The loop over the epochs saves the checkpoints due in the epochs it
    went through. *)
Lemma epochs_saved (steps : option Z) (data_loader : list batch)
    (checkpoint_every : Z) (es : list nat) :
  checkpoint_every <> 0%Z ->
  forall w,
    let out := tfor_each es
                 (fun _ epoch => one_epoch steps data_loader checkpoint_every
                                   epoch) tt w in
    exists k,
      k <= length es /\
      t_saved St (snd out) =
        t_saved St w ++
        map (checkpoint_name str_int)
          (filter (fun e => (Z.of_nat e mod checkpoint_every =? 0)%Z)
                  (firstn k es)) /\
      (forall u, fst out = Returns u -> k = length es).
Proof.
  intros Hc. induction es as [|x t IH]; intros w; cbn zeta.
  - exists 0. cbn. rewrite app_nil_r. repeat split; auto.
  - cbn [tfor_each]. unfold tbind.
    destruct (saves_one_epoch steps data_loader checkpoint_every x Hc w)
      as [Hany Hret].
    destruct (one_epoch steps data_loader checkpoint_every x w)
      as [[[]|e] w1]; cbn [fst snd] in *.
    + destruct (IH w1) as (k & Hk & Hs & Hr). cbn zeta in Hs, Hr.
      exists (S k). split; [cbn [length]; lia|]. split.
      * rewrite Hs, (Hret tt eq_refl). cbn [firstn].
        rewrite (filter_cons_app _ x (firstn k t)), map_app, app_assoc.
        reflexivity.
      * intros u Hu. cbn [length]. f_equal. exact (Hr u Hu).
    + destruct Hany as [E|E].
      * exists 1. split; [cbn [length]; lia|]. split; [|discriminate].
        cbn [firstn]. exact E.
      * exists 0. split; [lia|]. split; [|discriminate].
        cbn [firstn filter map]. rewrite app_nil_r. exact E.
Qed.

Lemma firstn_seq (k n : nat) : k <= n -> firstn k (seq 0 n) = seq 0 k.
Proof.
  intros H. replace n with (k + (n - k)) by lia.
  rewrite seq_app, firstn_app, length_seq, Nat.sub_diag, firstn_O, app_nil_r.
  rewrite firstn_all2 by (rewrite length_seq; lia). reflexivity.
Qed.

(** X15.  For a [checkpoint_every] that is not zero, the checkpoints that a call
    of the trainer saves are those of the epochs [0], [checkpoint_every],
    [2 * checkpoint_every], ... in this order: all of them below [epochs]
    when the call returns, and those below some epoch when it raises. *)
Theorem checkpoints_every_nth_epoch
    (steps : option Z) (data_loader : list batch) (epochs : nat)
    (checkpoint_every : Z) (wandb_log : bool) (w : W) :
  checkpoint_every <> 0%Z ->
  let out := Trainer_call St batch fwd loss str_int str_float model_forward
               loss_f optimizer_step loss_call_optimize item ndim
               gif_visualizer gif_save_reset scheduler save_model steps
               data_loader epochs checkpoint_every wandb_log w in
  (exists k,
     k <= epochs /\
     t_saved St (snd out) =
       t_saved St w ++
       map (checkpoint_name str_int) (checkpoint_epochs checkpoint_every k))
  /\
  (forall u,
     fst out = Returns u ->
     t_saved St (snd out) =
       t_saved St w ++
       map (checkpoint_name str_int)
         (checkpoint_epochs checkpoint_every epochs)).
Proof.
  intros Hc. cbv zeta.
  set (w0 := {| t_training := true; t_ext := t_ext St w;
                t_storer := t_storer St w; t_lines := t_lines St w;
                t_saved := t_saved St w; t_runs := t_runs St w |}).
  destruct wandb_log.
  - change (trainer steps data_loader epochs checkpoint_every true w)
      with (@Raises unit (Evaluate TypeError), w0).
    cbn [fst snd t_saved w0]. split; [|discriminate].
    exists 0. split; [lia|]. cbn. rewrite app_nil_r. reflexivity.
  - destruct (epochs_saved steps data_loader checkpoint_every (seq 0 epochs)
                Hc w0) as (k & Hk & Hs & Hr).
    cbn zeta in Hs, Hr. rewrite length_seq in Hk, Hr.
    rewrite firstn_seq in Hs by exact Hk.
    pose (rest := fun _ : unit =>
                    _ <-- match gif_visualizer with
                          | Some _ => t_outside St gif_save_reset
                          | None => tret tt
                          end ;;
                    t_set_training St false).
    assert (Hrest : saves [] (rest tt)).
    { apply saves_bind_keep; [|intros _; apply saves_set_training].
      destruct gif_visualizer; [apply saves_outside | apply saves_tret]. }
    assert (E : trainer steps data_loader epochs checkpoint_every false w =
                tbind (tfor_each (seq 0 epochs)
                         (fun _ epoch => one_epoch steps data_loader
                                           checkpoint_every epoch) tt)
                      rest w0) by reflexivity.
    rewrite E. clear E. unfold tbind.
    destruct (tfor_each _ _ _ w0) as [[[]|e] w1]; cbn [fst snd] in *.
    + rewrite (saves_kept _ w1 Hrest).
      rewrite (Hr tt eq_refl) in Hs.
      split; [exists epochs; split; [lia | exact Hs] | intros _ _; exact Hs].
    + split; [exists k; split; [exact Hk | exact Hs] | discriminate].
Qed.

Lemma never_returns_bind_l {A B : Type} (m : T W A) (f : A -> T W B) :
  never_returns m -> never_returns (tbind m f).
Proof.
  intros Hm w. destruct (Hm w) as [Hn Hs]. unfold tbind.
  destruct (m w) as [[a|e] w1]; cbn [fst snd] in *.
  - exfalso. exact (Hn a eq_refl).
  - split; [discriminate | exact Hs].
Qed.

Lemma never_returns_bind_r {A B : Type} (m : T W A) (f : A -> T W B) :
  saves [] m -> (forall a, never_returns (f a)) -> never_returns (tbind m f).
Proof.
  intros Hm Hf w. pose proof (saves_kept m w Hm) as E. unfold tbind.
  destruct (m w) as [[a|e] w1]; cbn [fst snd] in *.
  - rewrite <- E. apply Hf.
  - split; [discriminate | exact E].
Qed.

Lemma never_returns_one_epoch (steps : option Z) (data_loader : list batch)
    (epoch : nat) :
  never_returns (one_epoch steps data_loader 0%Z epoch).
Proof.
  unfold train_one_epoch.
  apply never_returns_bind_r; [apply saves_keep; reflexivity | intros _].
  apply never_returns_bind_r; [apply saves_keep; reflexivity | intros mode].
  apply never_returns_bind_r; [apply saves_assert | intros _].
  apply never_returns_bind_r; [apply saves_epoch | intros _].
  apply never_returns_bind_r; [apply saves_keep; reflexivity | intros storer].
  apply never_returns_bind_r; [apply saves_log | intros _].
  apply never_returns_bind_r; [apply saves_optional | intros _].
  apply never_returns_bind_l. cbn. intros w. split; [discriminate|reflexivity].
Qed.

(** X16.  With [checkpoint_every = 0] and at least one epoch a call of the
    trainer never returns (the first epoch that gets as far as its
    checkpoint raises [ZeroDivisionError]), and saves no checkpoint. *)
Theorem checkpoint_every_zero_never_returns
    (steps : option Z) (data_loader : list batch) (epochs : nat)
    (wandb_log : bool) (w : W) :
  0 < epochs ->
  let out := Trainer_call St batch fwd loss str_int str_float model_forward
               loss_f optimizer_step loss_call_optimize item ndim
               gif_visualizer gif_save_reset scheduler save_model steps
               data_loader epochs 0%Z wandb_log w in
  (forall u, fst out <> Returns u) /\
  t_saved St (snd out) = t_saved St w.
Proof.
  intros He. cbv zeta. destruct epochs as [|n]; [lia|].
  assert (H : never_returns (trainer steps data_loader (S n) 0%Z wandb_log)).
  { unfold Trainer_call.
    apply never_returns_bind_r; [apply saves_set_training | intros _].
    apply never_returns_bind_r.
    { destruct wandb_log; [apply saves_of_result | apply saves_tret]. }
    intros _. apply never_returns_bind_l.
    cbn [seq tfor_each]. apply never_returns_bind_l.
    apply never_returns_one_epoch. }
  exact (H w).
Qed.

End TrainerFacts.

(** Three epochs with a checkpoint every second one. *)
Lemma checkpoints_every_nth_epoch_witness :
  (exists k,
     k <= 3 /\
     t_saved unit (snd (small_trainer None [0] 3 2 false new_world)) =
       t_saved unit new_world ++
       map (checkpoint_name str_of_Z) (checkpoint_epochs 2 k))
  /\
  (forall u,
     fst (small_trainer None [0] 3 2 false new_world) = Returns u ->
     t_saved unit (snd (small_trainer None [0] 3 2 false new_world)) =
       t_saved unit new_world ++
       map (checkpoint_name str_of_Z) (checkpoint_epochs 2 3)).
Proof.
  apply (checkpoints_every_nth_epoch unit nat unit R str_of_Z
           (fun _ => "1.0"%string) (fun _ _ => ret tt)
           (fun _ _ _ => ret 1%R) (fun _ => ret tt) (fun _ _ => ret 1%R)
           (fun l => l) (fun _ => 4) None (ret tt) None (fun _ => ret tt)
           None [0] 3 2%Z false new_world).
  lia.
Defined.

(** One epoch with [checkpoint_every = 0]. *)
Lemma checkpoint_every_zero_never_returns_witness :
  (forall u, fst (small_trainer None [0] 1 0 false new_world) <> Returns u) /\
  t_saved unit (snd (small_trainer None [0] 1 0 false new_world))
    = t_saved unit new_world.
Proof.
  apply (checkpoint_every_zero_never_returns unit nat unit R str_of_Z
           (fun _ => "1.0"%string) (fun _ _ => ret tt)
           (fun _ _ _ => ret 1%R) (fun _ => ret tt) (fun _ _ => ret 1%R)
           (fun l => l) (fun _ => 4) None (ret tt) None (fun _ => ret tt)
           None [0] 1 false new_world).
  lia.
Defined.

(** ** The builder and the slices agree on the layout of the dataset *)

Section LayoutFacts.

Lemma length_row (d : nat) (xs : list R) (i : nat) :
  (i + 1) * d <= length xs -> length (row d xs i) = d.
Proof.
  intros H. unfold row. rewrite length_firstn, length_skipn. lia.
Qed.

(** A table made of rows of another table: its row [p] is the row that
    was put there. *)
Lemma row_concat_rows (d : nat) (xs : list R) (idxs : list nat) :
  Forall (fun i => (i + 1) * d <= length xs) idxs ->
  forall p, p < length idxs ->
    row d (concat (map (row d xs) idxs)) p = row d xs (nth p idxs 0).
Proof.
  induction 1 as [|i idxs Hi Hidxs IH]; intros p Hp; [cbn in Hp; lia|].
  cbn [map concat]. pose proof (length_row d xs i Hi) as L.
  destruct p as [|p].
  - cbn [nth]. unfold row at 1. cbn [Nat.mul skipn].
    rewrite firstn_app, L, Nat.sub_diag, firstn_O, app_nil_r.
    apply firstn_all2. lia.
  - cbn [nth]. rewrite <- IH by (cbn in Hp; lia). unfold row at 1 3.
    f_equal. replace (S p * d) with (p * d + length (row d xs i)) by lia.
    rewrite <- skipn_skipn, skipn_app, skipn_all, Nat.sub_diag.
    reflexivity.
Qed.

(** Entry [o * P + r] of [n] blocks of [P] consecutive numbers. *)
Lemma nth_flat_map_blocks (f : nat -> nat) (P : nat) :
  forall n a o r,
    o < n -> r < P ->
    nth (o * P + r) (flat_map (fun b => seq (f b) P) (seq a n)) 0 =
    f (a + o) + r.
Proof.
  induction n as [|n IH]; intros a o r Ho Hr; [lia|].
  cbn [seq flat_map]. destruct o as [|o].
  - rewrite app_nth1 by (rewrite length_seq; lia).
    cbn [Nat.mul Nat.add]. rewrite seq_nth by lia.
    rewrite Nat.add_0_r. reflexivity.
  - rewrite app_nth2 by (rewrite length_seq; lia).
    rewrite length_seq.
    replace (S o * P + r - P) with (o * P + r) by lia.
    rewrite IH by lia. replace (a + S o) with (S a + o) by lia.
    reflexivity.
Qed.

Lemma numel_of_sizes (l : list Z) :
  Forall (fun s => (0 < s)%Z) l ->
  numel (map Z.to_nat l) = Z.to_nat (dataset_len l).
Proof.
  induction 1 as [|x t Hx Ht IH]; [reflexivity|].
  cbn [map numel fold_right dataset_len]. fold (numel (map Z.to_nat t)).
  fold (dataset_len t). rewrite IH, Z2Nat.inj_mul; [reflexivity | lia |].
  pose proof (dataset_len_pos t Ht). lia.
Qed.

Lemma valid_factors_length (sizes v : list Z) :
  valid_factors sizes v -> length v = length sizes.
Proof. intros H. exact (Forall2_length H). Qed.

(** The index of a tuple, split at a factor. *)
Lemma dot_aux_app (pre vpre l2 v2 : list Z) :
  valid_factors pre vpre ->
  Numpy.dot_aux (vpre ++ v2) (tail_products (pre ++ l2)) =
  (Numpy.dot_aux vpre (tail_products pre) * dataset_len l2
   + Numpy.dot_aux v2 (tail_products l2))%Z.
Proof.
  unfold valid_factors.
  induction 1 as [|x s vs t Hx Hvs IH]; [cbn; lia|].
  cbn [app tail_products Numpy.dot_aux]. rewrite IH, dataset_len_app. ring.
Qed.

Lemma valid_factors_app (l1 l2 v1 v2 : list Z) :
  valid_factors l1 v1 -> valid_factors l2 v2 ->
  valid_factors (l1 ++ l2) (v1 ++ v2).
Proof. unfold valid_factors. intros H1 H2. apply Forall2_app; assumption. Qed.

(** X17.  The image that the paired-sample builder picks for a tuple of factor
    values is, in the slice that [_estimate_H_zCv] takes for the value [x]
    of a factor, at the place of the tuple without that factor: there is a
    row [p] of the slice, the same for every table of statistics, that
    holds row [latent_index] of the table.  [pre] and [post] are the
    cardinalities before and after the factor, [s] its own. *)
Theorem builder_index_agrees_with_slices
    (pre post vpre vpost : list Z) (s x : Z) (D : nat) :
  valid_factors pre vpre ->
  (0 <= x < s)%Z ->
  valid_factors post vpost ->
  (dataset_len (pre ++ s :: post) <= 2 ^ 53)%Z ->
  exists (idx : Z) (p : nat),
    latent_index (pre ++ s :: post) (vpre ++ x :: vpost) = Ok idx /\
    (0 <= idx < dataset_len (pre ++ s :: post))%Z /\
    p < numel (map Z.to_nat (pre ++ post)) /\
    forall t : tensor,
      shape t = [Z.to_nat (dataset_len (pre ++ s :: post)); D] ->
      length (data t) = numel (shape t) ->
      exists tv sl,
        view t (map Z.to_nat (pre ++ s :: post) ++ [D]) = Ok tv /\
        select tv (length pre) (Z.to_nat x) = Ok sl /\
        shape sl = map Z.to_nat (pre ++ post) ++ [D] /\
        row D (data sl) p = row D (data t) (Z.to_nat idx).
Proof.
  intros Hpre Hx Hpost Hb.
  assert (Hv : valid_factors (pre ++ s :: post) (vpre ++ x :: vpost)).
  { apply valid_factors_app; [exact Hpre|].
    constructor; [exact Hx | exact Hpost]. }
  pose proof (valid_factors_pos _ _ Hv) as Hpos.
  pose proof (valid_factors_pos _ _ Hpre) as Hppre.
  pose proof (valid_factors_pos _ _ Hpost) as Hppost.
  pose proof (dot_aux_range _ _ Hpre) as Ro.
  pose proof (dot_aux_range _ _ Hpost) as Rr.
  pose proof (dot_aux_range _ _ Hv) as Ri.
  pose proof (dataset_len_pos _ Hppre) as Ppre.
  pose proof (dataset_len_pos _ Hppost) as Ppost.
  set (o := Numpy.dot_aux vpre (tail_products pre)) in *.
  set (r := Numpy.dot_aux vpost (tail_products post)) in *.
  assert (Ei : Numpy.dot_aux (vpre ++ x :: vpost)
                 (tail_products (pre ++ s :: post)) =
               ((o * s + x) * dataset_len post + r)%Z).
  { rewrite dot_aux_app by exact Hpre.
    cbn [tail_products Numpy.dot_aux dataset_len fold_right].
    fold (dataset_len post). fold r. fold o. ring. }
  rewrite Ei in Ri.
  exists ((o * s + x) * dataset_len post + r)%Z,
         (Z.to_nat o * Z.to_nat (dataset_len post) + Z.to_nat r).
  split; [|split; [exact Ri|split]].
  - unfold latent_index, Numpy.dot.
    rewrite latents_bases_exact;
      [| destruct pre; discriminate | exact Hpos | lia].
    rewrite length_tail_products, (valid_factors_length _ _ Hv),
      Nat.eqb_refl, Ei.
    reflexivity.
  - rewrite map_app, numel_app, !numel_of_sizes by assumption. nia.
  - intros t Hsh Hlen.
    assert (Hn : numel (shape t) =
                 numel (map Z.to_nat (pre ++ s :: post) ++ [D])).
    { rewrite Hsh, numel_app, numel_of_sizes by exact Hpos. reflexivity. }
    set (tv := {| shape := map Z.to_nat (pre ++ s :: post) ++ [D];
                  data := data t |}).
    assert (Hview : view t (map Z.to_nat (pre ++ s :: post) ++ [D]) = Ok tv).
    { unfold view. rewrite Hn, Nat.eqb_refl. reflexivity. }
    assert (Hpp : Forall (fun n => 0 < n) (map Z.to_nat post)).
    { apply Forall_map. eapply Forall_impl; [|exact Hppost].
      cbn. intros a Ha. lia. }
    pose proof (select_grid tv (map Z.to_nat pre) (map Z.to_nat post)
                  (Z.to_nat s) D (Z.to_nat x)) as Hsel.
    rewrite length_map in Hsel.
    specialize (Hsel ltac:(subst tv; cbn [shape];
                           rewrite map_app, <- app_assoc; reflexivity)
                     Hpp ltac:(lia)).
    eexists tv, _. split; [exact Hview|]. split; [exact Hsel|].
    cbn [shape data]. split; [rewrite map_app, <- app_assoc; reflexivity|].
    rewrite <- (length_map Z.to_nat pre), examples_with_grid by (assumption || lia).
    subst tv. cbn [data].
    assert (Hnp : numel (map Z.to_nat post) = Z.to_nat (dataset_len post))
      by (apply numel_of_sizes; exact Hppost).
    assert (Hnq : numel (map Z.to_nat pre) = Z.to_nat (dataset_len pre))
      by (apply numel_of_sizes; exact Hppre).
    assert (Hall : dataset_len (pre ++ s :: post) =
                   (dataset_len pre * (s * dataset_len post))%Z).
    { rewrite dataset_len_app. reflexivity. }
    rewrite row_concat_rows.
    + rewrite Hnp, nth_flat_map_blocks by lia. f_equal. cbn [Nat.add].
      rewrite Z2Nat.inj_add, Z2Nat.inj_mul, Z2Nat.inj_add, Z2Nat.inj_mul
        by nia.
      reflexivity.
    + apply Forall_forall. intros i Hi. apply in_flat_map in Hi.
      destruct Hi as (b & Hb1 & Hb2). apply in_seq in Hb1, Hb2.
      rewrite Hlen, Hsh. cbn [numel fold_right]. rewrite Nat.mul_1_r.
      rewrite Hnp, Hnq in *.
      apply Nat.mul_le_mono_r.
      assert (Hsp : (0 <= s * dataset_len post)%Z)
        by (apply Z.mul_nonneg_nonneg; lia).
      rewrite Hall, !Z2Nat.inj_mul by lia.
      assert (Hx' : Z.to_nat x < Z.to_nat s) by lia.
      assert (Hb' : S b <= Z.to_nat (dataset_len pre)) by lia.
      apply (Nat.mul_le_mono_r _ _ (Z.to_nat s)) in Hb'.
      apply Nat.le_trans
        with ((b * Z.to_nat s + Z.to_nat x + 1)
              * Z.to_nat (dataset_len post)).
      * replace ((b * Z.to_nat s + Z.to_nat x + 1)
                 * Z.to_nat (dataset_len post))
          with ((b * Z.to_nat s + Z.to_nat x) * Z.to_nat (dataset_len post)
                + Z.to_nat (dataset_len post)) by ring.
        lia.
      * rewrite Nat.mul_assoc. apply Nat.mul_le_mono_r.
        cbn [Nat.mul] in Hb'. lia.
    + rewrite length_flat_map_const with (c := numel (map Z.to_nat post))
        by (intros; apply length_seq).
      rewrite length_seq, Hnp, Hnq. nia.
Qed.

End LayoutFacts.

(** Factors of cardinalities 2, 3 and 2, the tuple [(1, 2, 1)] and the
    slice for the value 2 of the second factor. *)
Lemma builder_index_agrees_with_slices_witness :
  exists (idx : Z) (p : nat),
    latent_index ([2] ++ 3 :: [2])%Z ([1] ++ 2 :: [1])%Z = Ok idx /\
    (0 <= idx < dataset_len ([2] ++ 3 :: [2]))%Z /\
    p < numel (map Z.to_nat ([2] ++ [2])%Z) /\
    forall t : tensor,
      shape t = [Z.to_nat (dataset_len ([2] ++ 3 :: [2])%Z); 1] ->
      length (data t) = numel (shape t) ->
      exists tv sl,
        view t (map Z.to_nat ([2] ++ 3 :: [2])%Z ++ [1]) = Ok tv /\
        select tv (length [2%Z]) (Z.to_nat 2) = Ok sl /\
        shape sl = map Z.to_nat ([2] ++ [2])%Z ++ [1] /\
        row 1 (data sl) p = row 1 (data t) (Z.to_nat idx).
Proof.
  apply (builder_index_agrees_with_slices [2]%Z [2]%Z [1]%Z [1]%Z 3 2 1).
  - repeat constructor; lia.
  - lia.
  - repeat constructor; lia.
  - vm_compute. discriminate.
Defined.

(** ** The modes in which the classifier is fitted *)

Section ClassifierModes.

Variable St : Type.
Variable scores loss : Type.
Variable make_classifier : nat -> nat -> nat -> bool -> M St unit.
Variable make_optimizer : M St unit.
Variable classifier_forward : bool -> tensor -> M St scores.
Variable zero_grad : M St unit.
Variable criterion : scores -> list Z -> result loss.
Variable backward : loss -> M St unit.
Variable optim_step : M St unit.
Variable argmax1 : scores -> result (list Z).
Variable weight_reset : M St unit.

Local Abbreviation CW := (classifier_world St).
Local Abbreviation epoch_of :=
  (fit_epoch St scores loss classifier_forward zero_grad criterion backward
     optim_step).
Local Abbreviation method_of :=
  (fit_method St scores loss classifier_forward zero_grad criterion backward
     optim_step argmax1 weight_reset).
Local Abbreviation classifiers :=
  (fit_classifiers St scores loss make_classifier make_optimizer
     classifier_forward zero_grad criterion backward optim_step argmax1
     weight_reset).

Lemma passes_quiet {A : Type} (c : T CW A) :
  (forall w, snd (c w) = w) -> passes 0 c.
Proof.
  intros H w. rewrite H. split; [reflexivity|].
  exists 0. cbn [repeat]. rewrite app_nil_r. repeat split; auto.
Qed.

Lemma passes_tret {A : Type} (a : A) : passes (St := St) 0 (tret a).
Proof. apply passes_quiet. reflexivity. Qed.

Lemma passes_of_result {A : Type} (r : result A) :
  passes (St := St) 0 (of_result r).
Proof. apply passes_quiet. intros w. destruct r; reflexivity. Qed.

Lemma passes_getitem {V : Type} (d : pydict V) (key : String.string) :
  passes (St := St) 0 (getitem d key).
Proof.
  apply passes_quiet. intros w. unfold getitem.
  destruct (dict_get d key); reflexivity.
Qed.

Lemma passes_outside {A : Type} (m : M St A) : passes 0 (c_outside St m).
Proof.
  intros w. unfold c_outside. destruct (m (c_ext St w)) as [r e].
  cbn [fst snd c_training c_runs]. split; [reflexivity|].
  exists 0. cbn [repeat]. rewrite app_nil_r. repeat split; auto.
Qed.

Lemma passes_forward (X : tensor) :
  passes 1 (c_forward St scores classifier_forward X).
Proof.
  intros w. unfold c_forward.
  destruct (classifier_forward _ _ _) as [r e].
  cbn [fst snd c_training c_runs]. split; [reflexivity|].
  exists 1. repeat split; auto.
Qed.

Lemma passes_bind {A B : Type} (n k : nat) (m : T CW A) (f : A -> T CW B) :
  passes n m -> (forall a, passes k (f a)) -> passes (n + k) (tbind m f).
Proof.
  intros Hm Hf w. destruct (Hm w) as (Ht & j & Hj & Hr & Hret).
  unfold tbind. destruct (m w) as [[a|e] w1]; cbn [fst snd] in *.
  - destruct (Hf a w1) as (Ht' & j' & Hj' & Hr' & Hret').
    split; [congruence|]. exists (j + j'). split; [lia|]. split.
    + rewrite Hr', Hr, Ht, repeat_app, app_assoc. reflexivity.
    + intros b Hb. rewrite (Hret a eq_refl), (Hret' b Hb). reflexivity.
  - split; [exact Ht|]. exists j. split; [lia|]. split; [exact Hr|].
    discriminate.
Qed.

Lemma passes_for_each {A X : Type} (cnt : X -> nat) (xs : list X)
    (body : A -> X -> T CW A) :
  (forall acc x, passes (cnt x) (body acc x)) ->
  forall acc, passes (list_sum (map cnt xs)) (tfor_each xs body acc).
Proof.
  intros Hb. induction xs as [|x xs IH]; intros acc.
  - apply passes_tret.
  - cbn [tfor_each map list_sum]. apply passes_bind; [apply Hb | exact IH].
Qed.

Lemma passes_epoch (data_train data_test : classifier_data)
    (method : String.string) (e : nat) :
  passes (epoch_runs e) (epoch_of data_train data_test method e).
Proof.
  unfold fit_epoch, epoch_runs.
  apply (passes_bind 0); [apply passes_outside | intros _].
  apply (passes_bind 0); [apply passes_getitem | intros train].
  apply (passes_bind 0); [apply passes_getitem | intros test].
  apply (passes_bind 1); [apply passes_forward | intros scores_train].
  apply (passes_bind 0); [apply passes_of_result | intros l].
  apply (passes_bind 0); [apply passes_outside | intros _].
  apply (passes_bind 0); [apply passes_outside | intros _].
  replace (if (e + 1) mod 10 =? 0 then 1 else 0)
    with ((if (e + 1) mod 10 =? 0 then 1 else 0) + 0) by lia.
  apply passes_bind; [|intros _; apply passes_tret].
  destruct (_ =? _); [|apply passes_tret].
  apply (passes_bind 1); [apply passes_forward | intros scores_test].
  apply (passes_bind 0); [apply passes_of_result | intros _].
  apply passes_tret.
Qed.

Lemma tenth_step (n : nat) :
  S n / 10 = n / 10 + (if (n + 1) mod 10 =? 0 then 1 else 0).
Proof.
  pose proof (Nat.div_mod_eq n 10) as E1.
  pose proof (Nat.div_mod_eq (n + 1) 10) as E2.
  pose proof (Nat.mod_upper_bound n 10 ltac:(lia)) as B1.
  pose proof (Nat.mod_upper_bound (n + 1) 10 ltac:(lia)) as B2.
  replace (S n) with (n + 1) by lia.
  destruct (Nat.eqb_spec ((n + 1) mod 10) 0); lia.
Qed.

Lemma epochs_runs (n : nat) :
  list_sum (map epoch_runs (seq 0 n)) = n + n / 10.
Proof.
  induction n as [|n IH]; [reflexivity|].
  rewrite seq_S, map_app, list_sum_app, IH, tenth_step.
  cbn [map]. unfold epoch_runs. rewrite Nat.add_0_l.
  destruct (_ =? _); cbn; lia.
Qed.

Lemma tbind_run {S A B : Type} (m : T S A) (f : A -> T S B) (w : S) :
  tbind m f w =
  match m w with
  | (Returns a, w1) => f a w1
  | (Raises e, w1) => (Raises e, w1)
  end.
Proof. reflexivity. Qed.

Lemma passes_score (test_acc : pydict fvalue) (method : String.string)
    (locals : fit_locals) :
  passes 2 (score_method St scores classifier_forward argmax1 weight_reset
              test_acc method locals).
Proof.
  unfold score_method.
  apply (passes_bind 0); [apply passes_of_result | intros train].
  apply (passes_bind 1); [apply passes_forward | intros scores_train].
  apply (passes_bind 0); [apply passes_of_result | intros test].
  apply (passes_bind 1); [apply passes_forward | intros scores_test].
  apply (passes_bind 0); [apply passes_of_result | intros p1].
  apply (passes_bind 0); [apply passes_of_result | intros p2].
  apply (passes_bind 0); [apply passes_of_result | intros _].
  apply (passes_bind 0); [apply passes_of_result | intros acc].
  apply (passes_bind 0); [apply passes_outside | intros _].
  apply passes_tret.
Qed.

(** The fit of one method: the epochs in the mode that the classifier is
    in, then two runs in evaluation mode. *)
Lemma fit_method_runs (data_train data_test : classifier_data)
    (n_epochs : nat) (acc : fit_locals * pydict fvalue)
    (method : String.string) (w : CW) :
  exists a b,
    c_runs St (snd (method_of data_train data_test n_epochs acc method w)) =
      c_runs St w ++ repeat (c_training St w) a ++ repeat false b /\
    a <= n_epochs + n_epochs / 10 /\
    (forall r,
       fst (method_of data_train data_test n_epochs acc method w) = Returns r ->
       a = n_epochs + n_epochs / 10 /\ b = 2 /\
       c_training St
         (snd (method_of data_train data_test n_epochs acc method w)) = false).
Proof.
  unfold fit_method.
  pose proof (passes_for_each epoch_runs (seq 0 n_epochs)
                (fun (_ : fit_locals) e =>
                   epoch_of data_train data_test method e)
                (fun _ e => passes_epoch data_train data_test method e)
                (fst acc) w) as (Ht & a & Ha & Hr & Hret).
  rewrite epochs_runs in Ha, Hret.
  rewrite tbind_run.
  destruct (tfor_each _ _ _ w) as [[locals|e] w1]; cbn [fst snd] in *.
  2:{ exists a, 0. cbn [repeat]. rewrite app_nil_r.
      split; [exact Hr|]. split; [exact Ha | discriminate]. }
  specialize (Hret locals eq_refl). subst a.
  rewrite tbind_run. unfold c_set_training. cbv beta iota.
  set (w2 := {| c_training := false; c_ext := c_ext St w1;
                c_runs := c_runs St w1 |}).
  destruct (passes_score (snd acc) method locals w2)
    as (Ht2 & b & Hb & Hr2 & Hret2).
  rewrite tbind_run.
  destruct (score_method _ _ _ _ _ _ _ _ w2) as [[test_acc|e] w3];
    unfold tret; cbn [fst snd] in *; unfold w2 in Ht2, Hr2;
    cbn [c_runs c_training] in Ht2, Hr2.
  - exists (n_epochs + n_epochs / 10), b.
    split; [|split; [lia|]].
    + rewrite Hr2, Hr, app_assoc. reflexivity.
    + intros _ _. split; [reflexivity|].
      split; [exact (Hret2 test_acc eq_refl) | exact Ht2].
  - exists (n_epochs + n_epochs / 10), b.
    split; [|split; [lia | discriminate]].
    rewrite Hr2, Hr, app_assoc. reflexivity.
Qed.

(** From evaluation mode on, every run is in evaluation mode. *)
Lemma fit_methods_in_evaluation_mode (data_train data_test : classifier_data)
    (n_epochs : nat) (names : list String.string) :
  forall (acc : fit_locals * pydict fvalue) (w : CW),
    c_training St w = false ->
    exists c,
      c_runs St (snd (tfor_each names
                        (method_of data_train data_test n_epochs) acc w)) =
        c_runs St w ++ repeat false c /\
      (forall r,
         fst (tfor_each names (method_of data_train data_test n_epochs)
                acc w) = Returns r ->
         c = length names * (n_epochs + n_epochs / 10 + 2)).
Proof.
  induction names as [|method names IH]; intros acc w Hw.
  - exists 0. cbn. rewrite app_nil_r. split; auto.
  - cbn [tfor_each]. unfold tbind.
    destruct (fit_method_runs data_train data_test n_epochs acc method w)
      as (a & b & Hr & Ha & Hret).
    rewrite Hw, <- repeat_app in Hr.
    destruct (method_of data_train data_test n_epochs acc method w)
      as [[acc'|e] w1]; cbn [fst snd] in *.
    + destruct (Hret acc' eq_refl) as (-> & -> & Hw1).
      destruct (IH acc' w1 Hw1) as (c & Hc & Hcret).
      exists (n_epochs + n_epochs / 10 + 2 + c). split.
      * rewrite Hc, Hr, <- app_assoc, <- repeat_app. reflexivity.
      * intros r Hr'. rewrite (Hcret r Hr'). cbn [length]. lia.
    + exists (a + b). split; [exact Hr | discriminate].
Qed.

(** X18.  Only the classifier of the first method is fitted in training mode:
    the runs of the classifier are those of the epochs of the first method
    ([n_epochs] on the training data and one in ten of them on the test
    data as well) in training mode, and all the later ones, the epochs of
    the later methods among them, in evaluation mode. *)
Theorem only_first_classifier_fitted_in_training_mode
    (data_train data_test : classifier_data)
    (method_names : list String.string) (latent_dim hidden_dim : nat)
    (n_factors : nat) (use_non_linear : bool) (n_epochs : nat)
    (locals : fit_locals) (w : CW) :
  let out := classifiers data_train data_test method_names latent_dim
               hidden_dim n_factors use_non_linear n_epochs locals w in
  exists a b,
    c_runs St (snd out) = c_runs St w ++ repeat true a ++ repeat false b /\
    a <= n_epochs + n_epochs / 10 /\
    (forall r,
       fst out = Returns r ->
       a = (if length method_names =? 0 then 0
            else n_epochs + n_epochs / 10) /\
       b = 2 * length method_names
           + (length method_names - 1) * (n_epochs + n_epochs / 10)).
Proof.
  cbn zeta. unfold fit_classifiers.
  rewrite tbind_run. unfold c_outside, c_set_training.
  destruct (make_classifier _ _ _ _ _) as [[[]|e] s1]; cbn [fst snd].
  2:{ exists 0, 0. cbn. rewrite app_nil_r.
      split; [reflexivity|]. split; [lia | discriminate]. }
  rewrite tbind_run. cbv beta iota. rewrite tbind_run.
  cbn [c_ext c_runs c_training].
  destruct (make_optimizer s1) as [[[]|e] s2]; cbn [fst snd].
  2:{ exists 0, 0. cbn. rewrite app_nil_r.
      split; [reflexivity|]. split; [lia | discriminate]. }
  set (w0 := {| c_training := true; c_ext := s2; c_runs := c_runs St w |}).
  rewrite tbind_run.
  destruct method_names as [|method names].
  - exists 0, 0. cbn. rewrite app_nil_r.
    split; [reflexivity|]. split; [lia|]. intros _ _. split; reflexivity.
  - cbn [tfor_each]. rewrite tbind_run.
    destruct (fit_method_runs data_train data_test n_epochs (locals, [])
                method w0) as (a & b & Hr & Ha & Hret).
    destruct (method_of data_train data_test n_epochs (locals, []) method w0)
      as [[acc'|e] w1]; cbn [fst snd] in *.
    + destruct (Hret acc' eq_refl) as (-> & -> & Hw1).
      destruct (fit_methods_in_evaluation_mode data_train data_test n_epochs
                  names acc' w1 Hw1) as (c & Hc & Hcret).
      destruct (tfor_each names _ acc' w1) as [[r|e] w2];
        unfold tret; cbn [fst snd] in *.
      * exists (n_epochs + n_epochs / 10), (2 + c). split.
        { rewrite Hc, Hr, <- !app_assoc, <- repeat_app. reflexivity. }
        split; [lia|]. intros _ _. split; [reflexivity|].
        rewrite (Hcret r eq_refl). cbn [length]. lia.
      * exists (n_epochs + n_epochs / 10), (2 + c). split.
        { rewrite Hc, Hr, <- !app_assoc, <- repeat_app. reflexivity. }
        split; [lia | discriminate].
    + exists a, b. split; [exact Hr|]. split; [exact Ha | discriminate].
Qed.

End ClassifierModes.

(** ** The share of the test records *)

Section FloatFacts.
Open Scope Z_scope.

Local Ltac pow_consts :=
  repeat match goal with
  | |- context [Z.pow 2 ?k] =>
      let v := eval vm_compute in (Z.pow 2 k) in
      change (Z.pow 2 k) with v
  | H : context [Z.pow 2 ?k] |- _ =>
      let v := eval vm_compute in (Z.pow 2 k) in
      change (Z.pow 2 k) with v in H
  end.

Local Ltac by_cases sh lo n :=
  lazymatch n with
  | O => exfalso; lia
  | S ?n' =>
      let E := fresh "E" in
      destruct (Z.eq_dec sh lo) as [E|E];
      [ subst sh; cbv zeta in *; pow_consts; Z.div_mod_to_equations; lia
      | let lo' := eval vm_compute in (lo + 1) in by_cases sh lo' n' ]
  end.

(** Rounding the product with [0.2] to [53 - sh] bits after the point
    does not reach the next integer. *)
Lemma round_fifth (N sh q' : Z) :
  0 <= N <= 2 ^ 52 -> 1 <= sh <= 51 ->
  2 ^ (sh + 52) <= N * 3602879701896397 < 2 ^ (sh + 53) ->
  (q' = N * 3602879701896397 / 2 ^ sh \/
   (q' = N * 3602879701896397 / 2 ^ sh + 1 /\
    2 ^ (sh - 1) <= N * 3602879701896397
                    - N * 3602879701896397 / 2 ^ sh * 2 ^ sh)) ->
  q' / 2 ^ (54 - sh) = N / 5.
Proof.
  intros HN Hsh Hm Hq.
  by_cases sh 1 51%nat.
Qed.

Lemma round53_exact (m e : Z) : 0 <= m < 2 ^ 53 -> round53 m e = (m, e).
Proof.
  intros Hm. unfold round53.
  assert (H : Z.log2 m < 53).
  { destruct (Z.eq_dec m 0) as [->|Hne]; [reflexivity|].
    apply Z.log2_lt_pow2; lia. }
  destruct (Z.leb_spec (Z.log2 m + 1 - 53) 0); [reflexivity | lia].
Qed.

(** [int(dataset_size*0.2)] is a fifth of the size, rounded down, for the
    sizes up to [2 ^ 52]. *)
Lemma test_turns_fifth (n : nat) :
  Z.of_nat n <= 2 ^ 52 -> test_turns n = (n / 5)%nat.
Proof.
  intros Hn. unfold test_turns, float_of_nat.
  assert (P52 : 2 ^ 52 = 4503599627370496) by reflexivity.
  assert (P53 : 2 ^ 53 = 9007199254740992) by reflexivity.
  rewrite round53_exact by lia.
  unfold float_mul, float_0_2. cbn [fst snd].
  rewrite <- (Nat2Z.id (n / 5)), Nat2Z.inj_div. f_equal.
  change (Z.of_nat 5) with 5.
  set (N := Z.of_nat n) in *.
  set (m := N * 3602879701896397).
  assert (Hm0 : 0 <= m) by (subst m; lia).
  unfold round53.
  destruct (Z.leb_spec (Z.log2 m + 1 - 53) 0) as [Hs|Hs].
  - unfold int_of_float. cbn [fst snd].
    change (0 <=? 0 + -54) with false. cbv iota.
    change (- (0 + -54)) with 54.
    assert (Hm : m < 2 ^ 53).
    { destruct (Z.eq_dec m 0) as [->|Hne]; [reflexivity|].
      apply Z.log2_lt_pow2; lia. }
    rewrite Z.div_small by (split; [lia | ]; pow_consts; lia).
    symmetry. apply Z.div_small. subst m. pow_consts. lia.
  - set (sh := Z.log2 m + 1 - 53) in *.
    assert (Hpos : 0 < m).
    { destruct (Z.eq_dec m 0) as [E|]; [|lia].
      exfalso. unfold sh in Hs. rewrite E in Hs. cbn in Hs. lia. }
    pose proof (Z.log2_spec m Hpos) as [Lo Hi].
    assert (Hlog : Z.log2 m < 104).
    { apply Z.log2_lt_pow2; [exact Hpos|]. subst m. pow_consts. lia. }
    assert (Hsh : 1 <= sh <= 51) by (subst sh; lia).
    replace (Z.log2 m) with (sh + 52) in Lo by (subst sh; lia).
    replace (Z.succ (Z.log2 m)) with (sh + 53) in Hi by (subst sh; lia).
    rewrite Z.shiftr_div_pow2, !Z.shiftl_mul_pow2 by lia.
    rewrite Z.mul_1_l.
    set (q := m / 2 ^ sh).
    set (cond := (2 ^ (sh - 1) <? m - q * 2 ^ sh)
                 || ((m - q * 2 ^ sh =? 2 ^ (sh - 1)) && Z.odd q)).
    unfold int_of_float. cbn [fst snd].
    destruct (Z.leb_spec 0 (0 + -54 + sh)) as [Hbad|_]; [lia|].
    replace (- (0 + -54 + sh)) with (54 - sh) by lia.
    apply round_fifth; [rewrite P52; lia | exact Hsh | split; assumption |].
    fold m. fold q. destruct cond eqn:Ec; [right | left; reflexivity].
    split; [reflexivity|]. subst cond.
    apply Bool.orb_true_iff in Ec. destruct Ec as [Ec|Ec].
    + apply Z.ltb_lt in Ec. lia.
    + apply Bool.andb_true_iff in Ec. destruct Ec as [Ec _].
      apply Z.eqb_eq in Ec. lia.
Qed.

End FloatFacts.

(** ** The data of the classifier *)

Section ClassifierDataFacts.

Variable rng : Type.
Variable randint : Z -> nat -> rng -> list Z * rng.
Variable image : Type.
Variable encoder_mean : list image -> list (list R).
Variable latent_dim : nat.

Hypothesis randint_length :
  forall high size g, length (fst (randint high size g)) = size.
Hypothesis randint_range :
  forall high size g,
    (0 < high)%Z ->
    Forall (fun v => (0 <= v < high)%Z) (fst (randint high size g)).
Hypothesis encoder_shape :
  forall batch, table_shape (length batch) latent_dim (encoder_mean batch).

Local Abbreviation z_b_diff_y :=
  (_compute_z_b_diff_y rng randint image encoder_mean).
Local Abbreviation fresh n :=
  (fun e : String.string * (tensor * list Z) =>
     records_shape 1 latent_dim n (unsqueeze0 (fst (snd e)), snd (snd e))).
Local Abbreviation shaped m n :=
  (fun e : String.string * (tensor * list Z) =>
     records_shape m latent_dim n (snd e)).

(** *** Dictionaries *)

Lemma dict_get_mid {V : Type} (pre suf : pydict V) (k : String.string)
    (v : V) :
  ~ In k (map fst pre) -> dict_get (pre ++ (k, v) :: suf) k = Some v.
Proof.
  induction pre as [|[k' v'] pre IH]; intros Hk; cbn [app dict_get].
  - rewrite String.eqb_refl. reflexivity.
  - destruct (String.eqb_spec k' k) as [E|_].
    + exfalso. apply Hk. left. exact E.
    + apply IH. intros H. apply Hk. right. exact H.
Qed.

Lemma dict_set_mid {V : Type} (pre suf : pydict V) (k : String.string)
    (v v' : V) :
  ~ In k (map fst pre) ->
  dict_set (pre ++ (k, v) :: suf) k v' = pre ++ (k, v') :: suf.
Proof.
  induction pre as [|[k' w] pre IH]; intros Hk; cbn [app dict_set].
  - rewrite String.eqb_refl. reflexivity.
  - destruct (String.eqb_spec k' k) as [E|_].
    + exfalso. apply Hk. left. exact E.
    + f_equal. apply IH. intros H. apply Hk. right. exact H.
Qed.

Lemma dict_get_in {V : Type} (d : pydict V) (k : String.string) :
  In k (map fst d) -> exists v, dict_get d k = Some v /\ In (k, v) d.
Proof.
  induction d as [|[k' v'] d IH]; intros Hk; [destruct Hk|].
  cbn [dict_get]. destruct (String.eqb_spec k' k) as [->|Hne].
  - exists v'. split; [reflexivity | left; reflexivity].
  - destruct Hk as [E|Hk]; [cbn in E; congruence|].
    destruct (IH Hk) as (v & Hv & Hin). exists v.
    split; [exact Hv | right; exact Hin].
Qed.

Lemma nodup_mid (pre suf : list String.string) (k : String.string) :
  NoDup (pre ++ k :: suf) -> ~ In k pre /\ NoDup ((pre ++ [k]) ++ suf).
Proof.
  intros H. split.
  - apply NoDup_remove_2 in H. intros Hin. apply H. apply in_or_app.
    left. exact Hin.
  - rewrite <- app_assoc. exact H.
Qed.

(** *** One draw of records *)

Lemma cat0_record (n factors : nat) (X X' : tensor) (Y Y' : list Z) :
  records_shape n latent_dim factors (X, Y) ->
  records_shape 1 latent_dim factors (unsqueeze0 X', Y') ->
  exists X'',
    cat0 X (unsqueeze0 X') = Ok X'' /\
    records_shape (n + 1) latent_dim factors (X'', Y ++ Y').
Proof.
  intros (S1 & D1 & L1 & F1) (S2 & D2 & L2 & F2). cbn [fst snd] in *.
  exists {| shape := [n + 1; latent_dim];
            data := data X ++ data (unsqueeze0 X') |}.
  split.
  - unfold cat0. rewrite S1, S2.
    destruct (list_eq_dec Nat.eq_dec [latent_dim] [latent_dim])
      as [_|Hne]; [|congruence].
    destruct n; reflexivity.
  - unfold records_shape. cbn [fst snd shape data].
    split; [reflexivity|]. split; [rewrite length_app, D1, D2; lia|].
    split; [rewrite length_app, L1, L2; lia|].
    apply Forall_app. split; assumption.
Qed.

Section OneDataset.

Variable sample_size : nat.
Variable lat_sizes : list Z.
Variable imgs : list image.
Variable methods : methods_dict image.

Hypothesis sample_size_pos : 0 < sample_size.
Hypothesis lat_sizes_not_empty : lat_sizes <> [].
Hypothesis lat_sizes_pos : Forall (fun s => (0 < s)%Z) lat_sizes.
Hypothesis dataset_fits : (dataset_len lat_sizes <= 2 ^ 53)%Z.
Hypothesis dataset_dense : Z.of_nat (length imgs) = dataset_len lat_sizes.
Hypothesis methods_known :
  Forall (fun m => In (fst m) ["VAE"; "PCA"; "ICA"]%string /\
                   forall b, table_shape (length b) latent_dim (snd m b))
         methods.
Hypothesis methods_distinct : NoDup (map fst methods).

Local Abbreviation draw :=
  (of_M (z_b_diff_y methods sample_size lat_sizes imgs)).
Local Abbreviation factors := (length lat_sizes).

(** A draw returns one vector of [latent_dim] entries per method, with the
    number of a factor as its label. *)
Lemma draw_returns (g : rng) :
  exists res g',
    draw g = (Returns res, g') /\
    map fst (records_of res) = map fst methods /\
    Forall (fresh factors) (records_of res).
Proof.
  destruct (sample_factors_returns rng randint randint_length randint_range
              sample_size lat_sizes g lat_sizes_not_empty lat_sizes_pos)
    as (k & s1 & s2 & g' & Es & Ek & Hk & Hsh & V1 & V2).
  destruct (images_at_returns image sample_size lat_sizes imgs s1
              lat_sizes_not_empty dataset_fits dataset_dense V1)
    as (i1 & E1 & F1).
  destruct (images_at_returns image sample_size lat_sizes imgs s2
              lat_sizes_not_empty dataset_fits dataset_dense V2)
    as (i2 & E2 & F2).
  eexists _, g'. split.
  - unfold of_M, _compute_z_b_diff_y, _images_from_data_gen.
    unfold mbind at 1 2. rewrite Es.
    unfold mbind, lift, ret. rewrite E1, E2.
    rewrite map_r_ok with
      (h := fun m : String.string * (list image -> list (list R)) =>
              (fst m,
               (mean_abs_diff sample_size latent_dim
                  (representation image encoder_mean (fst m) (snd m) i1)
                  (representation image encoder_mean (fst m) (snd m) i2),
                Z.of_nat k))); [reflexivity|].
    eapply Forall_impl; [|exact methods_known].
    intros [method transform] [Hin Hsh']. cbn [fst snd] in *.
    rewrite method_outputs_known by exact Hin. cbn [bind fst snd].
    pose proof (Forall2_length F1) as L1. rewrite length_seq in L1.
    pose proof (Forall2_length F2) as L2. rewrite length_seq in L2.
    destruct (representation_shape image encoder_mean latent_dim
                encoder_shape method transform i1 Hsh') as [T1 W1].
    destruct (representation_shape image encoder_mean latent_dim
                encoder_shape method transform i2 Hsh') as [T2 W2].
    rewrite (mean_dim0_abs_sub sample_size latent_dim); auto; congruence.
  - unfold records_of. rewrite !map_map. cbn [fst snd]. split.
    + apply map_ext. intros m. reflexivity.
    + rewrite Forall_map. apply Forall_forall.
      intros m _. unfold records_shape, unsqueeze0, vector, mean_abs_diff.
      cbn [fst snd shape data length].
      rewrite length_map, length_seq.
      split; [reflexivity|]. split; [lia|]. split; [reflexivity|].
      constructor; [lia | constructor].
Qed.

(** *** The loops over the methods *)

Lemma unsqueeze_first_run (g : rng) :
  forall suf1 suf2 pre1 pre2 : classifier_data,
    map fst suf1 = map fst suf2 ->
    NoDup (map fst (pre1 ++ suf1)) ->
    NoDup (map fst (pre2 ++ suf2)) ->
    Forall (fresh factors) suf1 -> Forall (fresh factors) suf2 ->
    exists suf1' suf2',
      tfor_each (map fst suf1)
        (fun (acc : classifier_data * classifier_data) method =>
           a <-- getitem (fst acc) method ;;
           b <-- getitem (snd acc) method ;;
           tret (dict_set (fst acc) method (unsqueeze0 (fst a), snd a),
                 dict_set (snd acc) method (unsqueeze0 (fst b), snd b)))
        (pre1 ++ suf1, pre2 ++ suf2) g =
      (Returns (pre1 ++ suf1', pre2 ++ suf2'), g) /\
      map fst suf1' = map fst suf1 /\ map fst suf2' = map fst suf2 /\
      Forall (shaped 1 factors) suf1' /\ Forall (shaped 1 factors) suf2'.
Proof.
  induction suf1 as [|[k [X1 Y1]] suf1 IH]; intros suf2 pre1 pre2 Hk N1 N2 H1 H2.
  - destruct suf2; [|discriminate]. exists [], [].
    repeat split; auto.
  - destruct suf2 as [|[k2 [X2 Y2]] suf2]; [discriminate|].
    cbn [map fst] in Hk. injection Hk as <- Hk.
    rewrite map_app in N1, N2. cbn [map fst] in N1, N2.
    destruct (nodup_mid _ _ _ N1) as [Hn1 N1'].
    destruct (nodup_mid _ _ _ N2) as [Hn2 N2'].
    cbn [map fst tfor_each]. rewrite tbind_run, tbind_run.
    cbn [fst snd]. unfold getitem at 1.
    rewrite dict_get_mid by exact Hn1. unfold tret at 1.
    rewrite tbind_run. unfold getitem at 1.
    rewrite dict_get_mid by exact Hn2. unfold tret at 1 2.
    cbn [fst snd]. rewrite !dict_set_mid by assumption.
    specialize (IH suf2 (pre1 ++ [(k, (unsqueeze0 X1, Y1))])
                  (pre2 ++ [(k, (unsqueeze0 X2, Y2))]) Hk).
    rewrite <- !app_assoc in IH. cbn [app] in IH.
    destruct IH as (s1 & s2 & E & K1 & K2 & G1 & G2).
    + rewrite map_app. exact N1.
    + rewrite map_app. exact N2.
    + exact (Forall_inv_tail H1).
    + exact (Forall_inv_tail H2).
    + exists ((k, (unsqueeze0 X1, Y1)) :: s1),
             ((k, (unsqueeze0 X2, Y2)) :: s2).
      rewrite <- !app_assoc in E. split; [exact E|]. cbn [map fst].
      split; [f_equal; exact K1|]. split; [f_equal; exact K2|].
      split; constructor; try assumption.
      * exact (Forall_inv H1).
      * exact (Forall_inv H2).
Qed.

(** The first record of every method gets its axis. *)
Lemma unsqueeze_first_returns (data_train data_test : classifier_data)
    (g : rng) :
  map fst data_train = map fst methods ->
  map fst data_test = map fst methods ->
  Forall (fresh factors) data_train -> Forall (fresh factors) data_test ->
  exists first,
    unsqueeze_first rng image methods data_train data_test g =
      (Returns first, g) /\
    map fst (fst first) = map fst methods /\
    map fst (snd first) = map fst methods /\
    Forall (shaped 1 factors) (fst first) /\
    Forall (shaped 1 factors) (snd first).
Proof.
  intros K1 K2 F1 F2.
  destruct (unsqueeze_first_run g data_train data_test [] [])
    as (s1 & s2 & E & K1' & K2' & G1 & G2).
  { congruence. }
  { cbn [app]. rewrite K1. exact methods_distinct. }
  { cbn [app]. rewrite K2. exact methods_distinct. }
  { exact F1. }
  { exact F2. }
  exists (s1, s2). cbn [app fst snd] in *.
  split; [|split; [congruence|split; [congruence|split; assumption]]].
  unfold unsqueeze_first. rewrite <- K1. exact E.
Qed.

Lemma add_records_run (n : nat) (data : classifier_data) (g : rng) :
  Forall (fresh factors) data ->
  forall suf pre : classifier_data,
    NoDup (map fst (pre ++ suf)) ->
    Forall (fun e => In (fst e) (map fst data)) suf ->
    Forall (shaped n factors) suf ->
    exists suf',
      tfor_each (map fst suf)
        (fun (acc : classifier_data) method =>
           cur <-- getitem acc method ;;
           new <-- getitem data method ;;
           X <-- of_result (cat0 (fst cur) (unsqueeze0 (fst new))) ;;
           tret (dict_set acc method (X, snd cur ++ snd new)))
        (pre ++ suf) g =
      (Returns (pre ++ suf'), g) /\
      map fst suf' = map fst suf /\
      Forall (shaped (n + 1) factors) suf'.
Proof.
  intros Hdata.
  induction suf as [|[k [X Y]] suf IH]; intros pre N Hin Hs.
  - exists []. repeat split; auto.
  - rewrite map_app in N. cbn [map fst] in N.
    destruct (nodup_mid _ _ _ N) as [Hn N'].
    pose proof (Forall_inv Hin) as Hk. cbn [fst] in Hk.
    destruct (dict_get_in data k Hk) as ([X' Y'] & Eg & Hin').
    pose proof (proj1 (Forall_forall _ _) Hdata _ Hin') as Hf.
    cbn [fst snd] in Hf.
    destruct (cat0_record n factors X X' Y Y' (Forall_inv Hs) Hf)
      as (X'' & Ec & Hc).
    cbn [map fst tfor_each]. rewrite tbind_run, tbind_run.
    unfold getitem at 1. rewrite dict_get_mid by exact Hn.
    unfold tret at 1. rewrite tbind_run. unfold getitem at 1. rewrite Eg.
    unfold tret at 1. rewrite tbind_run. cbn [fst snd]. rewrite Ec.
    unfold of_result, of_M, lift. unfold tret at 1.
    rewrite dict_set_mid by exact Hn.
    specialize (IH (pre ++ [(k, (X'', Y ++ Y'))])).
    rewrite <- !app_assoc in IH. cbn [app] in IH.
    destruct IH as (s & E & K & G).
    + rewrite map_app. exact N.
    + exact (Forall_inv_tail Hin).
    + exact (Forall_inv_tail Hs).
    + exists ((k, (X'', Y ++ Y')) :: s).
      rewrite <- !app_assoc in E. split; [exact E|].
      cbn [map fst]. split; [f_equal; exact K|].
      constructor; assumption.
Qed.

(** One more record for every method. *)
Lemma add_records_returns (n : nat) (data acc : classifier_data) (g : rng) :
  map fst data = map fst methods -> Forall (fresh factors) data ->
  map fst acc = map fst methods -> Forall (shaped n factors) acc ->
  exists acc',
    add_records rng image methods data acc g = (Returns acc', g) /\
    map fst acc' = map fst methods /\
    Forall (shaped (n + 1) factors) acc'.
Proof.
  intros Kd Hd Ka Ha. unfold add_records. rewrite <- Ka.
  destruct (add_records_run n data g Hd acc [] ) as (acc' & E & K & G).
  - cbn [app]. rewrite Ka. exact methods_distinct.
  - apply Forall_forall. intros e He. rewrite Kd, <- Ka.
    apply in_map. exact He.
  - exact Ha.
  - exists acc'. cbn [app] in E. split; [exact E|].
    split; [congruence | exact G].
Qed.

(** *** The loop over the records *)

Lemma test_records_count (turns limit : nat) :
  length (filter (fun i => i <=? limit) (seq 0 turns)) =
  Nat.min turns (limit + 1).
Proof.
  induction turns as [|n IH]; [reflexivity|].
  rewrite seq_S, filter_app, length_app, IH. cbn [Nat.add filter].
  destruct (Nat.leb_spec n limit); cbn [length]; lia.
Qed.

Lemma records_loop (limit : nat) :
  forall (turns a n m : nat) (acc : classifier_data * classifier_data)
         (g : rng),
    map fst (fst acc) = map fst methods ->
    map fst (snd acc) = map fst methods ->
    Forall (shaped n factors) (fst acc) ->
    Forall (shaped m factors) (snd acc) ->
    exists acc' g',
      tfor_each (seq a turns)
        (fun (acc : classifier_data * classifier_data) i =>
           data <-- draw ;;
           data_train <-- add_records rng image methods (records_of data)
                            (fst acc) ;;
           if i <=? limit then
             data <-- draw ;;
             data_test <-- add_records rng image methods (records_of data)
                             (snd acc) ;;
             tret (data_train, data_test)
           else tret (data_train, snd acc))
        acc g = (Returns acc', g') /\
      map fst (fst acc') = map fst methods /\
      map fst (snd acc') = map fst methods /\
      Forall (shaped (n + turns) factors) (fst acc') /\
      Forall (shaped (m + length (filter (fun i => i <=? limit)
                                    (seq a turns))) factors) (snd acc').
Proof.
  induction turns as [|turns IH]; intros a n m acc g K1 K2 H1 H2.
  - exists acc, g. cbn [seq tfor_each filter length].
    rewrite !Nat.add_0_r. repeat split; auto.
  - cbn [seq tfor_each filter]. rewrite tbind_run, tbind_run.
    destruct (draw_returns g) as (d1 & g1 & E1 & Kd1 & F1). rewrite E1.
    rewrite tbind_run.
    destruct (add_records_returns n (records_of d1) (fst acc) g1 Kd1 F1 K1 H1)
      as (tr & Et & Kt & Ht).
    rewrite Et. destruct (Nat.leb_spec a limit) as [Hle|Hgt].
    + rewrite tbind_run.
      destruct (draw_returns g1) as (d2 & g2 & E2 & Kd2 & F2). rewrite E2.
      rewrite tbind_run.
      destruct (add_records_returns m (records_of d2) (snd acc) g2 Kd2 F2
                  K2 H2) as (te & Ete & Kte & Hte).
      rewrite Ete. unfold tret at 1.
      destruct (IH (S a) (n + 1) (m + 1) (tr, te) g2 Kt Kte Ht Hte)
        as (acc' & g' & E & K1' & K2' & G1 & G2).
      exists acc', g'. split; [exact E|].
      split; [exact K1'|]. split; [exact K2'|]. cbn [length].
      replace (n + S turns) with (n + 1 + turns) by lia.
      replace (m + S (length (filter (fun i => i <=? limit)
                                (seq (S a) turns))))
        with (m + 1 + length (filter (fun i => i <=? limit)
                                (seq (S a) turns))) by lia.
      split; assumption.
    + unfold tret at 1.
      destruct (IH (S a) (n + 1) m (tr, snd acc) g1 Kt K2 Ht H2)
        as (acc' & g' & E & K1' & K2' & G1 & G2).
      exists acc', g'. split; [exact E|].
      split; [exact K1'|]. split; [exact K2'|].
      replace (n + S turns) with (n + 1 + turns) by lia.
      split; assumption.
Qed.

(** X19.  On a dense dataset, with methods among VAE, PCA and ICA that map a
    batch to one vector of [latent_dim] entries per image, and up to
    [2 ^ 52] records asked for, the data of the classifier is built
    without an exception.  Every method gets [dataset_size + 1] training
    records and [dataset_size / 5 + 2] test records (one more than the
    training records when that is less), each of [latent_dim] entries, and
    each with the number of a factor as its label. *)
Theorem classifier_gets_fifth_plus_two_test_records
    (dataset_size : nat) (g : rng) :
  methods <> [] ->
  (Z.of_nat dataset_size <= 2 ^ 52)%Z ->
  exists (data_train data_test : classifier_data) (g' : rng),
    classifier_records rng randint image encoder_mean methods sample_size
      lat_sizes imgs dataset_size g =
      (Returns (data_train, data_test, latent_dim), g') /\
    map fst data_train = map fst methods /\
    map fst data_test = map fst methods /\
    Forall (fun e => records_shape (dataset_size + 1) latent_dim
                       (length lat_sizes) (snd e)) data_train /\
    Forall (fun e => records_shape
                       (Nat.min dataset_size (dataset_size / 5 + 1) + 1)
                       latent_dim (length lat_sizes) (snd e)) data_test.
Proof.
  intros Hne Hsize.
  destruct (draw_returns g) as (d1 & g1 & E1 & Kd1 & F1).
  destruct (draw_returns g1) as (d2 & g2 & E2 & Kd2 & F2).
  destruct (unsqueeze_first_returns (records_of d1) (records_of d2) g2
              Kd1 Kd2 F1 F2) as ([s1 s2] & E & K1 & K2 & G1 & G2).
  cbn [fst snd] in *.
  assert (Ed : first_latent_dim rng s2 g2 = (Returns latent_dim, g2)).
  { destruct s2 as [|[k [X Y]] s2].
    - destruct methods; [congruence | discriminate].
    - pose proof (Forall_inv G2) as (Hsh & _). cbn [fst snd] in Hsh.
      unfold first_latent_dim. rewrite Hsh. reflexivity. }
  destruct (records_loop (test_turns dataset_size) dataset_size 0 1 1
              (s1, s2) g2 K1 K2 G1 G2)
    as (acc' & g' & El & Kt & Ke & Gt & Ge).
  exists (fst acc'), (snd acc'), g'.
  split; [|split; [exact Kt|split; [exact Ke|]]].
  - unfold classifier_records. cbv zeta.
    rewrite tbind_run, E1, tbind_run, E2, tbind_run, E. cbn [fst snd].
    rewrite tbind_run, Ed, tbind_run, El. reflexivity.
  - rewrite test_records_count, test_turns_fifth in Ge by exact Hsize.
    split.
    + replace (dataset_size + 1) with (1 + dataset_size) by lia. exact Gt.
    + replace (Nat.min dataset_size (dataset_size / 5 + 1) + 1)
        with (1 + Nat.min dataset_size (dataset_size / 5 + 1)) by lia.
      exact Ge.
Qed.

End OneDataset.

End ClassifierDataFacts.

(** Seven records asked for on a 2 by 3 dataset, for two methods. *)
Lemma classifier_gets_fifth_plus_two_test_records_witness :
  exists (data_train data_test : classifier_data) (g' : unit),
    classifier_records unit zero_randint nat number_encoder
      [("VAE"%string, number_encoder); ("PCA"%string, number_encoder)]
      2 [2; 3]%Z [0; 1; 2; 3; 4; 5] 7 tt =
      (Returns (data_train, data_test, 1), g') /\
    map fst data_train =
      map fst [("VAE"%string, number_encoder);
               ("PCA"%string, number_encoder)] /\
    map fst data_test =
      map fst [("VAE"%string, number_encoder);
               ("PCA"%string, number_encoder)] /\
    Forall (fun e => records_shape (7 + 1) 1 (length [2; 3]%Z) (snd e))
           data_train /\
    Forall (fun e => records_shape (Nat.min 7 (7 / 5 + 1) + 1) 1
                       (length [2; 3]%Z) (snd e)) data_test.
Proof.
  apply (classifier_gets_fifth_plus_two_test_records unit zero_randint nat
           number_encoder 1).
  - intros high size g. apply repeat_length.
  - apply zero_randint_range.
  - apply number_encoder_shape.
  - lia.
  - discriminate.
  - repeat constructor.
  - vm_compute. discriminate.
  - reflexivity.
  - repeat constructor; simpl; auto; apply number_encoder_shape.
  - repeat constructor; simpl; intuition discriminate.
  - discriminate.
  - vm_compute. discriminate.
Defined.

(** ** The table of the posteriors *)

Section PosteriorTableFacts.

Variable St : Type.
Variable batch : Type.
Variable size0 : batch -> nat.
Variable encoder : bool -> batch -> M St (tensor * tensor).
Variable reparameterize : bool -> tensor -> tensor -> M St tensor.
Variable setitem_rows : tensor -> nat -> nat -> tensor -> result tensor.
Variable len_dataset latent_dim : nat.

(** The assignment to a range of rows that lies within the table, of as
    many rows of the same width. *)
Hypothesis setitem_rows_within :
  forall (t value : tensor) (lo hi : nat),
    shape t = [len_dataset; latent_dim] ->
    lo <= hi -> hi <= len_dataset ->
    shape value = [hi - lo; latent_dim] ->
    setitem_rows t lo hi value =
    Ok {| shape := shape t;
          data := firstn (lo * latent_dim) (data t) ++ data value
                  ++ skipn (hi * latent_dim) (data t) |}.

(** The encoder returns one row of [latent_dim] entries per example. *)
Hypothesis encoder_rows :
  forall mode x s out s',
    encoder mode x s = (Ok out, s') ->
    (shape (fst out) = [size0 x; latent_dim] /\
     length (data (fst out)) = size0 x * latent_dim) /\
    (shape (snd out) = [size0 x; latent_dim] /\
     length (data (snd out)) = size0 x * latent_dim).

Local Abbreviation table := (rows_then_zeros len_dataset latent_dim).

Lemma skipn_repeat_zeros (k n : nat) :
  skipn k (repeat 0%R n) = repeat 0%R (n - k).
Proof.
  revert n. induction k as [|k IH]; intros n.
  - rewrite Nat.sub_0_r. reflexivity.
  - destruct n as [|n]; [reflexivity|]. cbn [repeat skipn Nat.sub]. apply IH.
Qed.

(** One batch more in a table filled up to row [n]. *)
Lemma fill_rows (filled : list R) (n b : nat) (value : tensor) :
  length filled = n * latent_dim ->
  n + b <= len_dataset ->
  shape value = [b; latent_dim] ->
  length (data value) = b * latent_dim ->
  setitem_rows (table filled) n (n + b) value =
  Ok (table (filled ++ data value)).
Proof.
  intros Hf Hn Hs Hd.
  rewrite setitem_rows_within;
    [| reflexivity | lia | exact Hn
     | rewrite Hs; f_equal; lia].
  unfold rows_then_zeros. cbn [shape data]. f_equal. f_equal.
  rewrite firstn_app, firstn_all2 by lia.
  replace (n * latent_dim - length filled) with 0 by lia.
  rewrite firstn_O, app_nil_r, <- app_assoc. f_equal. f_equal.
  rewrite skipn_app, skipn_all2 by lia. cbn [app].
  rewrite skipn_repeat_zeros, length_app, Hf, Hd. f_equal. nia.
Qed.

Lemma loader_rows_cons (x : batch) (t : list batch) :
  loader_rows size0 (x :: t) = size0 x + loader_rows size0 t.
Proof. reflexivity. Qed.

Lemma fill_loop (mode : bool) (dataloader : list batch) :
  forall (n : nat) (f0 f1 : list R) (s : St),
    length f0 = n * latent_dim -> length f1 = n * latent_dim ->
    n + loader_rows size0 dataloader <= len_dataset ->
    for_each dataloader (fill_q_zCx St batch size0 encoder setitem_rows mode)
      (n, (table f0, table f1)) s =
    (outs <- map_m (encoder mode) dataloader ;;
     ret (n + loader_rows size0 dataloader,
          (table (f0 ++ concat (map (fun o => data (fst o)) outs)),
           table (f1 ++ concat (map (fun o => data (snd o)) outs))))) s.
Proof.
  set (body := fill_q_zCx St batch size0 encoder setitem_rows mode).
  induction dataloader as [|x t IH]; intros n f0 f1 s H0 H1 Hn.
  - cbn [for_each map_m loader_rows map list_sum concat]. unfold mbind, ret.
    rewrite !app_nil_r, Nat.add_0_r. reflexivity.
  - rewrite loader_rows_cons in *.
    cbn [for_each map_m]. unfold body at 1, fill_q_zCx.
    cbv beta iota zeta.
    rewrite !mbind_assoc. apply mbind_ext_post. intros out s1 E.
    destruct (encoder_rows mode x s out s1 E) as [[S0 D0] [S1 D1]].
    rewrite (fill_rows f0 n (size0 x) (fst out)) by (assumption || lia).
    rewrite (fill_rows f1 n (size0 x) (snd out)) by (assumption || lia).
    match goal with
    | |- ?l = _ =>
        change l with
          (for_each t body
             (n + size0 x,
              (table (f0 ++ data (fst out)), table (f1 ++ data (snd out))))
             s1)
    end.
    rewrite IH by (rewrite ?length_app, ?H0, ?H1, ?D0, ?D1; lia).
    rewrite mbind_assoc. apply mbind_ext_post. intros outs s2 _.
    rewrite mbind_ret_l. unfold ret. cbn [map concat].
    rewrite <- !app_assoc, Nat.add_assoc. reflexivity.
Qed.

(** X20.  When the loader yields no more examples than the dataset has,
    and the encoder returns one row per example, the rows of the means
    and of the log-variances are the outputs of the encoder in the order
    in which the loader yields the examples, followed by rows of zeros
    for the examples that the loader did not yield; the samples are drawn
    from these tables. *)
Theorem posterior_table_follows_loader_order
    (mode : bool) (dataloader : list batch) (s : St) :
  loader_rows size0 dataloader <= len_dataset ->
  _compute_q_zCx St batch size0 encoder reparameterize setitem_rows
    len_dataset latent_dim mode dataloader s =
  (outs <- map_m (encoder mode) dataloader ;;
   let mean := table (concat (map (fun o => data (fst o)) outs)) in
   let log_var := table (concat (map (fun o => data (snd o)) outs)) in
   samples_zCx <- reparameterize mode mean log_var ;;
   ret (samples_zCx, (mean, log_var))) s.
Proof.
  intros Hn. unfold _compute_q_zCx.
  assert (Z0 : zeros len_dataset latent_dim = table []).
  { unfold zeros, rows_then_zeros. cbn [app length].
    rewrite Nat.sub_0_r. reflexivity. }
  rewrite Z0.
  rewrite (mbind_cong_l _ _ _ s
             (fill_loop mode dataloader 0 [] [] s eq_refl eq_refl Hn)).
  rewrite mbind_assoc. apply mbind_ext_post. intros outs s1 _.
  rewrite mbind_ret_l. reflexivity.
Qed.

End PosteriorTableFacts.

(** A dataset of three examples in batches of two and one. *)
Lemma posterior_table_follows_loader_order_witness :
  _compute_q_zCx unit (list nat) (@length nat) number_posterior
    (fun _ mean _ => ret mean) (assign_rows 1) 3 1 false [[1; 2]; [3]] tt =
  (outs <- map_m (number_posterior false) [[1; 2]; [3]] ;;
   let mean :=
     rows_then_zeros 3 1 (concat (map (fun o => data (fst o)) outs)) in
   let log_var :=
     rows_then_zeros 3 1 (concat (map (fun o => data (snd o)) outs)) in
   samples_zCx <- ret mean ;;
   ret (samples_zCx, (mean, log_var))) tt.
Proof.
  apply (posterior_table_follows_loader_order unit (list nat) (@length nat)
           number_posterior (fun _ mean _ => ret mean) (assign_rows 1) 3 1).
  - intros t value lo hi _ _ _ _. reflexivity.
  - intros mode x s out s' E. injection E as <- _. cbn [fst snd shape data].
    rewrite !length_map. repeat split; lia.
  - cbn. lia.
Defined.

(** ** The samples of every class *)

Section LatentVizFacts.

Variable St : Type.
Variable image vec embedding plot reducer : Type.
Variable encoder : bool -> list image -> M St (list vec * list vec).
Variable reparameterize : bool -> list vec -> list vec -> M St (list vec).
Variable tsne_fit_transform : Z -> list vec -> M St (reducer * embedding).
Variable densumap_fit : Z -> list (list vec) -> M St (reducer * embedding).
Variable graph_latent_samples : embedding -> list (list nat) -> M St plot.

Local Abbreviation VW := (viz_world St).
Local Abbreviation buckets := (viz_buckets image vec).
Local Abbreviation samples_of := (class_samples image vec).
Local Abbreviation loop := (viz_loop St image vec encoder reparameterize).
Local Abbreviation one :=
  (viz_one St image vec embedding plot reducer tsne_fit_transform
     densumap_fit graph_latent_samples).
Local Abbreviation viz :=
  (latent_viz St image vec embedding plot reducer encoder reparameterize
     tsne_fit_transform densumap_fit graph_latent_samples).

(** The examples with their labels, sorted into [n] classes. *)
Local Abbreviation sorted n items :=
  (map (fun c => map fst (filter (fun e : image * Z =>
                                    names_class n c (snd e)) items))
       (seq 0 n)).

(** *** Runs that return *)

Lemma tbind_returns {S A B : Type} (m : T S A) (f : A -> T S B)
    (w w' : S) (b : B) :
  tbind m f w = (Returns b, w') ->
  exists a w1, m w = (Returns a, w1) /\ f a w1 = (Returns b, w').
Proof.
  unfold tbind. destruct (m w) as [[a|e] w1]; intros H; [|discriminate].
  exists a, w1. split; [reflexivity | exact H].
Qed.

Lemma of_result_returns {S A : Type} (r : result A) (w w' : S) (a : A) :
  of_result r w = (Returns a, w') -> r = Ok a /\ w' = w.
Proof.
  unfold of_result, of_M, lift. destruct r; intros H; [|discriminate].
  injection H as -> ->. split; reflexivity.
Qed.

Lemma bind_ok {A B : Type} (r : result A) (f : A -> result B) (b : B) :
  bind r f = Ok b -> exists a, r = Ok a /\ f a = Ok b.
Proof.
  destruct r as [a|e]; intros H; [|discriminate].
  exists a. split; [reflexivity | exact H].
Qed.

(** *** One example *)

Lemma append_at_map_seq {A : Type} (F : nat -> list A) (x : A) :
  forall n a k,
    append_at (map F (seq a n)) k x =
    map (fun c => F c ++ (if c =? a + k then [x] else [])) (seq a n).
Proof.
  induction n as [|n IH]; intros a k; [reflexivity|].
  cbn [seq map append_at]. destruct k as [|k].
  - rewrite Nat.add_0_r, Nat.eqb_refl. f_equal.
    apply map_ext_in. intros c Hc. apply in_seq in Hc.
    destruct (Nat.eqb_spec c a); [lia|]. rewrite app_nil_r. reflexivity.
  - destruct (Nat.eqb_spec a (a + S k)); [lia|]. rewrite app_nil_r.
    f_equal. rewrite IH. apply map_ext. intros c.
    replace (S a + k) with (a + S k) by lia. reflexivity.
Qed.

Lemma bucket_append_sorted (n : nat) (items : list (image * Z))
    (slot : Z) (im : image) (cs' : list (list image)) :
  bucket_append (sorted n items) slot im = Ok cs' ->
  cs' = sorted n (items ++ [(im, slot)]).
Proof.
  unfold bucket_append. rewrite length_map, length_seq.
  set (j := if (slot <? 0)%Z then (slot + Z.of_nat n)%Z else slot).
  destruct ((0 <=? j) && (j <? Z.of_nat n))%Z eqn:Hj; [|discriminate].
  intros H. injection H as <-.
  apply Bool.andb_true_iff in Hj. destruct Hj as [H0 H1].
  apply Z.leb_le in H0. apply Z.ltb_lt in H1.
  rewrite append_at_map_seq. apply map_ext_in. intros c Hc.
  apply in_seq in Hc. rewrite filter_app, map_app. f_equal.
  cbn [filter snd Nat.add]. unfold names_class.
  assert (E : ((slot =? Z.of_nat c) || (slot =? Z.of_nat c - Z.of_nat n))%Z
              = (c =? Z.to_nat j)).
  { subst j. destruct (Z.ltb_spec slot 0);
      destruct (Z.eqb_spec slot (Z.of_nat c));
      destruct (Z.eqb_spec slot (Z.of_nat c - Z.of_nat n));
      destruct (Nat.eqb_spec c (Z.to_nat (slot + Z.of_nat n)));
      destruct (Nat.eqb_spec c (Z.to_nat slot));
      cbn [orb]; try reflexivity; lia. }
  rewrite E. destruct (c =? Z.to_nat j); reflexivity.
Qed.

(** The examples of a batch at the places [idcs]. *)
Local Abbreviation picked x y idcs :=
  (flat_map (fun idx => match nth_error x idx, nth_error y idx with
                        | Some a, Some b => [(a, b)]
                        | _, _ => []
                        end) idcs : list (image * Z)).

Lemma bucket_item_sorted (n : nat) (items : list (image * Z))
    (x : list image) (y : list Z) (post_mean post_logvar samples : list vec)
    (b b' : buckets) (idx : nat) :
  samples_of b = sorted n items ->
  bucket_item image vec x y post_mean post_logvar samples b idx = Ok b' ->
  samples_of b' = sorted n (items ++ picked x y [idx]).
Proof.
  intros Hb H. unfold bucket_item in H.
  apply bind_ok in H. destruct H as (slot & Es & H).
  apply bind_ok in H. destruct H as (im & Ei & H).
  apply bind_ok in H. destruct H as (cs & Ec & H).
  apply bind_ok in H. destruct H as (m & _ & H).
  apply bind_ok in H. destruct H as (pm & _ & H).
  apply bind_ok in H. destruct H as (lv & _ & H).
  apply bind_ok in H. destruct H as (pl & _ & H).
  apply bind_ok in H. destruct H as (smp & _ & H).
  apply bind_ok in H. destruct H as (ps & _ & H).
  injection H as <-. cbn [class_samples flat_map].
  unfold item_at in Es, Ei.
  destruct (nth_error y idx) as [slot'|]; [|discriminate].
  destruct (nth_error x idx) as [im'|]; [|discriminate].
  injection Es as ->. injection Ei as ->. rewrite app_nil_r.
  rewrite Hb in Ec. apply (bucket_append_sorted n items slot im cs Ec).
Qed.

Lemma bucket_items_sorted (n : nat) (x : list image) (y : list Z)
    (post_mean post_logvar samples : list vec) (idcs : list nat) :
  forall (items : list (image * Z)) (b b' : buckets),
    samples_of b = sorted n items ->
    bucket_items image vec x y post_mean post_logvar samples idcs b = Ok b' ->
    samples_of b' = sorted n (items ++ picked x y idcs).
Proof.
  induction idcs as [|idx idcs IH]; intros items b b' Hb H.
  - cbn in H. injection H as <-. cbn [flat_map]. rewrite app_nil_r.
    exact Hb.
  - cbn [bucket_items] in H. apply bind_ok in H. destruct H as (b1 & E1 & H).
    pose proof (bucket_item_sorted n items x y post_mean post_logvar samples
                  b b1 idx Hb E1) as Hb1.
    rewrite (IH _ b1 b' Hb1 H). cbn [flat_map].
    rewrite app_nil_r, <- app_assoc. reflexivity.
Qed.

(** Reading two lists place by place gives their pairs. *)
Lemma picked_all (x : list image) (y : list Z) :
  picked x y (seq 0 (length y)) = combine x y.
Proof.
  assert (G : forall (y : list Z) (x : list image) a pre_x pre_y,
             length pre_x = a -> length pre_y = a ->
             picked (pre_x ++ x) (pre_y ++ y) (seq a (length y)) =
             combine x y).
  { clear x y. induction y as [|b y IH]; intros x a px py Hx Hy;
      [destruct x; reflexivity|].
    cbn [length seq flat_map].
    rewrite (nth_error_app2 py) by lia.
    rewrite Hy, Nat.sub_diag. cbn [nth_error].
    destruct x as [|im x].
    - rewrite app_nil_r.
      rewrite (proj2 (nth_error_None px a)) by lia. cbn [app combine].
      apply flat_map_nil. intros idx Hidx. apply in_seq in Hidx.
      rewrite (proj2 (nth_error_None px idx)) by lia. reflexivity.
    - rewrite (nth_error_app2 px) by lia.
      rewrite Hx, Nat.sub_diag. cbn [nth_error app combine]. f_equal.
      specialize (IH x (S a) (px ++ [im]) (py ++ [b])).
      rewrite <- !app_assoc in IH. cbn [app] in IH. apply IH.
      + rewrite length_app. cbn. lia.
      + rewrite length_app. cbn. lia. }
  exact (G y x 0 [] [] eq_refl eq_refl).
Qed.

Lemma nth_map_seq {A : Type} (F : nat -> A) (n c : nat) (d : A) :
  c < n -> nth c (map F (seq 0 n)) d = F c.
Proof.
  intros H.
  rewrite (nth_indep _ d (F 0)) by (rewrite length_map, length_seq; exact H).
  rewrite (map_nth F), seq_nth by exact H. reflexivity.
Qed.

(** *** The loop over the loader *)

Lemma loop_sorts (n : nat) (steps : Z)
    (loader : list (list image * list Z)) :
  forall (step : nat) (items : list (image * Z)) (b b' : buckets)
         (w w' : VW),
    samples_of b = sorted n items ->
    loop steps step loader b w = (Returns b', w') ->
    samples_of b' =
      sorted n (items ++
                concat (map (fun batch => combine (fst batch) (snd batch))
                          (firstn (Z.to_nat (steps + 1) - step) loader))) /\
    v_training St w' = v_training St w /\
    v_runs St w' =
      v_runs St w ++
      repeat (v_training St w)
        (Nat.min (length loader) (Z.to_nat (steps + 1) - step + 1)).
Proof.
  induction loader as [|[x y] rest IH]; intros step items b b' w w' Hb H.
  - cbn in H. injection H as <- <-. rewrite firstn_nil. cbn.
    rewrite !app_nil_r. repeat split; auto.
  - cbn [viz_loop] in H.
    apply tbind_returns in H. destruct H as (out & w1 & E1 & H).
    apply tbind_returns in H. destruct H as (samples & w2 & E2 & H).
    assert (M1 : v_training St w1 = v_training St w /\
                 v_runs St w1 = v_runs St w ++ [v_training St w]).
    { unfold v_encode in E1. destruct (encoder _ _ _) as [r e].
      injection E1 as _ <-. split; reflexivity. }
    assert (M2 : v_training St w2 = v_training St w1 /\
                 v_runs St w2 = v_runs St w1).
    { unfold v_reparameterize in E2. destruct (reparameterize _ _ _ _) as [r e].
      injection E2 as _ <-. split; reflexivity. }
    destruct M1 as [T1 R1], M2 as [T2 R2]. cbn [length].
    destruct (Z.ltb_spec steps (Z.of_nat step)) as [Hlt|Hge].
    + injection H as <- <-.
      replace (Z.to_nat (steps + 1) - step) with 0 by lia.
      cbn [firstn map concat Nat.add]. rewrite app_nil_r.
      split; [exact Hb|]. split; [congruence|].
      rewrite R2, R1. replace (Nat.min (S (length rest)) 1) with 1 by lia.
      reflexivity.
    + apply tbind_returns in H. destruct H as (b1 & w3 & E3 & H).
      apply of_result_returns in E3. destruct E3 as [E3 ->].
      pose proof (bucket_items_sorted n x y (fst out) (snd out) samples
                    (seq 0 (length y)) items b b1 Hb E3) as Hb1.
      rewrite picked_all in Hb1.
      destruct (IH (S step) _ b1 b' w2 w' Hb1 H) as (Hs & Ht & Hr).
      replace (Z.to_nat (steps + 1) - step)
        with (S (Z.to_nat (steps + 1) - S step)) by lia.
      cbn [firstn map concat fst snd].
      split; [rewrite Hs, <- app_assoc; reflexivity|].
      split; [congruence|].
      replace (Nat.min (S (length rest))
                 (S (Z.to_nat (steps + 1) - S step) + 1))
        with (S (Nat.min (length rest) (Z.to_nat (steps + 1) - S step + 1)))
        by lia.
      rewrite Hr, R2, R1, T2, T1, <- app_assoc. reflexivity.
Qed.

(** *** The methods *)

Lemma v_outside_quiet {A : Type} (m : M St A) (w w' : VW) (a : A) :
  v_outside St m w = (Returns a, w') ->
  v_training St w' = v_training St w /\ v_runs St w' = v_runs St w.
Proof.
  unfold v_outside. destruct (m (v_ext St w)) as [r e].
  intros H. injection H as _ <-. split; reflexivity.
Qed.

Lemma one_quiet (seed : Z) (b : buckets) (true_labels : list (list nat))
    (l l' : viz_locals embedding plot reducer) (name : String.string)
    (w w' : VW) :
  one seed b true_labels l name w = (Returns l', w') ->
  v_training St w' = v_training St w /\ v_runs St w' = v_runs St w.
Proof.
  unfold viz_one. intros H.
  apply tbind_returns in H. destruct H as (fitted & w1 & E1 & H).
  apply tbind_returns in H. destruct H as (cur & w2 & E2 & H).
  apply tbind_returns in H. destruct H as (p & w3 & E3 & H).
  injection H as _ <-.
  apply of_result_returns in E2. destruct E2 as [_ ->].
  apply v_outside_quiet in E3. destruct E3 as [T3 R3].
  assert (Q : v_training St w1 = v_training St w /\
              v_runs St w1 = v_runs St w).
  { destruct (String.eqb name "tsne").
    - apply tbind_returns in E1. destruct E1 as (r & w0 & E0 & E1).
      injection E1 as _ <-. exact (v_outside_quiet _ _ _ _ E0).
    - destruct (String.eqb name "densumap").
      + apply tbind_returns in E1. destruct E1 as (r & w0 & E0 & E1).
        injection E1 as _ <-. exact (v_outside_quiet _ _ _ _ E0).
      + injection E1 as _ <-. split; reflexivity. }
  destruct Q as [T1 R1]. split; congruence.
Qed.

Lemma methods_quiet (seed : Z) (b : buckets) (true_labels : list (list nat))
    (names : list String.string) :
  forall (l l' : viz_locals embedding plot reducer) (w w' : VW),
    tfor_each names (one seed b true_labels) l w = (Returns l', w') ->
    v_training St w' = v_training St w /\ v_runs St w' = v_runs St w.
Proof.
  induction names as [|name names IH]; intros l l' w w' H.
  - injection H as _ <-. split; reflexivity.
  - cbn [tfor_each] in H.
    apply tbind_returns in H. destruct H as (l1 & w1 & E1 & H).
    apply one_quiet in E1. destruct E1 as [T1 R1].
    destruct (IH l1 l' w1 w' H) as [T2 R2]. split; congruence.
Qed.

(** X21.  What a call of [latent_viz] that returns has done.  The
    examples of the first [steps + 1] batches are sorted by label into ten
    classes, in the order of the loader, a label from -10 to -1 counting
    from the last class; the labels returned repeat the number of each
    class once per example of it.  The encoder was run in evaluation
    mode, on one batch more than was sorted when the loader has one, and
    the model is left in training mode whatever its mode was. *)
Theorem latent_viz_sorts_examples_by_label
    (loader : list (list image * list Z)) (dataset : String.string)
    (steps : Z) (method : viz_method) (seed : Z) (w w' : VW)
    (r : viz_result image vec embedding plot reducer) :
  viz loader dataset steps method seed w = (Returns r, w') ->
  samples_of (r_buckets image vec embedding plot reducer r) =
    sorted 10 (sorted_examples steps loader) /\
  r_labels image vec embedding plot reducer r =
    map (fun c =>
           repeat c (length (filter (fun e : image * Z =>
                                       names_class 10 c (snd e))
                                    (sorted_examples steps loader))))
        (seq 0 10) /\
  v_training St w' = true /\
  v_runs St w' =
    v_runs St w ++
    repeat false (Nat.min (length loader) (Z.to_nat (steps + 1) + 1)).
Proof.
  unfold latent_viz. cbv zeta. intros H.
  apply tbind_returns in H. destruct H as (n & w0 & E0 & H).
  apply of_result_returns in E0. destruct E0 as [En ->].
  destruct (existsb _ _); [|discriminate]. injection En as <-.
  apply tbind_returns in H. destruct H as ([] & w1 & E1 & H).
  injection E1 as <-.
  apply tbind_returns in H. destruct H as (b & w2 & E2 & H).
  apply tbind_returns in H. destruct H as (l & w3 & E3 & H).
  apply tbind_returns in H. destruct H as ([] & w4 & E4 & H).
  injection E4 as <-.
  apply tbind_returns in H. destruct H as (cur & w5 & E5 & H).
  apply of_result_returns in E5. destruct E5 as [_ ->].
  injection H as <- <-. cbn [r_buckets r_labels v_training v_runs].
  match type of E2 with
  | viz_loop _ _ _ _ _ _ _ _ ?b0 ?w0 = _ =>
      destruct (loop_sorts 10 steps loader 0 [] b0 b w0 w2 eq_refl E2)
        as (Hs & Ht & Hr)
  end.
  rewrite Nat.sub_0_r in Hs, Hr. cbn [app v_training v_runs] in Hs, Ht, Hr.
  fold (sorted_examples steps loader) in Hs.
  apply methods_quiet in E3. destruct E3 as [T3 R3].
  split; [exact Hs|]. split; [|split; [reflexivity|]].
  - rewrite Hs, length_map, length_seq. apply map_ext_in. intros c Hc.
    apply in_seq in Hc. f_equal.
    rewrite nth_map_seq by lia. apply length_map.
  - rewrite R3, Hr. reflexivity.
Qed.

End LatentVizFacts.

(** A call on two batches with [steps = 0], from training mode. *)
Lemma latent_viz_sorts_examples_by_label_witness :
  class_samples nat nat (r_buckets nat nat unit unit unit viz_of_first_batch) =
    map (fun c => map fst (filter (fun e : nat * Z => names_class 10 c (snd e))
                                  (sorted_examples 0 two_batches)))
        (seq 0 10) /\
  r_labels nat nat unit unit unit viz_of_first_batch =
    map (fun c =>
           repeat c (length (filter (fun e : nat * Z =>
                                       names_class 10 c (snd e))
                                    (sorted_examples 0 two_batches))))
        (seq 0 10) /\
  v_training unit {| v_training := true; v_ext := tt;
                     v_runs := [false; false] |} = true /\
  v_runs unit {| v_training := true; v_ext := tt;
                 v_runs := [false; false] |} =
    v_runs unit {| v_training := true; v_ext := tt; v_runs := [] |} ++
    repeat false (Nat.min (length two_batches) (Z.to_nat (0 + 1) + 1)).
Proof.
  apply (latent_viz_sorts_examples_by_label unit nat nat unit unit unit
           (fun _ x => ret (x, x)) (fun _ mean _ => ret mean)
           (fun _ _ => ret (tt, tt)) (fun _ _ => ret (tt, tt))
           (fun _ _ => ret tt)
           two_batches "mnist"%string 0%Z (MethodName "tsne"%string) 1%Z
           {| v_training := true; v_ext := tt; v_runs := [] |}
           {| v_training := true; v_ext := tt; v_runs := [false; false] |}
           viz_of_first_batch).
  reflexivity.
Defined.

(** ** The marginal entropies in closed form *)

Section ClosedForm.
Open Scope R_scope.

Variable rng : Type.
Variable randperm : nat -> rng -> list nat * rng.
Variable log_density_gaussian : R -> R -> R -> R.

Hypothesis randperm_perm :
  forall n g, Permutation (fst (randperm n g)) (seq 0 n).

(** A row of a table that has it, entry by entry. *)
Lemma row_entries (d : nat) (xs : list R) (x : nat) :
  ((x + 1) * d <= length xs)%nat ->
  row d xs x = map (fun i => nth (x * d + i)%nat xs 0) (seq 0 d).
Proof.
  intros H. rewrite (list_as_map_nth (row d xs x)).
  rewrite length_row by exact H.
  apply map_ext_in. intros i Hi. apply in_seq in Hi.
  unfold row. rewrite nth_firstn.
  destruct (Nat.ltb_spec i d) as [_|Hge]; [|lia].
  apply nth_skipn.
Qed.

(** Entry [n * d + j] of a table given by its rows. *)
Lemma nth_concat_rows (d : nat) (rows : list (list R)) :
  Forall (fun r => length r = d) rows ->
  forall n j, (j < d)%nat ->
    nth (n * d + j) (concat rows) 0 = nth j (nth n rows []) 0.
Proof.
  induction 1 as [|r rows Hr Hrows IH]; intros n j Hj.
  - cbn [concat]. transitivity 0;
      [destruct (n * d + j)%nat; reflexivity
      | destruct n; destruct j; reflexivity].
  - destruct n as [|n]; cbn [concat nth].
    + rewrite app_nth1 by lia. reflexivity.
    + rewrite app_nth2 by (cbn; nia).
      replace (S n * d + j - length r)%nat with (n * d + j)%nat
        by (cbn; lia).
      apply IH. exact Hj.
Qed.

(** The statistics that [expand] leaves as they are. *)
Lemma expand_entries (p : tensor) (N D : nat) :
  shape p = [N; D] ->
  exists m,
    unsqueeze_expand p N D = Ok m /\
    forall n j, (n < N)%nat -> (j < D)%nat ->
      at2 D (data m) n j = nth (n * D + j) (data p) 0.
Proof.
  intros Hp. unfold unsqueeze_expand. rewrite Hp, !Nat.eqb_refl.
  cbn [orb andb]. eexists. split; [reflexivity|].
  intros n j Hn Hj. cbn [data]. unfold at2.
  rewrite nth_concat_rows; [| |exact Hj].
  - rewrite (nth_map_seq _ N n []) by exact Hn.
    rewrite (nth_map_seq _ D j 0) by exact Hj.
    destruct (Nat.eqb_spec N 1) as [E1|_], (Nat.eqb_spec D 1) as [E2|_];
      f_equal; lia.
  - apply Forall_map, Forall_forall. intros i _.
    rewrite length_map, length_seq. reflexivity.
Qed.

Lemma map_nth_seq {A B : Type} (F : A -> B) (l : list A) (d : A) :
  map F l = map (fun s => F (nth s l d)) (seq 0 (length l)).
Proof.
  induction l as [|x l IH]; [reflexivity|].
  cbn [length seq map nth]. f_equal.
  rewrite <- seq_shift, map_map. exact IH.
Qed.

(** The loop's total, with the pivots and the statistics read from the
    tables that were passed in. *)
Lemma entropies_average_closed (N D : nat) (samples mean log_var : list R)
    (meanM log_varM : list R) (pivots : list nat) :
  length samples = (N * D)%nat ->
  Forall (fun x => (x < N)%nat) pivots ->
  (forall n j, (n < N)%nat -> (j < D)%nat ->
     at2 D meanM n j = nth (n * D + j) mean 0) ->
  (forall n j, (n < N)%nat -> (j < D)%nat ->
     at2 D log_varM n j = nth (n * D + j) log_var 0) ->
  entropies_average log_density_gaussian N D (length pivots)
    (concat (map (row D samples) pivots)) meanM log_varM (ln (INR N)) =
  map (reshaped_entropy log_density_gaussian N D samples mean log_var pivots)
      (seq 0 D).
Proof.
  intros Hlen Hpiv Hm Hv.
  assert (Ez : map (row D samples) pivots =
               map (fun x => map (fun i => nth (x * D + i)%nat samples 0)
                                 (seq 0 D)) pivots).
  { apply map_ext_in. intros x Hx. apply row_entries.
    pose proof (proj1 (Forall_forall _ _) Hpiv x Hx) as Hlt. cbv beta in Hlt.
    rewrite Hlen. nia. }
  unfold entropies_average, reshaped_entropy. rewrite Ez.
  apply map_ext_in. intros j Hj. apply in_seq in Hj.
  f_equal. f_equal. apply map_ext. intros s.
  unfold logsumexp. rewrite map_map. f_equal. f_equal. f_equal.
  apply map_ext_in. intros n Hn. apply in_seq in Hn.
  unfold at2 at 1. rewrite Hm, Hv by lia. reflexivity.
Qed.

(** The run of the estimator on tables of one shape. *)
Lemma estimate_closed_form (mini_batch_size : nat) (samples : tensor)
    (params : tensor * tensor) (N D n_samples : nat) (g : rng) :
  (0 < mini_batch_size)%nat ->
  shape samples = [N; D] -> length (data samples) = (N * D)%nat ->
  shape (fst params) = [N; D] -> shape (snd params) = [N; D] ->
  (0 < n_samples <= N)%nat ->
  estimate_latent_entropies_whole rng randperm log_density_gaussian
    samples params n_samples g =
  (Ok (map (reshaped_entropy log_density_gaussian N D (data samples)
              (data (fst params)) (data (snd params))
              (firstn n_samples (fst (randperm N g))))
           (seq 0 D)),
   snd (randperm N g)).
Proof.
  intros Hmb Hs Hlen H0 H1 HS.
  unfold estimate_latent_entropies_whole.
  unfold mbind, lift, torch_randperm, ret, shape2. rewrite Hs.
  pose proof (randperm_below rng randperm randperm_perm N g) as Hb.
  pose proof (randperm_length rng randperm randperm_perm N g) as Hl.
  destruct (randperm N g) as [perm g']. cbn [fst snd] in *.
  unfold index_select0. rewrite forallb_firstn by exact Hb.
  unfold view. cbn [shape data]. rewrite length_firstn, Hl.
  rewrite Nat.min_l by lia. cbn [numel fold_right].
  replace (n_samples * (D * 1) =? D * (n_samples * 1))%nat with true
    by (symmetry; apply Nat.eqb_eq; lia).
  destruct (expand_entries (fst params) N D H0) as (m & Em & Hm).
  destruct (expand_entries (snd params) N D H1) as (v & Ev & Hv).
  rewrite Em, Ev. unfold math_log.
  destruct (Nat.eqb_spec N 0) as [|_]; [lia|].
  f_equal. f_equal. cbn [data].
  assert (Ln : length (firstn n_samples perm) = n_samples)
    by (rewrite length_firstn; lia).
  rewrite <- Ln at 1.
  apply entropies_average_closed; [exact Hlen | | exact Hm | exact Hv].
  apply Forall_forall. intros x Hx. apply Nat.ltb_lt.
  apply (proj1 (forallb_forall _ _) (forallb_firstn _ n_samples perm Hb)).
  exact Hx.
Qed.

Lemma nth_map_default {A B : Type} (G : A -> B) (l : list A) (s : nat)
    (d : A) (d' : B) :
  (s < length l)%nat -> nth s (map G l) d' = G (nth s l d).
Proof.
  intros H. rewrite (nth_indep _ d' (G d)) by (rewrite length_map; exact H).
  apply map_nth.
Qed.

(** With one latent dimension the reshaping changes nothing. *)
Lemma reshaped_one_dimension (N : nat) (samples mean log_var : list R)
    (pivots : list nat) :
  reshaped_entropy log_density_gaussian N 1 samples mean log_var pivots 0 =
  marginal_entropy log_density_gaussian N 1 samples mean log_var pivots 0.
Proof.
  unfold reshaped_entropy, marginal_entropy. cbv zeta.
  set (flat := concat _).
  rewrite (map_nth_seq _ pivots 0%nat).
  apply (f_equal (fun t => t / INR (length pivots))). apply (f_equal rsum).
  apply map_ext_in. intros s Hs. apply in_seq in Hs.
  apply (f_equal (fun t => ln (INR N) - ln (rsum t))).
  apply map_ext. intros n.
  apply (f_equal (fun t => exp (log_density_gaussian t _ _))).
  replace (0 * length pivots + s)%nat with (s * 1 + 0)%nat by lia.
  unfold flat. rewrite nth_concat_rows; [| |lia].
  - rewrite (nth_map_default _ pivots s 0%nat []) by lia. reflexivity.
  - apply Forall_map, Forall_forall. intros x _. reflexivity.
Qed.

(** X22.  What the estimator returns, whatever the size of its
    minibatches: on [N] examples with [D] latent dimensions, statistics of
    the shape of the samples and between one and [N] pivots, the entropy
    of dimension [j] is the average over [s] of [log N] minus the
    logarithm of the sum over the examples [n] of the exponential of the
    log-density, under the posterior of [n] in dimension [j], of entry
    [j * n_samples + s] of the rows of the pivots laid end to end.  The
    size of the minibatches does not occur in it. *)
Theorem estimate_closed_form_for_every_minibatch_size
    (mini_batch_size : nat) (samples_zCx : tensor)
    (params_zCX : tensor * tensor) (N D n_samples : nat) (g : rng) :
  (0 < mini_batch_size)%nat ->
  shape samples_zCx = [N; D] -> length (data samples_zCx) = (N * D)%nat ->
  shape (fst params_zCX) = [N; D] -> shape (snd params_zCX) = [N; D] ->
  (0 < n_samples <= N)%nat ->
  estimate_latent_entropies_with rng randperm log_density_gaussian
    mini_batch_size samples_zCx params_zCX n_samples g =
  (Ok (map (reshaped_entropy log_density_gaussian N D (data samples_zCx)
              (data (fst params_zCX)) (data (snd params_zCX))
              (firstn n_samples (fst (randperm N g))))
           (seq 0 D)),
   snd (randperm N g)).
Proof.
  intros Hmb Hs Hlen H0 H1 HS.
  rewrite (estimate_with_whole rng randperm log_density_gaussian
             mini_batch_size) by exact Hmb.
  apply (estimate_closed_form mini_batch_size); assumption.
Qed.

(** X23.  With one latent dimension the estimator returns the estimate of
    the specification: the average over the pivots of [log N] minus the
    logarithm of the sum over the examples of the exponentials of the
    log-densities of the pivot. *)
Theorem one_dimension_estimate_is_marginal_entropy
    (mini_batch_size : nat) (samples_zCx : tensor)
    (params_zCX : tensor * tensor) (N n_samples : nat) (g : rng) :
  (0 < mini_batch_size)%nat ->
  shape samples_zCx = [N; 1%nat] -> length (data samples_zCx) = N ->
  shape (fst params_zCX) = [N; 1%nat] ->
  shape (snd params_zCX) = [N; 1%nat] ->
  (0 < n_samples <= N)%nat ->
  estimate_latent_entropies_with rng randperm log_density_gaussian
    mini_batch_size samples_zCx params_zCX n_samples g =
  (Ok [marginal_entropy log_density_gaussian N 1 (data samples_zCx)
         (data (fst params_zCX)) (data (snd params_zCX))
         (firstn n_samples (fst (randperm N g))) 0],
   snd (randperm N g)).
Proof.
  intros Hmb Hs Hlen H0 H1 HS.
  rewrite (estimate_with_whole rng randperm log_density_gaussian
             mini_batch_size) by exact Hmb.
  rewrite (estimate_closed_form mini_batch_size samples_zCx params_zCX N 1
             n_samples g) by (try assumption; lia).
  cbn [seq map]. rewrite reshaped_one_dimension. reflexivity.
Qed.

End ClosedForm.

(** The blocks of three pivots in minibatches of two. *)
Example py_range_3_2 : py_range 3 2 = Ok [0; 2].
Proof. reflexivity. Qed.

Lemma estimate_closed_form_for_every_minibatch_size_witness :
  estimate_latent_entropies_with unit sorted_randperm gaussian_log_density
    2 three_samples (standard_posteriors, standard_posteriors) 2 tt =
  (Ok (map (reshaped_entropy gaussian_log_density 3 2 (data three_samples)
              (data standard_posteriors) (data standard_posteriors)
              (firstn 2 (fst (sorted_randperm 3 tt))))
           (seq 0 2)),
   snd (sorted_randperm 3 tt)).
Proof.
  apply (estimate_closed_form_for_every_minibatch_size unit sorted_randperm
           gaussian_log_density sorted_randperm_perm 2 three_samples
           (standard_posteriors, standard_posteriors) 3 2 2 tt).
  - lia.
  - reflexivity.
  - reflexivity.
  - reflexivity.
  - reflexivity.
  - lia.
Defined.

Lemma one_dimension_estimate_is_marginal_entropy_witness :
  estimate_latent_entropies_with unit sorted_randperm gaussian_log_density
    2 three_numbers (three_numbers, three_numbers) 3 tt =
  (Ok [marginal_entropy gaussian_log_density 3 1 (data three_numbers)
         (data three_numbers) (data three_numbers)
         (firstn 3 (fst (sorted_randperm 3 tt))) 0],
   snd (sorted_randperm 3 tt)).
Proof.
  apply (one_dimension_estimate_is_marginal_entropy unit sorted_randperm
           gaussian_log_density sorted_randperm_perm 2 three_numbers
           (three_numbers, three_numbers) 3 3 tt).
  - lia.
  - reflexivity.
  - reflexivity.
  - reflexivity.
  - reflexivity.
  - lia.
Defined.

(** ** Pivots with more than one latent dimension *)

Section ReshapedPivots.
Open Scope R_scope.

Lemma three_equal (a : R) :
  ln (INR 3) - ln (exp a + (exp a + (exp a + 0))) = - a.
Proof.
  replace (exp a + (exp a + (exp a + 0))) with (INR 3 * exp a)
    by (simpl; ring).
  rewrite ln_mult; [rewrite ln_exp; ring | | apply exp_pos].
  apply lt_0_INR. lia.
Qed.

Lemma gaussian_standard (x : R) :
  gaussian_log_density x 0 0 = - / 2 * ln (2 * PI) - x * x / 2.
Proof.
  unfold gaussian_log_density. rewrite Ropp_0, exp_0. field.
Qed.

(** C6.  Three examples with two latent dimensions, the samples (1, 10),
    (2, 20) and (3, 30), every posterior standard normal, three pivots in
    the order of the dataset.  With minibatches of any size the estimator
    returns the same two entropies, but they are not the averages of the
    specification: line 473 reshapes the three pivots to 2 by 3 without
    transposing them, so dimension 0 is estimated at 1, 10 and 2 in the
    place of 1, 2 and 3, and dimension 1 at 20, 3 and 30 in the place
    of 10, 20 and 30. *)
Theorem estimate_reads_reshaped_pivots (mini_batch_size : nat) :
  (0 < mini_batch_size)%nat ->
  let c := / 2 * ln (2 * PI) in
  estimate_latent_entropies_with unit sorted_randperm gaussian_log_density
    mini_batch_size three_samples (standard_posteriors, standard_posteriors)
    3 tt =
  (Ok [c + 35 / 2; c + 1309 / 6], tt) /\
  map (marginal_entropy gaussian_log_density 3 2 (data three_samples)
         (data standard_posteriors) (data standard_posteriors) [0; 1; 2]%nat)
      [0; 1]%nat =
  [c + 7 / 3; c + 700 / 3] /\
  c + 35 / 2 <> c + 7 / 3 /\ c + 1309 / 6 <> c + 700 / 3.
Proof.
  intros Hmb c. split; [|split; [|split; lra]].
  - rewrite (estimate_with_whole unit sorted_randperm gaussian_log_density
               mini_batch_size) by exact Hmb.
    rewrite (estimate_closed_form unit sorted_randperm gaussian_log_density
               sorted_randperm_perm mini_batch_size three_samples
               (standard_posteriors, standard_posteriors) 3 2 3 tt);
      [|exact Hmb | reflexivity | reflexivity | reflexivity | reflexivity
       | lia].
    f_equal. unfold reshaped_entropy.
    cbn [three_samples standard_posteriors data fst snd sorted_randperm
         firstn seq map concat app length nth Nat.mul Nat.add rsum
         fold_right].
    rewrite !three_equal, !gaussian_standard. subst c.
    cbn [INR]. apply f_equal.
    apply f_equal2; [lra | apply f_equal2; [lra | reflexivity]].
  - unfold marginal_entropy.
    cbn [three_samples standard_posteriors data seq map length nth
         Nat.mul Nat.add rsum fold_right].
    rewrite !three_equal, !gaussian_standard. subst c.
    cbn [INR].
    apply f_equal2; [lra | apply f_equal2; [lra | reflexivity]].
Qed.

End ReshapedPivots.

(** The three pivots in minibatches of two: a block of two and one of
    one. *)
Lemma estimate_reads_reshaped_pivots_witness :
  let c := (/ 2 * ln (2 * PI))%R in
  estimate_latent_entropies_with unit sorted_randperm gaussian_log_density
    2 three_samples (standard_posteriors, standard_posteriors) 3 tt =
  (Ok [c + 35 / 2; c + 1309 / 6]%R, tt) /\
  map (marginal_entropy gaussian_log_density 3 2 (data three_samples)
         (data standard_posteriors) (data standard_posteriors) [0; 1; 2])
      [0; 1] =
  [c + 7 / 3; c + 700 / 3]%R /\
  (c + 35 / 2 <> c + 7 / 3)%R /\ (c + 1309 / 6 <> c + 700 / 3)%R.
Proof.
  apply (estimate_reads_reshaped_pivots 2). lia.
Defined.
